(** * Exoquic browser SDK: session engine

    A shallow embedding of the TypeScript sources (types.ts, connection.ts,
    session.ts, cache.ts, source.ts, events.ts, subscription.ts and the
    store layout set up in index.ts), followed by the properties of the
    engine that the specification states.

    Conventions of the embedding.
    - A JavaScript [number] that holds a duration is a rational [Q]; the
      product [reconnectMs * 1.5] is the exact product (a double product is
      exact as long as the result is representable).  Close codes, source
      tags and correlation ids are integers [Z].
    - An [async] method is run to completion in one piece: every [await]
      of the methods below waits for a store request or for another method
      of the engine.  Where a method waits for the transport (the [open]
      of the connection) the embedding splits it at that point, and where
      what reaches the connection during a store read matters (the loop
      of [subscribe]) a second embedding lets it happen there.
    - Exceptions and rejected promises are the [Throw] results of an
      error-and-state monad over the [World]; [console] output is kept in
      the world so that "logged" is observable. *)

From Stdlib Require Import ZArith QArith Qminmax String List Bool Lia.
From stdpp Require Import base option gmap strings list.
Import ListNotations.

Local Open Scope string_scope.
Local Open Scope list_scope.

(* ===================================================================== *)
(** * types.ts *)
(* ===================================================================== *)

Inductive CacheMode := CacheNever | CacheEnd | CacheStart.

(** [SessionOptions]: every option but the credential callback is optional.
    The callback itself is an external collaborator; its outcome enters the
    model as an event of the connection (see [ConnEvent]). *)
Record SessionOptions := {
  opt_url : option string;
  opt_reconnectTimeout : option Q;
  opt_maxReconnectTimeout : option Q;
  opt_shouldReconnect : option bool;
  opt_cacheEnabled : option bool;
  opt_cacheDbName : option string;
  opt_dedupWindow : option Q;
  opt_cacheMode : option CacheMode
}.

Record Config := {
  url : string;
  reconnectTimeout : Q;
  maxReconnectTimeout : Q;
  shouldReconnect : bool;
  cacheEnabled : bool;
  cacheDbName : string;
  dedupWindow : Q;
  cacheMode : CacheMode
}.

(** [x || d] on an optional number: [undefined] and [0] are falsy. *)
Definition num_or (x : option Q) (d : Q) : Q :=
  match x with
  | Some q => if Qeq_bool q 0 then d else q
  | None => d
  end.

(** [x || d] on an optional string: [undefined] and the empty string are
    falsy. *)
Definition str_or (x : option string) (d : string) : string :=
  match x with
  | Some "" => d
  | Some s => s
  | None => d
  end.

(** [x !== false] on an optional boolean. *)
Definition not_false (x : option bool) : bool :=
  match x with
  | Some false => false
  | _ => true
  end.

Definition defaultWsUrl : string := "wss://prod.ws.exoquic.com/v3/connect".

(** The constructor of [Config]. *)
Definition mkConfig (options : SessionOptions) : Config := {|
  url := str_or (opt_url options) defaultWsUrl;
  reconnectTimeout := num_or (opt_reconnectTimeout options) 1000;
  maxReconnectTimeout := num_or (opt_maxReconnectTimeout options) 10000;
  shouldReconnect := not_false (opt_shouldReconnect options);
  cacheEnabled := not_false (opt_cacheEnabled options);
  cacheDbName := str_or (opt_cacheDbName options) "exoquic-cache-v3";
  dedupWindow := num_or (opt_dedupWindow options) 1000;
  cacheMode := default CacheStart (opt_cacheMode options)
|}.

Definition UUID := string.

(** The payload of an event is opaque to the engine ([any]); a string
    stands for it. *)
Definition Payload := string.

Record Event := { ev_gid : UUID; ev_data : Payload }.

Record Batch := {
  batch_destination : string;
  batch_gid : UUID;
  batch_data : list Event;
  batch_sid : string
}.

Record SubscribeFrame := {
  sub_destination : string;
  sub_cid : Z;
  sub_sid : option string;
  sub_gid : option UUID;
  sub_cache : option CacheMode
}.

Record PublishFrame := { pub_destination : string; pub_data : string }.

Record SubAckFrame := { ack_sid : string }.

Record EventFrame := { evf_src : Z; evf_batch : Batch; evf_sid : string }.

Record OnSrcFrame := { src_src : Z; src_sid : string }.

Record ErrorFrame := { err_code : string; err_message : string }.

Inductive Frame :=
| FSubscribe (f : SubscribeFrame)
| FPublish (f : PublishFrame)
| FSubAck (f : SubAckFrame)
| FEvent (f : EventFrame)
| FOnSrc (f : OnSrcFrame)
| FError (f : ErrorFrame).

Inductive ErrorCode :=
| CONNECTION_ERROR | AUTHENTICATION_ERROR | SUBSCRIPTION_ERROR
| SUBSCRIPTION_TIMEOUT | PRODUCTION_ERROR | INVALID_FRAME | SERVER_ERROR.

(** What a [throw] carries. *)
Inductive Exn :=
| Error (message : string)      (* [new Error(message)] *)
| DataError                     (* IndexedDB: the parameter is not a valid key *)
| StoreFailure                  (* a failed request of the store *)
| CredentialError               (* the rejection of [jwtProvider] *)
| TransportError                (* the event handed to [ws.onerror] *)
| InvalidAccessError            (* [ws.close]: the code is not one a client may send *)
| SyntaxError.                  (* [ws.close]: the reason is too long *)

Inductive Res (A : Type) :=
| Ok (a : A)
| Throw (e : Exn).
Arguments Ok {A} a.
Arguments Throw {A} e.

(* ===================================================================== *)
(** * connection.ts *)
(* ===================================================================== *)

Module Connection.

Inductive ConnectionState := CLOSED | CONNECTING | OPEN | CLOSING.

Definition state_eqb (a b : ConnectionState) : bool :=
  match a, b with
  | CLOSED, CLOSED | CONNECTING, CONNECTING | OPEN, OPEN | CLOSING, CLOSING => true
  | _, _ => false
  end.

(** The life of one [WebSocket] object created by [open]:
    [Opening] while only [onopen], [onerror] and the connect timeout are
    armed; [Established] once [setupEventHandlers] has installed
    [onmessage], [onerror] and [onclose]; [Aborted] once the connect
    timeout has called [ws.close()] on an opening socket (its [onerror] is
    still armed); [Gone] once the browser has delivered its last event. *)
Inductive SocketPhase := Opening | Aborted | Established | Gone.

(** A reconnect timer set by [handleClose]: the delay handed to
    [setTimeout], the value [wait] captured by its callback, and whether
    the callback has run.  No handle of the timer is kept by the class and
    [clearTimeout] is never called on it, so a timer only ever goes from
    pending to fired. *)
Record Timer := { timer_delay : Q; timer_wait : Q; timer_fired : bool }.

(** The fields of the class ([ws], [state], [reconnectMs],
    [frameHandlers]) and, below them, the part of the environment the class
    talks to: the sockets it created, the reconnect timers it set (in the
    order they were set), the calls of [open] waiting for the credential,
    and what was handed to [ws.send], [ws.close] and the error handler. *)
Record Conn := {
  ws : option nat;
  state : ConnectionState;
  reconnectMs : Q;
  frameHandlers : list nat;
  sockets : list SocketPhase;
  timers : list Timer;
  jwtWaiters : nat;
  sent : list (nat * Frame);
  closeCalls : list (nat * Z * string);
  reported : list (ErrorCode * string)
}.

Definition set_state (st : ConnectionState) (c : Conn) : Conn :=
  {| ws := ws c; state := st; reconnectMs := reconnectMs c;
     frameHandlers := frameHandlers c; sockets := sockets c;
     timers := timers c; jwtWaiters := jwtWaiters c; sent := sent c;
     closeCalls := closeCalls c; reported := reported c |}.

Definition set_ws (w : option nat) (c : Conn) : Conn :=
  {| ws := w; state := state c; reconnectMs := reconnectMs c;
     frameHandlers := frameHandlers c; sockets := sockets c;
     timers := timers c; jwtWaiters := jwtWaiters c; sent := sent c;
     closeCalls := closeCalls c; reported := reported c |}.

Definition set_reconnectMs (q : Q) (c : Conn) : Conn :=
  {| ws := ws c; state := state c; reconnectMs := q;
     frameHandlers := frameHandlers c; sockets := sockets c;
     timers := timers c; jwtWaiters := jwtWaiters c; sent := sent c;
     closeCalls := closeCalls c; reported := reported c |}.

Definition set_frameHandlers (hs : list nat) (c : Conn) : Conn :=
  {| ws := ws c; state := state c; reconnectMs := reconnectMs c;
     frameHandlers := hs; sockets := sockets c;
     timers := timers c; jwtWaiters := jwtWaiters c; sent := sent c;
     closeCalls := closeCalls c; reported := reported c |}.

Definition set_sockets (ss : list SocketPhase) (c : Conn) : Conn :=
  {| ws := ws c; state := state c; reconnectMs := reconnectMs c;
     frameHandlers := frameHandlers c; sockets := ss;
     timers := timers c; jwtWaiters := jwtWaiters c; sent := sent c;
     closeCalls := closeCalls c; reported := reported c |}.

Definition set_timers (ts : list Timer) (c : Conn) : Conn :=
  {| ws := ws c; state := state c; reconnectMs := reconnectMs c;
     frameHandlers := frameHandlers c; sockets := sockets c;
     timers := ts; jwtWaiters := jwtWaiters c; sent := sent c;
     closeCalls := closeCalls c; reported := reported c |}.

Definition set_jwtWaiters (n : nat) (c : Conn) : Conn :=
  {| ws := ws c; state := state c; reconnectMs := reconnectMs c;
     frameHandlers := frameHandlers c; sockets := sockets c;
     timers := timers c; jwtWaiters := n; sent := sent c;
     closeCalls := closeCalls c; reported := reported c |}.

Definition set_sent (fs : list (nat * Frame)) (c : Conn) : Conn :=
  {| ws := ws c; state := state c; reconnectMs := reconnectMs c;
     frameHandlers := frameHandlers c; sockets := sockets c;
     timers := timers c; jwtWaiters := jwtWaiters c; sent := fs;
     closeCalls := closeCalls c; reported := reported c |}.

Definition set_closeCalls (cs : list (nat * Z * string)) (c : Conn) : Conn :=
  {| ws := ws c; state := state c; reconnectMs := reconnectMs c;
     frameHandlers := frameHandlers c; sockets := sockets c;
     timers := timers c; jwtWaiters := jwtWaiters c; sent := sent c;
     closeCalls := cs; reported := reported c |}.

(** [errorHandler.handleError(code, message)]: the report is kept. *)
Definition handleError (code : ErrorCode) (message : string) (c : Conn) : Conn :=
  {| ws := ws c; state := state c; reconnectMs := reconnectMs c;
     frameHandlers := frameHandlers c; sockets := sockets c;
     timers := timers c; jwtWaiters := jwtWaiters c; sent := sent c;
     closeCalls := closeCalls c; reported := reported c ++ [(code, message)] |}.

Section WithConfig.

Variable config : Config.

(** The constructor. *)
Definition init : Conn :=
  {| ws := None; state := CLOSED; reconnectMs := reconnectTimeout config;
     frameHandlers := []; sockets := []; timers := []; jwtWaiters := 0;
     sent := []; closeCalls := []; reported := [] |}.

(** ** open *)

(** How a call of [open] comes back to its caller at once: it has returned
    (the guard at its top), or it is suspended at
    [await this.config.jwtProvider()]. *)
Inductive OpenCall := Returned | Suspended.

(** [open] up to its first suspension. *)
Definition open_call (c : Conn) : OpenCall * Conn :=
  if state_eqb (state c) OPEN || state_eqb (state c) CONNECTING
  then (Returned, c)
  else (Suspended, set_jwtWaiters (S (jwtWaiters c)) (set_state CONNECTING c)).

(** The credential arrived: [new WebSocket(url, jwt)], whose [onopen],
    [onerror] and connect timeout are armed. *)
Definition open_jwt_resolved (c : Conn) : Conn :=
  match jwtWaiters c with
  | O => c
  | S n => set_sockets (sockets c ++ [Opening]) (set_jwtWaiters n c)
  end.

(** The credential callback failed: the [catch] of [open]. *)
Definition open_jwt_rejected (c : Conn) : Conn :=
  match jwtWaiters c with
  | O => c
  | S n =>
      handleError CONNECTION_ERROR "Failed to get Exoquic access token"
        (set_state CLOSED (set_jwtWaiters n c))
  end.

(** [ws.onopen] as set by [open]. *)
Definition ws_onopen (n : nat) (c : Conn) : Conn :=
  match sockets c !! n with
  | Some Opening =>
      let c := set_state OPEN c in
      let c := set_reconnectMs (reconnectTimeout config) c in
      let c := set_sockets (<[n := Established]> (sockets c)) c in
      set_ws (Some n) c
  | _ => c
  end.

(** ** handleClose *)

Definition handleClose (code : Z) (c : Conn) : Conn :=
  let c := set_state CLOSED c in
  let c := set_ws None c in
  if (code =? 1000)%Z || negb (shouldReconnect config) then c
  else
    let wait := Qmin (reconnectMs c * (3 # 2)) (maxReconnectTimeout config) in
    set_timers (timers c ++ [{| timer_delay := reconnectMs c; timer_wait := wait;
                                timer_fired := false |}]) c.

(** [ws.onerror]: the handler set by [open] while the socket is opening,
    the one set by [setupEventHandlers] afterwards. *)
Definition ws_onerror (n : nat) (c : Conn) : Conn :=
  match sockets c !! n with
  | Some Opening | Some Aborted =>
      handleError CONNECTION_ERROR "Failed to connect"
        (set_state CLOSED (set_sockets (<[n := Gone]> (sockets c)) c))
  | Some Established => handleError CONNECTION_ERROR "WebSocket error" c
  | _ => c
  end.

(** The 10 s connect timeout of [open] fires: the promise is rejected and
    [ws.close()] is called; no field of the class is written. *)
Definition connect_timeout (n : nat) (c : Conn) : Conn :=
  match sockets c !! n with
  | Some Opening => set_sockets (<[n := Aborted]> (sockets c)) c
  | _ => c
  end.

(** [ws.onclose]: installed by [setupEventHandlers] only, and never
    removed. *)
Definition ws_onclose (n : nat) (code : Z) (c : Conn) : Conn :=
  match sockets c !! n with
  | Some Established => handleClose code (set_sockets (<[n := Gone]> (sockets c)) c)
  | Some _ => set_sockets (<[n := Gone]> (sockets c)) c
  | None => c
  end.

(** The callback of the reconnect timer:
    [this.reconnectMs = wait; this.open()]. *)
Definition timer_fire (k : nat) (c : Conn) : Conn :=
  match timers c !! k with
  | Some {| timer_delay := d; timer_wait := wait; timer_fired := false |} =>
      let c := set_timers (<[k := {| timer_delay := d; timer_wait := wait;
                                     timer_fired := true |}]> (timers c)) c in
      let c := set_reconnectMs wait c in
      snd (open_call c)
  | _ => c
  end.

(** ** sendFrame, produce, isOpen, close *)

Definition not_open : Exn := Error "WebSocket not open".

Definition sendFrame (frame : Frame) (c : Conn) : Res unit * Conn :=
  match state_eqb (state c) OPEN, ws c with
  | true, Some n => (Ok tt, set_sent (sent c ++ [(n, frame)]) c)
  | _, _ => (Throw not_open, c)
  end.

Definition isOpen (c : Conn) : bool := state_eqb (state c) OPEN.

Definition addFrameHandler (h : nat) (c : Conn) : Conn :=
  if existsb (Nat.eqb h) (frameHandlers c) then c
  else set_frameHandlers (frameHandlers c ++ [h]) c.

(** [WebSocket.close(code, reason)] checks its arguments before anything
    else: the code must be 1000 or lie between 3000 and 4999, and the
    reason must not be longer than 123 bytes once encoded (a string stands
    for its encoding here).  It throws otherwise, and the socket is not
    touched. *)
Definition ws_close_check (code : Z) (reason : string) : option Exn :=
  if negb ((code =? 1000)%Z || ((3000 <=? code)%Z && (code <=? 4999)%Z))
  then Some InvalidAccessError
  else if (123 <? String.length reason)%nat then Some SyntaxError
  else None.

(** [close] always hands a code and a reason to [ws.close] (its
    parameters have defaults) and has no [try] around the call: when
    [ws.close] throws, [close] stops there, with the state CLOSING and the
    socket and the frame handlers kept. *)
Definition close (code : Z) (reason : string) (c : Conn) : Res unit * Conn :=
  if state_eqb (state c) CLOSED then (Ok tt, c)
  else
    let c := set_state CLOSING c in
    let finish c := set_frameHandlers [] (set_ws None (set_state CLOSED c)) in
    match ws c with
    | Some n =>
        match ws_close_check code reason with
        | Some e => (Throw e, c)
        | None => (Ok tt, finish (set_closeCalls (closeCalls c ++ [(n, code, reason)]) c))
        end
    | None => (Ok tt, finish c)
    end.

(** [produce] up to its first suspension: [None] when the state is OPEN
    and [open] is not called, otherwise how the nested [open] came back. *)
Definition produce_call (c : Conn) : option OpenCall * Conn :=
  if negb (state_eqb (state c) OPEN)
  then let '(o, c') := open_call c in (Some o, c')
  else (None, c).

(** [produce] after [await this.open()] has come back without an
    exception: the publish frame is built and handed to [sendFrame]. *)
Definition produce_resume (destination data : string) (c : Conn) : Res unit * Conn :=
  sendFrame (FPublish {| pub_destination := destination; pub_data := data |}) c.

(** How the attempt started by a call of [open] ends, when the caller
    waits for it and nothing else happens to the connection meanwhile. *)
Inductive Attempt := JwtFails | SocketOpens | SocketErrors | TimesOut.

(** [await this.open()] for such an attempt. *)
Definition open_await (a : Attempt) (c : Conn) : Res unit * Conn :=
  match open_call c with
  | (Returned, c) => (Ok tt, c)
  | (Suspended, c) =>
      match a with
      | JwtFails => (Throw CredentialError, open_jwt_rejected c)
      | SocketOpens =>
          (Ok tt, ws_onopen (length (sockets c)) (open_jwt_resolved c))
      | SocketErrors =>
          (Throw TransportError, ws_onerror (length (sockets c)) (open_jwt_resolved c))
      | TimesOut =>
          (Throw (Error "Connection timeout"),
           connect_timeout (length (sockets c)) (open_jwt_resolved c))
      end
  end.

(** ** The connection as a transition system *)

(** What can happen to a connection: calls of its public methods, the
    settlement of the credential callback, the events of its sockets and
    its reconnect timers. *)
Inductive ConnEvent :=
| CallOpen
| CallClose (code : Z) (reason : string)
| CallSendFrame (frame : Frame)
| JwtResolved
| JwtRejected
| WsOpen (n : nat)
| WsError (n : nat)
| WsClose (n : nat) (code : Z)
| ConnectTimeout (n : nat)
| TimerFired (k : nat).

Definition step (c : Conn) (e : ConnEvent) : Conn :=
  match e with
  | CallOpen => snd (open_call c)
  | CallClose code reason => snd (close code reason c)
  | CallSendFrame frame => snd (sendFrame frame c)
  | JwtResolved => open_jwt_resolved c
  | JwtRejected => open_jwt_rejected c
  | WsOpen n => ws_onopen n c
  | WsError n => ws_onerror n c
  | WsClose n code => ws_onclose n code c
  | ConnectTimeout n => connect_timeout n c
  | TimerFired k => timer_fire k c
  end.

Definition run (c : Conn) (es : list ConnEvent) : Conn := fold_left step es c.

(** The delays handed to [setTimeout] by the reconnect path so far,
    oldest first. *)
Definition scheduled (c : Conn) : list Q := map timer_delay (timers c).

End WithConfig.

End Connection.

(* ===================================================================== *)
(** * The persistent store (layout of index.ts) *)
(* ===================================================================== *)

(** [SessionData] of session.ts. *)
Record SessionData := {
  sd_destination : string;
  sd_sid : string;
  sd_gid : option UUID
}.

(** [EventCacheEntry] of cache.ts. *)
Record EventCacheEntry := {
  ce_destination : string;
  ce_sid : string;
  ce_batch : Batch
}.

(** The database opened by [initializeDatabase]:
    - ['sids'], created with [keyPath: 'destination']: one record per
      destination, the key is read from the record;
    - ['events'], created with [autoIncrement: true] and no key path: the
      keys are generated by the store and kept beside the values, in
      ascending order. *)
Record Db := {
  sids : gmap string SessionData;
  events : list (nat * EventCacheEntry);
  nextKey : nat
}.

(** The requests the engine sends to the store; each may fail. *)
Inductive Request :=
| SidsTransaction | SidsPut | SidsGet | SidsDelete
| EventsTransaction | EventsPut | EventsDelete | EventsClear
| EventsBySid | EventsByDestination.

Inductive Level := LOG | WARN | ERROR.

(** Everything the engine reads and writes.
    - [db]: the one database handle that the facade hands both to the
      [SessionIdManager] and to the [CacheManager] ([None]: IndexedDB is
      not available); [failing] tells which of its requests fail.
    - [activeSources], [bufferedEvents]: the maps of the [SourceManager].
    - [destinationHandlers]: the listener sets of the [EventProcessor], a
      listener standing by its identity; [throwing] tells which listeners
      throw; [delivered] records every call of a listener.
    - [pendingSubscriptions]: the [Map] of the [SubscriptionManager], in
      insertion order, which is the order [entries()] iterates in.
    - [conn]: the connection.
    - [random]: the values [Math.floor(Math.random() * 1_000_000_000)]
      takes, call after call. *)
Record World := {
  db : option Db;
  failing : Request -> bool;
  console : list (Level * string);
  activeSources : gmap string Z;
  bufferedEvents : gmap string (list Batch);
  destinationHandlers : gmap string (list nat);
  throwing : nat -> bool;
  delivered : list (nat * list Payload * string);
  pendingSubscriptions : list (Z * SubscribeFrame);
  conn : Connection.Conn;
  random : nat -> Z;
  randomCalls : nat
}.

Definition set_db (x : option Db) (w : World) : World :=
  {| db := x; failing := failing w; console := console w;
     activeSources := activeSources w; bufferedEvents := bufferedEvents w;
     destinationHandlers := destinationHandlers w; throwing := throwing w;
     delivered := delivered w; pendingSubscriptions := pendingSubscriptions w;
     conn := conn w; random := random w; randomCalls := randomCalls w |}.

Definition set_console (x : list (Level * string)) (w : World) : World :=
  {| db := db w; failing := failing w; console := x;
     activeSources := activeSources w; bufferedEvents := bufferedEvents w;
     destinationHandlers := destinationHandlers w; throwing := throwing w;
     delivered := delivered w; pendingSubscriptions := pendingSubscriptions w;
     conn := conn w; random := random w; randomCalls := randomCalls w |}.

Definition set_activeSources (x : gmap string Z) (w : World) : World :=
  {| db := db w; failing := failing w; console := console w;
     activeSources := x; bufferedEvents := bufferedEvents w;
     destinationHandlers := destinationHandlers w; throwing := throwing w;
     delivered := delivered w; pendingSubscriptions := pendingSubscriptions w;
     conn := conn w; random := random w; randomCalls := randomCalls w |}.

Definition set_bufferedEvents (x : gmap string (list Batch)) (w : World) : World :=
  {| db := db w; failing := failing w; console := console w;
     activeSources := activeSources w; bufferedEvents := x;
     destinationHandlers := destinationHandlers w; throwing := throwing w;
     delivered := delivered w; pendingSubscriptions := pendingSubscriptions w;
     conn := conn w; random := random w; randomCalls := randomCalls w |}.

Definition set_destinationHandlers (x : gmap string (list nat)) (w : World) : World :=
  {| db := db w; failing := failing w; console := console w;
     activeSources := activeSources w; bufferedEvents := bufferedEvents w;
     destinationHandlers := x; throwing := throwing w;
     delivered := delivered w; pendingSubscriptions := pendingSubscriptions w;
     conn := conn w; random := random w; randomCalls := randomCalls w |}.

Definition set_delivered (x : list (nat * list Payload * string)) (w : World) : World :=
  {| db := db w; failing := failing w; console := console w;
     activeSources := activeSources w; bufferedEvents := bufferedEvents w;
     destinationHandlers := destinationHandlers w; throwing := throwing w;
     delivered := x; pendingSubscriptions := pendingSubscriptions w;
     conn := conn w; random := random w; randomCalls := randomCalls w |}.

Definition set_pendingSubscriptions (x : list (Z * SubscribeFrame)) (w : World) : World :=
  {| db := db w; failing := failing w; console := console w;
     activeSources := activeSources w; bufferedEvents := bufferedEvents w;
     destinationHandlers := destinationHandlers w; throwing := throwing w;
     delivered := delivered w; pendingSubscriptions := x;
     conn := conn w; random := random w; randomCalls := randomCalls w |}.

Definition set_conn (x : Connection.Conn) (w : World) : World :=
  {| db := db w; failing := failing w; console := console w;
     activeSources := activeSources w; bufferedEvents := bufferedEvents w;
     destinationHandlers := destinationHandlers w; throwing := throwing w;
     delivered := delivered w; pendingSubscriptions := pendingSubscriptions w;
     conn := x; random := random w; randomCalls := randomCalls w |}.

Definition set_randomCalls (x : nat) (w : World) : World :=
  {| db := db w; failing := failing w; console := console w;
     activeSources := activeSources w; bufferedEvents := bufferedEvents w;
     destinationHandlers := destinationHandlers w; throwing := throwing w;
     delivered := delivered w; pendingSubscriptions := pendingSubscriptions w;
     conn := conn w; random := random w; randomCalls := x |}.

(** ** The monad of the engine: state and exceptions *)

Definition M (A : Type) : Type := World -> Res A * World.

Definition ret {A} (a : A) : M A := fun w => (Ok a, w).

Definition bind {A B} (m : M A) (k : A -> M B) : M B :=
  fun w =>
    match m w with
    | (Ok a, w') => k a w'
    | (Throw e, w') => (Throw e, w')
    end.

Definition throw {A} (e : Exn) : M A := fun w => (Throw e, w).

(** [try { m } catch (err) { h err }]. *)
Definition try_catch {A} (m : M A) (h : Exn -> M A) : M A :=
  fun w =>
    match m w with
    | (Ok a, w') => (Ok a, w')
    | (Throw e, w') => h e w'
    end.

Definition gets {A} (f : World -> A) : M A := fun w => (Ok (f w), w).

Definition modify (f : World -> World) : M unit := fun w => (Ok tt, f w).

Declare Scope engine_scope.
Notation "x <- m ;; k" := (bind m (fun x => k))
  (at level 100, m at next level, k at level 200, right associativity)
  : engine_scope.
Notation "m ;; k" := (bind m (fun _ => k))
  (at level 100, k at level 200, right associativity) : engine_scope.
Local Open Scope engine_scope.

(** [for (const x of xs) { await body x }]. *)
Fixpoint for_each {A} (xs : list A) (body : A -> M unit) : M unit :=
  match xs with
  | [] => ret tt
  | x :: xs' => body x ;; for_each xs' body
  end.

Definition console_log (msg : string) : M unit :=
  modify (fun w => set_console (console w ++ [(LOG, msg)]) w).
Definition console_warn (msg : string) : M unit :=
  modify (fun w => set_console (console w ++ [(WARN, msg)]) w).
Definition console_error (msg : string) : M unit :=
  modify (fun w => set_console (console w ++ [(ERROR, msg)]) w).

(** ** Requests to the store *)

(** A request fails when the world says so. *)
Definition request (r : Request) : M unit :=
  fun w => if failing w r then (Throw StoreFailure, w) else (Ok tt, w).

Definition modify_db (f : Db -> Db) : M unit :=
  modify (fun w => set_db (f <$> db w) w).

(** [put] on ['sids']: the key is the [destination] of the record, an
    existing record under that key is replaced. *)
Definition sids_put (sd : SessionData) : M unit :=
  request SidsPut ;;
  modify_db (fun d => {| sids := <[sd_destination sd := sd]> (sids d);
                         events := events d; nextKey := nextKey d |}).

Definition sids_get (destination : string) : M (option SessionData) :=
  request SidsGet ;;
  gets (fun w => d ← db w; sids d !! destination).

Definition sids_delete (destination : string) : M unit :=
  request SidsDelete ;;
  modify_db (fun d => {| sids := delete destination (sids d);
                         events := events d; nextKey := nextKey d |}).

(** [put] on ['events']: the store generates the next key; the value is
    stored as it is. *)
Definition events_put (e : EventCacheEntry) : M unit :=
  request EventsPut ;;
  modify_db (fun d => {| sids := sids d;
                         events := events d ++ [(nextKey d, e)];
                         nextKey := S (nextKey d) |}).

(** [getAllFromIndex('events', 'sid', sid)]: the values whose [sid] is
    [sid], in the order of their keys. *)
Definition events_by_sid (sid : string) : M (list EventCacheEntry) :=
  request EventsBySid ;;
  gets (fun w =>
    match db w with
    | Some d => map snd (List.filter (fun ke => String.eqb (ce_sid (snd ke)) sid) (events d))
    | None => []
    end).

(** [getAllFromIndex('events', 'destination', destination)]. *)
Definition events_by_destination (destination : string) : M (list EventCacheEntry) :=
  request EventsByDestination ;;
  gets (fun w =>
    match db w with
    | Some d => map snd (List.filter (fun ke => String.eqb (ce_destination (snd ke)) destination) (events d))
    | None => []
    end).

(** [delete(key)] on ['events'].  [undefined] is not a valid key: the
    call throws a [DataError] before any request is made. *)
Definition events_delete (key : option nat) : M unit :=
  match key with
  | None => throw DataError
  | Some k =>
      request EventsDelete ;;
      modify_db (fun d => {| sids := sids d;
                             events := List.filter (fun ke => negb (Nat.eqb (fst ke) k)) (events d);
                             nextKey := nextKey d |})
  end.

Definition events_clear : M unit :=
  request EventsClear ;;
  modify_db (fun d => {| sids := sids d; events := []; nextKey := nextKey d |}).

(** [event.id] of a value read from ['events'].  A value of that store is
    an [EventCacheEntry] [{destination, sid, batch}]; its key is kept out
    of line by the store, so the property is [undefined]. *)
Definition entry_id (e : EventCacheEntry) : option nat := None.

(* ===================================================================== *)
(** * session.ts *)
(* ===================================================================== *)

Module SessionIdManager.

Definition storeSessionId (sid destination : string) : M unit :=
  d <- gets db;;
  match d with
  | None => console_warn "IndexedDB not available, skipping session storage"
  | Some _ =>
      try_catch
        (request SidsTransaction ;;
         sids_put {| sd_destination := destination; sd_sid := sid; sd_gid := None |})
        (fun err => console_error "Failed to store session ID" ;; throw err)
  end.

Definition updateGid (destination : string) (gid : UUID) : M unit :=
  d <- gets db;;
  match d with
  | None => console_warn "IndexedDB not available, skipping GID update"
  | Some _ =>
      try_catch
        (sessionData <- sids_get destination;;
         match sessionData with
         | Some sd =>
             sids_put {| sd_destination := sd_destination sd; sd_sid := sd_sid sd;
                         sd_gid := Some gid |}
         | None => ret tt
         end)
        (fun err => console_error "Failed to update GID" ;; throw err)
  end.

Definition getSessionData (destination : string) : M (option SessionData) :=
  d <- gets db;;
  match d with
  | None => console_warn "IndexedDB not available" ;; ret None
  | Some _ =>
      try_catch (sids_get destination)
        (fun err => console_error "Failed to get session data" ;; ret None)
  end.

(** [sessionData?.gid]. *)
Definition getGid (destination : string) : M (option UUID) :=
  sessionData <- getSessionData destination;;
  ret (sd ← sessionData; sd_gid sd).

Definition removeDestination (destination : string) : M unit :=
  d <- gets db;;
  match d with
  | None => console_warn "IndexedDB not available, skipping destination removal"
  | Some _ =>
      try_catch (sids_delete destination)
        (fun err => console_error "Failed to remove destination" ;; throw err)
  end.

Definition clearEventsByDestination (destination : string) : M unit :=
  d <- gets db;;
  match d with
  | None => console_warn "IndexedDB not available, skipping event clearing"
  | Some _ =>
      try_catch
        (events <- events_by_destination destination;;
         request EventsTransaction ;;
         for_each events (fun event => events_delete (entry_id event)))
        (fun err => console_error "Failed to clear events by destination" ;; throw err)
  end.

End SessionIdManager.

(* ===================================================================== *)
(** * cache.ts *)
(* ===================================================================== *)

Module CacheManager.

Section WithConfig.

Variable config : Config.

Definition storeEvent (batch : Batch) : M unit :=
  if negb (cacheEnabled config) then ret tt
  else
    d <- gets db;;
    match d with
    | None => console_error "DB is not initialized"
    | Some _ =>
        try_catch
          (events_put {| ce_destination := batch_destination batch;
                         ce_sid := batch_sid batch; ce_batch := batch |})
          (fun err => console_error "Failed to store event" ;; throw err)
    end.

Definition getEventsBySid (sid : string) : M (list Batch) :=
  if negb (cacheEnabled config) then ret []
  else
    d <- gets db;;
    match d with
    | None => ret []
    | Some _ =>
        try_catch
          (entries <- events_by_sid sid;; ret (map ce_batch entries))
          (fun err => console_error "Failed to retrieve events" ;; ret [])
    end.

Definition clearAllEvents : M unit :=
  if negb (cacheEnabled config) then ret tt
  else
    d <- gets db;;
    match d with
    | None => ret tt
    | Some _ =>
        try_catch events_clear
          (fun err => console_error "Failed to clear events" ;; throw err)
    end.

End WithConfig.

End CacheManager.

(* ===================================================================== *)
(** * source.ts *)
(* ===================================================================== *)

Module SourceManager.

Definition processBufferedEvents (sid : string) : M (list Batch) :=
  bufferedEventsForDestination <- gets (fun w => bufferedEvents w !! sid);;
  match bufferedEventsForDestination with
  | None => console_log "No events found in the buffer" ;; ret []
  | Some batches =>
      modify (fun w => set_bufferedEvents (delete sid (bufferedEvents w)) w) ;;
      ret batches
  end.

Definition handleSourceChange (frame : OnSrcFrame) : M (list Batch) :=
  let newSource := src_src frame in
  activeSource <- gets (fun w => activeSources w !! src_sid frame);;
  if bool_decide (Some newSource = activeSource) then ret []
  else
    let oldSource := activeSource in
    modify (fun w => set_activeSources (<[src_sid frame := newSource]> (activeSources w)) w) ;;
    if bool_decide (newSource = 2%Z) && bool_decide (oldSource = Some 1%Z)
    then processBufferedEvents (src_sid frame)
    else ret [].

Definition bufferEvent (sid : string) (batch : Batch) : M unit :=
  modify (fun w =>
    let buffers := match bufferedEvents w !! sid with
                   | Some _ => bufferedEvents w
                   | None => <[sid := []]> (bufferedEvents w)
                   end in
    let destBuffer := default [] (buffers !! sid) in
    set_bufferedEvents (<[sid := destBuffer ++ [batch]]> buffers) w).

Definition processEventFrame (frame : EventFrame) : M bool :=
  let source := evf_src frame in
  activeSource <- gets (fun w => activeSources w !! evf_sid frame);;
  if bool_decide (Some source = activeSource) then ret true
  else bufferEvent (evf_sid frame) (evf_batch frame) ;; ret false.

End SourceManager.

(* ===================================================================== *)
(** * events.ts *)
(* ===================================================================== *)

(** Truthiness of an optional string: [undefined] and [""] are falsy. *)
Definition truthy (s : option string) : bool :=
  match s with
  | Some s => negb (String.eqb s "")
  | None => false
  end.

Module EventProcessor.

Section WithConfig.

Variable config : Config.

(** One listener is called inside [try]/[catch]. *)
Definition call_handler (data : list Payload) (dest : string) (handler : nat) : M unit :=
  modify (fun w => set_delivered (delivered w ++ [(handler, data, dest)]) w) ;;
  throws <- gets (fun w => throwing w handler);;
  if throws then console_error "Error in event handler for destination" else ret tt.

Definition dispatch (data : list Payload) (dest : string) : M unit :=
  handlers <- gets (fun w => destinationHandlers w !! dest);;
  match handlers with
  | None | Some [] => ret tt
  | Some hs => for_each hs (call_handler data dest)
  end.

(** [processEvent(batch, skipCache)].  The call of [storeEvent] is not
    awaited; its failure is caught by the [.catch] attached to it. *)
Definition processEvent (batch : Batch) (skipCache : bool) : M unit :=
  (if cacheEnabled config && negb skipCache
   then try_catch (CacheManager.storeEvent config batch)
          (fun err => console_error "Failed to cache event")
   else ret tt) ;;
  let eventData := map ev_data (batch_data batch) in
  let destination := batch_destination batch in
  if negb (String.eqb destination "")
  then dispatch eventData destination
  else console_warn "Batch destination is undefined, skipping dispatch".

Definition processEventFrame (frame : EventFrame) : M unit :=
  let batch := evf_batch frame in
  let destination := batch_destination batch in
  let latestGid := batch_gid batch in
  if String.eqb destination ""
  then console_warn "Batch destination is undefined, skipping event frame"
  else
    storedGid <- SessionIdManager.getGid destination;;
    if negb (truthy storedGid) then
      processEvent {| batch_destination := batch_destination batch;
                      batch_gid := batch_gid batch;
                      batch_data := batch_data batch;
                      batch_sid := evf_sid frame |} false ;;
      SessionIdManager.updateGid destination latestGid
    else if (0 <? length (batch_data batch))%nat then
      let filteredBatch := {| batch_destination := batch_destination batch;
                              batch_gid := batch_gid batch;
                              batch_data := batch_data batch;
                              batch_sid := evf_sid frame |} in
      processEvent filteredBatch false ;;
      SessionIdManager.updateGid destination latestGid
    else ret tt.

Definition processSourceChange (frame : OnSrcFrame) : M unit :=
  batches <- SourceManager.handleSourceChange frame;;
  for_each batches (fun batch =>
    try_catch (processEvent batch false)
      (fun err => console_error "Failed to process buffered batch")).

Definition addListener (destinations : list string) (handler : nat) : M unit :=
  for_each destinations (fun destination =>
    modify (fun w =>
      let handlers := default [] (destinationHandlers w !! destination) in
      let handlers := if existsb (Nat.eqb handler) handlers then handlers
                      else handlers ++ [handler] in
      set_destinationHandlers (<[destination := handlers]> (destinationHandlers w)) w)).

End WithConfig.

End EventProcessor.

(* ===================================================================== *)
(** * subscription.ts *)
(* ===================================================================== *)

Module SubscriptionManager.

(** [Map.prototype.set] and [delete] on the pending map: a new key goes to
    the end, an existing key keeps its place. *)
Fixpoint pending_set (cid : Z) (f : SubscribeFrame) (m : list (Z * SubscribeFrame))
  : list (Z * SubscribeFrame) :=
  match m with
  | [] => [(cid, f)]
  | (k, g) :: m' => if (k =? cid)%Z then (k, f) :: m' else (k, g) :: pending_set cid f m'
  end.

Definition pending_delete (cid : Z) (m : list (Z * SubscribeFrame))
  : list (Z * SubscribeFrame) :=
  List.filter (fun kf => negb (fst kf =? cid)%Z) m.

Section WithConfig.

Variable config : Config.

(** A call of a method of the connection, inside the engine. *)
Definition on_conn {A} (f : Connection.Conn -> Res A * Connection.Conn) : M A :=
  fun w => let '(r, c) := f (conn w) in (r, set_conn c w).

(** [Math.floor(Math.random() * 1_000_000_000)]. *)
Definition next_random : M Z :=
  fun w => (Ok (random w (randomCalls w)), set_randomCalls (S (randomCalls w)) w).

(** The body of the loop of [subscribe]. *)
Definition subscribe_one (dest : string) : M unit :=
  sessionData <- SessionIdManager.getSessionData dest;;
  cid <- next_random;;
  let subscribeFrame := {| sub_destination := dest;
                           sub_sid := sd_sid <$> sessionData;
                           sub_gid := sd ← sessionData; sd_gid sd;
                           sub_cid := cid;
                           sub_cache := Some CacheStart |} in
  modify (fun w => set_pendingSubscriptions
                     (pending_set cid subscribeFrame (pendingSubscriptions w)) w) ;;
  on_conn (Connection.sendFrame (FSubscribe subscribeFrame)).

(** [subscribe(destinations)]; [attempt] tells how the attempt to open
    the connection ends, should the method start one and wait for it. *)
Definition subscribe (attempt : Connection.Attempt) (destinations : list string) : M unit :=
  isOpen <- gets (fun w => Connection.isOpen (conn w));;
  (if negb isOpen then on_conn (Connection.open_await config attempt) else ret tt) ;;
  for_each destinations subscribe_one.

(** The body of the loop with what reaches the connection while it waits
    at [await this.sessionManager.getSessionData(dest)]: the read is a
    request to IndexedDB, answered in a later task, so calls of other
    callers, socket events and timers ([meanwhile]) can run before the
    loop goes on.  (Without a database [getSessionData] returns without a
    request and only microtasks can run there.)  What follows the read is
    synchronous. *)
Definition subscribe_one_meanwhile (meanwhile : list Connection.ConnEvent) (dest : string)
  : M unit :=
  sessionData <- SessionIdManager.getSessionData dest;;
  modify (fun w => set_conn (Connection.run config (conn w) meanwhile) w) ;;
  cid <- next_random;;
  let subscribeFrame := {| sub_destination := dest;
                           sub_sid := sd_sid <$> sessionData;
                           sub_gid := sd ← sessionData; sd_gid sd;
                           sub_cid := cid;
                           sub_cache := Some CacheStart |} in
  modify (fun w => set_pendingSubscriptions
                     (pending_set cid subscribeFrame (pendingSubscriptions w)) w) ;;
  on_conn (Connection.sendFrame (FSubscribe subscribeFrame)).

(** The loop, [meanwhile] giving what happens during the read of each
    turn (nothing, for the turns past its end). *)
Fixpoint subscribe_loop_meanwhile (meanwhile : list (list Connection.ConnEvent))
    (destinations : list string) : M unit :=
  match destinations with
  | [] => ret tt
  | dest :: destinations' =>
      subscribe_one_meanwhile (hd [] meanwhile) dest ;;
      subscribe_loop_meanwhile (tl meanwhile) destinations'
  end.

(** [subscribe(destinations)] with what happens to the connection during
    the reads of its loop. *)
Definition subscribe_meanwhile (attempt : Connection.Attempt)
    (meanwhile : list (list Connection.ConnEvent)) (destinations : list string) : M unit :=
  isOpen <- gets (fun w => Connection.isOpen (conn w));;
  (if negb isOpen then on_conn (Connection.open_await config attempt) else ret tt) ;;
  subscribe_loop_meanwhile meanwhile destinations.

Definition handleSubAck (frame : SubAckFrame) : M unit :=
  pending <- gets pendingSubscriptions;;
  let matched := head pending in
  match matched with
  | Some (matchedCid, matchedFrame) =>
      if negb (matchedCid =? 0)%Z then
        let originalSid := sub_sid matchedFrame in
        let newSid := ack_sid frame in
        (if negb (truthy originalSid) then
           SessionIdManager.storeSessionId newSid (sub_destination matchedFrame)
         else if truthy originalSid && negb (bool_decide (originalSid = Some newSid)) then
           console_log "Session ID changed for destination" ;;
           try_catch
             (SessionIdManager.clearEventsByDestination (sub_destination matchedFrame) ;;
              SessionIdManager.removeDestination (sub_destination matchedFrame) ;;
              SessionIdManager.storeSessionId newSid (sub_destination matchedFrame) ;;
              console_log "Cleared stale data for destination")
             (fun error => console_error "Failed to clear stale data:")
         else
           batches <- CacheManager.getEventsBySid config (ack_sid frame);;
           for_each batches (fun batch => EventProcessor.processEvent config batch true)) ;;
        modify (fun w => set_pendingSubscriptions
                           (pending_delete matchedCid (pendingSubscriptions w)) w)
      else
        console_warn "Received subscription acknowledgment for unknown subscription"
  | None =>
      console_warn "Received subscription acknowledgment for unknown subscription"
  end.

(** The frame handler registered with the connection by the constructor. *)
Definition onFrame (frame : Frame) : M unit :=
  match frame with
  | FSubAck f => handleSubAck f
  | FOnSrc f => EventProcessor.processSourceChange config f
  | FEvent f => EventProcessor.processEventFrame config f
  | _ => ret tt
  end.

End WithConfig.

End SubscriptionManager.

(* ===================================================================== *)
(** * index.ts: the engine as wired by the facade *)
(* ===================================================================== *)

Definition emptyDb : Db := {| sids := ∅; events := []; nextKey := 0 |}.

(** The state after [initialize]: an empty database, no listeners, a
    closed connection.  [rnd] fixes the values [Math.random] will take. *)
Definition initialize (config : Config) (rnd : nat -> Z) : World :=
  {| db := Some emptyDb; failing := fun _ => false; console := [];
     activeSources := ∅; bufferedEvents := ∅; destinationHandlers := ∅;
     throwing := fun _ => false; delivered := [];
     pendingSubscriptions := []; conn := Connection.init config;
     random := rnd; randomCalls := 0 |}.

(** The configuration when no option is given. *)
Definition noOptions : SessionOptions :=
  {| opt_url := None; opt_reconnectTimeout := None; opt_maxReconnectTimeout := None;
     opt_shouldReconnect := None; opt_cacheEnabled := None; opt_cacheDbName := None;
     opt_dedupWindow := None; opt_cacheMode := None |}.

Definition defaultConfig : Config := mkConfig noOptions.

(** Runs a computation of the engine for its final world. *)
Definition exec {A} (m : M A) (w : World) : World := snd (m w).

(* ===================================================================== *)
(** * connection.ts, continued: incoming messages and produce *)
(* ===================================================================== *)

Module Transport.

(** [produce(destination, data)], waiting for the nested [open] to settle
    when it starts an attempt ([attempt] tells how that attempt ends). *)
Definition produce (config : Config) (attempt : Connection.Attempt)
    (destination data : string) (c : Connection.Conn) : Res unit * Connection.Conn :=
  if negb (Connection.state_eqb (Connection.state c) Connection.OPEN) then
    match Connection.open_await config attempt c with
    | (Ok _, c') => Connection.produce_resume destination data c'
    | (Throw e, c') => (Throw e, c')
    end
  else Connection.produce_resume destination data c.

Section WithHandlers.

(** What the registered frame handlers do, a handler standing by its
    identity. *)
Variable handlers : nat -> Frame -> M unit.

(** [handleFrame]: every registered handler is called with the frame, in
    registration order.  A handler is an [async] function: when it fails,
    that is a rejected promise nobody waits for, so the failure neither
    reaches the [catch] around the call nor stops the next handler. *)
Definition handleFrame (frame : Frame) : M unit :=
  registered <- gets (fun w => Connection.frameHandlers (conn w));;
  for_each registered (fun handler =>
    try_catch (handlers handler frame) (fun err => ret tt)).

(** [ws.onmessage] of socket [n], installed by [setupEventHandlers] and
    never removed.  [data] is what [JSON.parse] makes of the message:
    [None] when it throws. *)
Definition onmessage (n : nat) (data : option Frame) : M unit :=
  phase <- gets (fun w => Connection.sockets (conn w) !! n);;
  match phase with
  | Some Connection.Established =>
      match data with
      | Some frame => handleFrame frame
      | None =>
          modify (fun w =>
            set_conn (Connection.handleError INVALID_FRAME "Failed to parse frame" (conn w)) w)
      end
  | _ => ret tt
  end.

End WithHandlers.

(** The one frame handler this code registers: the one of the
    [SubscriptionManager]. *)
Definition subscriptionHandler : nat := 0.

Definition frameHandler (config : Config) (handler : nat) (frame : Frame) : M unit :=
  if Nat.eqb handler subscriptionHandler
  then SubscriptionManager.onFrame config frame
  else ret tt.

(** The registration in the constructor of the [SubscriptionManager]. *)
Definition register : World -> World :=
  fun w => set_conn (Connection.addFrameHandler subscriptionHandler (conn w)) w.

(** Calls and transport events reaching the connection of the engine. *)
Definition connection_events (config : Config) (es : list Connection.ConnEvent)
    (w : World) : World :=
  set_conn (Connection.run config (conn w) es) w.

End Transport.

(* ===================================================================== *)
(** * publish.ts *)
(* ===================================================================== *)

Module Publisher.

Section WithConfig.

Variable config : Config.

(** The text of an error that comes from outside the engine (what the
    credential callback rejected with, an exception of the store). *)
Variable foreign : Exn -> string.

(** [error instanceof Error ? error.message : String(error)]. *)
Definition describe (e : Exn) : string :=
  match e with
  | Error message => message
  | TransportError => "[object Event]"
  | _ => foreign e
  end.

(** [publish(destination, data)]; [attempt] tells how the attempt to open
    the connection ends, should the method start one. *)
Definition publish (attempt : Connection.Attempt) (destination data : string)
    (c : Connection.Conn) : Res unit * Connection.Conn :=
  let body :=
    match (if negb (Connection.isOpen c)
           then Connection.open_await config attempt c
           else (Ok tt, c)) with
    | (Ok _, c1) => Transport.produce config attempt destination data c1
    | (Throw e, c1) => (Throw e, c1)
    end in
  match body with
  | (Ok _, c2) => (Ok tt, c2)
  | (Throw e, c2) =>
      (Throw e,
       Connection.handleError PRODUCTION_ERROR
         ("Failed to publish to " ++ destination ++ ": " ++ describe e) c2)
  end.

Definition isReady (c : Connection.Conn) : bool := Connection.isOpen c.

End WithConfig.

End Publisher.

(* ===================================================================== *)
(** * Notions used in the statements *)
(* ===================================================================== *)

(** ** The connection *)

(** What the reconnect path maintains: the backoff delay and every delay
    handed to [setTimeout] stay below the ceiling, and every timer carries
    [min(1.5 * delay, ceiling)] as the next backoff delay. *)
Definition timer_ok (config : Config) (t : Connection.Timer) : Prop :=
  (Connection.timer_delay t <= maxReconnectTimeout config)%Q /\
  Connection.timer_wait t
  = Qmin (Connection.timer_delay t * (3 # 2)) (maxReconnectTimeout config).

Definition bounded (config : Config) (c : Connection.Conn) : Prop :=
  (Connection.reconnectMs c <= maxReconnectTimeout config)%Q /\
  Forall (timer_ok config) (Connection.timers c).

(** What can run between [await this.open()] coming back at once and the
    rest of [produce]: only jobs of the microtask queue, that is other
    callers' method calls and the settlement of the credential callback.
    Socket events and timers are tasks of their own. *)
Inductive microtask : Connection.ConnEvent -> Prop :=
| micro_open : microtask Connection.CallOpen
| micro_close code reason : microtask (Connection.CallClose code reason)
| micro_send frame : microtask (Connection.CallSendFrame frame)
| micro_jwt_resolved : microtask Connection.JwtResolved
| micro_jwt_rejected : microtask Connection.JwtRejected.

(** ** Computations of the engine *)

(** A computation keeps a component of the world: whatever its result,
    the component is the same afterwards. *)
Definition keeps {A B} (proj : World -> B) (m : M A) : Prop :=
  forall w, proj (snd (m w)) = proj w.

(** A computation does not throw. *)
Definition total {A} (m : M A) : Prop :=
  forall w, exists a, fst (m w) = Ok a.

(** The computation throws in this world. *)
Definition throws {A} (m : M A) (w : World) : Prop :=
  exists e, fst (m w) = Throw e.

(** A component of the world that neither the database nor the console
    is part of. *)
Definition beside_store {B} (proj : World -> B) : Prop :=
  (forall f w, proj (set_db (f <$> db w) w) = proj w) /\
  (forall x w, proj (set_console x w) = proj w).

(** Whether the database handle is missing. *)
Definition db_missing (w : World) : bool :=
  match db w with
  | None => true
  | Some _ => false
  end.

(** A component of the world that the database, the console and the
    record of deliveries are not part of. *)
Definition beside_delivery {B} (proj : World -> B) : Prop :=
  beside_store proj /\ (forall x w, proj (set_delivered x w) = proj w).

(** The session records of the store. *)
Definition db_sids (w : World) : option (gmap string SessionData) := sids <$> db w.

(** ** Acknowledgment handling *)

(** The three mutations of the session-reset branch, in the order of the
    source, and what [handleSubAck] does around them. *)
Definition reset_block (newSid destination : string) : M unit :=
  SessionIdManager.clearEventsByDestination destination ;;
  SessionIdManager.removeDestination destination ;;
  SessionIdManager.storeSessionId newSid destination ;;
  console_log "Cleared stale data for destination".

Definition reset_branch (newSid destination : string) : M unit :=
  console_log "Session ID changed for destination" ;;
  try_catch (reset_block newSid destination)
    (fun error => console_error "Failed to clear stale data:").

(** What [handleSubAck] runs before it removes the pending entry. *)
Definition ack_branch (config : Config) (ack : SubAckFrame) (matchedFrame : SubscribeFrame)
  : M unit :=
  let originalSid := sub_sid matchedFrame in
  let newSid := ack_sid ack in
  if negb (truthy originalSid) then
    SessionIdManager.storeSessionId newSid (sub_destination matchedFrame)
  else if truthy originalSid && negb (bool_decide (originalSid = Some newSid)) then
    reset_branch newSid (sub_destination matchedFrame)
  else
    batches <- CacheManager.getEventsBySid config (ack_sid ack);;
    for_each batches (fun batch => EventProcessor.processEvent config batch true).

Definition unknown_subscription : Level * string :=
  (WARN, "Received subscription acknowledgment for unknown subscription").

(** ** Delivery and replay *)

(** The listeners registered for a destination, in registration order. *)
Definition listeners (w : World) (dest : string) : list nat :=
  default [] (destinationHandlers w !! dest).

(** The calls of listeners that delivering a batch amounts to: every
    listener of the destination of the batch is called once, with the
    payloads of all the events of the batch, in the order of the batch. *)
Definition deliveries (w : World) (batch : Batch) : list (nat * list Payload * string) :=
  if String.eqb (batch_destination batch) "" then []
  else map (fun h => (h, map ev_data (batch_data batch), batch_destination batch))
           (listeners w (batch_destination batch)).

(** The batches of the cache entries stored under a sid, in the order in
    which the entries were put into the store. *)
Definition entriesBySid (d : Db) (sid : string) : list Batch :=
  map ce_batch (map snd (List.filter (fun ke => String.eqb (ce_sid (snd ke)) sid) (events d))).

(** What the replay cache answers for a sid: the entries stored under it
    when caching is configured, the database is at hand and the read goes
    through; nothing otherwise. *)
Definition cached (config : Config) (w : World) (sid : string) : list Batch :=
  if cacheEnabled config then
    match db w with
    | Some d => if failing w EventsBySid then [] else entriesBySid d sid
    | None => []
    end
  else [].

(** A frame handed to a socket is a subscribe frame for [destination]
    whose [cache] field is ['start']. *)
Definition subscribe_start (destination : string) (nf : nat * Frame) : Prop :=
  exists sf, snd nf = FSubscribe sf /\
             sub_destination sf = destination /\
             sub_cache sf = Some CacheStart.

(** The frames that arrive, handled one after the other. *)
Fixpoint handle_frames (config : Config) (frames : list Frame) (w : World) : World :=
  match frames with
  | [] => w
  | frame :: frames' =>
      handle_frames config frames' (snd (SubscriptionManager.onFrame config frame w))
  end.

(** ** Worlds used as examples *)

(** A record for "orders" that holds "s1" and a pending subscription
    sent with that sid; [fails] tells which requests of the store fail. *)
Definition staleWorld (fails : Request -> bool) : World :=
  {| db := Some {| sids := {[ "orders" := {| sd_destination := "orders";
                                              sd_sid := "s1"; sd_gid := Some "g1" |} ]};
                   events := []; nextKey := 0 |};
     failing := fails; console := [];
     activeSources := ∅; bufferedEvents := ∅; destinationHandlers := ∅;
     throwing := fun _ => false; delivered := [];
     pendingSubscriptions :=
       [(7%Z, {| sub_destination := "orders"; sub_cid := 7; sub_sid := Some "s1";
                 sub_gid := Some "g1"; sub_cache := Some CacheStart |})];
     conn := Connection.init defaultConfig;
     random := fun _ => 1%Z; randomCalls := 0 |}.

Definition failsOn (r : Request) : Request -> bool :=
  fun r' => match r, r' with
            | SidsDelete, SidsDelete | SidsPut, SidsPut
            | SidsTransaction, SidsTransaction => true
            | _, _ => false
            end.

(** A session confirmed with two cached batches and two listeners. *)
Definition confirmedWorld : World :=
  let b1 := {| batch_destination := "orders"; batch_gid := "g1";
               batch_data := [{| ev_gid := "g1"; ev_data := "a" |}]; batch_sid := "s1" |} in
  let b2 := {| batch_destination := "orders"; batch_gid := "g3";
               batch_data := [{| ev_gid := "g2"; ev_data := "b" |};
                              {| ev_gid := "g3"; ev_data := "c" |}]; batch_sid := "s1" |} in
  let b3 := {| batch_destination := "trades"; batch_gid := "h1";
               batch_data := [{| ev_gid := "h1"; ev_data := "t" |}]; batch_sid := "s9" |} in
  {| db := Some {| sids := {[ "orders" := {| sd_destination := "orders";
                                              sd_sid := "s1"; sd_gid := Some "g3" |} ]};
                   events := [(0, {| ce_destination := "orders"; ce_sid := "s1"; ce_batch := b1 |});
                              (1, {| ce_destination := "trades"; ce_sid := "s9"; ce_batch := b3 |});
                              (2, {| ce_destination := "orders"; ce_sid := "s1"; ce_batch := b2 |})];
                   nextKey := 3 |};
     failing := fun _ => false; console := [];
     activeSources := ∅; bufferedEvents := ∅;
     destinationHandlers := {[ "orders" := [7; 8] ]};
     throwing := fun h => Nat.eqb h 7; delivered := [];
     pendingSubscriptions :=
       [(5%Z, {| sub_destination := "orders"; sub_cid := 5; sub_sid := Some "s1";
                 sub_gid := Some "g3"; sub_cache := Some CacheStart |})];
     conn := Connection.init defaultConfig;
     random := fun _ => 1%Z; randomCalls := 0 |}.

(** A record for "orders" without cursor, one listener. *)
Definition ordersRecord : SessionData :=
  {| sd_destination := "orders"; sd_sid := "s1"; sd_gid := None |}.

Definition subscribedDb : Db :=
  {| sids := {[ "orders" := ordersRecord ]}; events := []; nextKey := 0 |}.

Definition subscribedWorld : World :=
  {| db := Some subscribedDb;
     failing := fun _ => false; console := [];
     activeSources := ∅; bufferedEvents := ∅;
     destinationHandlers := {[ "orders" := [7] ]};
     throwing := fun _ => false; delivered := [];
     pendingSubscriptions := [];
     conn := Connection.init defaultConfig;
     random := fun _ => 1%Z; randomCalls := 0 |}.

Definition firstFrame : EventFrame :=
  {| evf_src := 1;
     evf_batch := {| batch_destination := "orders"; batch_gid := "g2";
                     batch_data := [{| ev_gid := "g1"; ev_data := "a" |};
                                    {| ev_gid := "g2"; ev_data := "b" |}];
                     batch_sid := "s1" |};
     evf_sid := "s1" |}.

(** ** Further notions *)

(** The socket the connection holds is one on which
    [setupEventHandlers] has run. *)
Definition open_on_established (c : Connection.Conn) : Prop :=
  Connection.state c = Connection.OPEN ->
  exists n, Connection.ws c = Some n /\
            Connection.sockets c !! n = Some Connection.Established.

(** The configuration with [shouldReconnect: false]. *)
Definition noReconnectConfig : Config :=
  mkConfig {| opt_url := None; opt_reconnectTimeout := None;
              opt_maxReconnectTimeout := None; opt_shouldReconnect := Some false;
              opt_cacheEnabled := None; opt_cacheDbName := None;
              opt_dedupWindow := None; opt_cacheMode := None |}.

(** The configuration with [cacheEnabled: false]. *)
Definition noCacheConfig : Config :=
  mkConfig {| opt_url := None; opt_reconnectTimeout := None;
              opt_maxReconnectTimeout := None; opt_shouldReconnect := None;
              opt_cacheEnabled := Some false; opt_cacheDbName := None;
              opt_dedupWindow := None; opt_cacheMode := None |}.

(** A component of the world that no handler of an incoming frame
    writes: beside the database, the console and the deliveries, it is
    beside the maps of the source manager and the pending map. *)
Definition beside_frames {B} (proj : World -> B) : Prop :=
  beside_delivery proj /\
  (forall x w, proj (set_activeSources x w) = proj w) /\
  (forall x w, proj (set_bufferedEvents x w) = proj w) /\
  (forall x w, proj (set_pendingSubscriptions x w) = proj w).

(** Adding to a [Set] of listeners: a listener already in it is not
    added again, a new one goes to the end. *)
Definition add_listener (handler : nat) (registered : list nat) : list nat :=
  if existsb (Nat.eqb handler) registered then registered else registered ++ [handler].

(** The batch of an event frame as the event processor hands it on: with
    the sid of the frame. *)
Definition stamped (frame : EventFrame) : Batch :=
  {| batch_destination := batch_destination (evf_batch frame);
     batch_gid := batch_gid (evf_batch frame);
     batch_data := batch_data (evf_batch frame);
     batch_sid := evf_sid frame |}.

(** The frame [produce] builds. *)
Definition publishFrame (destination data : string) : Frame :=
  FPublish {| pub_destination := destination; pub_data := data |}.

(** An engine whose connection is open on socket 0, with the frame
    handler of the subscription manager registered. *)
Definition openWorld (config : Config) (rnd : nat -> Z) : World :=
  Transport.connection_events config
    [Connection.CallOpen; Connection.JwtResolved; Connection.WsOpen 0]
    (Transport.register (initialize config rnd)).

(** The world of [subscribedWorld] when IndexedDB is not available. *)
Definition offlineWorld : World := set_db None subscribedWorld.

(** Event frames handed to the source manager one after the other. *)
Definition hold_all (frames : list EventFrame) : M unit :=
  for_each frames (fun frame => _ <- SourceManager.processEventFrame frame;; ret tt).

(** The subscribe frame for [destination] that resumes from the records
    of [d], handed to socket [n]: it carries the stored sid and cursor,
    or neither when the destination has no record. *)
Definition resumes (d : Db) (n : nat) (destination : string) (nf : nat * Frame) : Prop :=
  exists cid,
    nf = (n, FSubscribe {| sub_destination := destination; sub_cid := cid;
                           sub_sid := sd_sid <$> sids d !! destination;
                           sub_gid := sd ← sids d !! destination; sd_gid sd;
                           sub_cache := Some CacheStart |}).

(** The correlation id of a subscribe frame that went out is a key of
    the pending map. *)
Definition is_pending (w : World) (nf : nat * Frame) : Prop :=
  match snd nf with
  | FSubscribe sf => In (sub_cid sf) (map fst (pendingSubscriptions w))
  | _ => False
  end.

(** A world whose connection is open on socket 0 and whose store holds
    the record of [subscribedWorld]. *)
Definition resumingWorld : World :=
  set_db (Some {| sids := {[ "orders" := {| sd_destination := "orders";
                                             sd_sid := "s1"; sd_gid := Some "g1" |} ]};
                  events := []; nextKey := 0 |})
    (openWorld defaultConfig (fun n => (Z.of_nat n + 1)%Z)).

(** A first subscription waiting for its acknowledgment; [fails] tells
    which requests of the store fail. *)
Definition firstAckWorld (fails : Request -> bool) : World :=
  {| db := Some emptyDb; failing := fails; console := [];
     activeSources := ∅; bufferedEvents := ∅; destinationHandlers := ∅;
     throwing := fun _ => false; delivered := [];
     pendingSubscriptions :=
       [(7%Z, {| sub_destination := "orders"; sub_cid := 7; sub_sid := None;
                 sub_gid := None; sub_cache := Some CacheStart |})];
     conn := Connection.init defaultConfig;
     random := fun _ => 1%Z; randomCalls := 0 |}.

(** Source 1 is active for "s1". *)
Definition primaryWorld : World :=
  set_activeSources {[ "s1" := 1%Z ]} (initialize defaultConfig (fun _ => 1%Z)).


(** One listener of "orders" and an empty store. *)
Definition listeningWorld : World :=
  exec (EventProcessor.addListener ["orders"] 7) (initialize defaultConfig (fun _ => 1%Z)).

(* ===================================================================== *)
(** * Properties of the connection *)
(* ===================================================================== *)

Module ConnectionProps.

Import Connection.

Section Backoff.

Variable config : Config.

Hypothesis ordered : (reconnectTimeout config <= maxReconnectTimeout config)%Q.

Lemma bounded_init : bounded config (init config).
Proof. split; [exact ordered | constructor]. Qed.

Lemma bounded_open_call c : bounded config c -> bounded config (snd (open_call c)).
Proof.
  unfold open_call. destruct (state_eqb (state c) OPEN || state_eqb (state c) CONNECTING);
    intros H; exact H.
Qed.

Lemma bounded_handleClose code c : bounded config c -> bounded config (handleClose config code c).
Proof.
  intros [Hms Hts]. unfold handleClose.
  destruct ((code =? 1000)%Z || negb (shouldReconnect config)); simpl.
  - split; assumption.
  - split; [assumption |].
    apply Forall_app; split; [assumption |].
    constructor; [| constructor]. split; simpl; [assumption | reflexivity].
Qed.

Lemma timer_ok_wait t : timer_ok config t -> (timer_wait t <= maxReconnectTimeout config)%Q.
Proof. intros [_ ->]. apply Q.le_min_r. Qed.

Lemma bounded_step c e : bounded config c -> bounded config (step config c e).
Proof.
  intros Hb. destruct e; simpl.
  - apply bounded_open_call, Hb.
  - unfold close. destruct (state_eqb (state c) CLOSED); [exact Hb |].
    simpl. destruct (ws c); [destruct (ws_close_check code reason) |]; exact Hb.
  - unfold sendFrame. destruct (state_eqb (state c) OPEN), (ws c); exact Hb.
  - unfold open_jwt_resolved. destruct (jwtWaiters c); exact Hb.
  - unfold open_jwt_rejected. destruct (jwtWaiters c); exact Hb.
  - unfold ws_onopen. destruct (sockets c !! n) as [[]|]; try exact Hb.
    destruct Hb as [_ Hts]. split; [exact ordered | exact Hts].
  - unfold ws_onerror. destruct (sockets c !! n) as [[]|]; exact Hb.
  - unfold ws_onclose. destruct (sockets c !! n) as [[]|]; try exact Hb.
    apply bounded_handleClose. exact Hb.
  - unfold connect_timeout. destruct (sockets c !! n) as [[]|]; exact Hb.
  - unfold timer_fire. destruct (timers c !! k) as [[d wait []]|] eqn:Hk; try exact Hb.
    apply bounded_open_call. destruct Hb as [Hms Hts].
    assert (Hok : timer_ok config {| timer_delay := d; timer_wait := wait; timer_fired := false |}).
    { eapply Forall_lookup_1; eassumption. }
    split; simpl.
    + exact (timer_ok_wait _ Hok).
    + apply Forall_insert; [exact Hts |]. exact Hok.
Qed.

Lemma bounded_run es : forall c, bounded config c -> bounded config (run config c es).
Proof.
  induction es as [| e es IH]; intros c Hb; simpl; [exact Hb |].
  apply IH, bounded_step, Hb.
Qed.

(** An unsolicited close with reconnection enabled sets one timer, after
    the current backoff delay, and leaves the backoff delay as it is. *)
Lemma unsolicited_close c n code :
  sockets c !! n = Some Established ->
  code <> 1000%Z ->
  shouldReconnect config = true ->
  let c' := step config c (WsClose n code) in
  scheduled c' = scheduled c ++ [reconnectMs c] /\
  reconnectMs c' = reconnectMs c /\
  timers c' !! length (timers c) =
    Some {| timer_delay := reconnectMs c;
            timer_wait := Qmin (reconnectMs c * (3 # 2)) (maxReconnectTimeout config);
            timer_fired := false |}.
Proof.
  intros Hn Hcode Hre. simpl. unfold ws_onclose. rewrite Hn.
  unfold handleClose. rewrite Hre. simpl.
  destruct (Z.eqb_spec code 1000) as [-> | _]; [congruence |]. simpl.
  unfold scheduled. simpl. rewrite map_app. repeat split.
  apply list_lookup_middle. reflexivity.
Qed.

(** (C3, amended) Backoff bound.  When the configured initial delay does
    not exceed the configured ceiling, then along every sequence of calls
    and transport events: every delay handed to [setTimeout] by the
    reconnect path is at most [maxReconnectTimeout]; an unsolicited close
    with reconnection enabled sets its timer with the current backoff
    delay [d] and leaves that delay as it is; the timer, once it fires,
    makes the backoff delay [min(1.5 * d, maxReconnectTimeout)]; and right
    after a successful open the backoff delay is [reconnectTimeout]
    again. *)
Theorem backoff_bound (es : list ConnEvent) :
  let c := run config (init config) es in
  Forall (fun d => (d <= maxReconnectTimeout config)%Q) (scheduled c)
  /\ (forall n code, sockets c !! n = Some Established -> code <> 1000%Z ->
        shouldReconnect config = true ->
        scheduled (step config c (WsClose n code)) = scheduled c ++ [reconnectMs c] /\
        reconnectMs (step config c (WsClose n code)) = reconnectMs c)
  /\ (forall k t, timers c !! k = Some t -> timer_fired t = false ->
        reconnectMs (step config c (TimerFired k))
        = Qmin (timer_delay t * (3 # 2)) (maxReconnectTimeout config))
  /\ (forall n, sockets c !! n = Some Opening ->
        state (step config c (WsOpen n)) = OPEN /\
        reconnectMs (step config c (WsOpen n)) = reconnectTimeout config).
Proof.
  intros c.
  assert (Hb : bounded config c) by (apply bounded_run, bounded_init).
  destruct Hb as [_ Hts]. split; [| split; [| split]].
  - unfold scheduled. apply Forall_map.
    eapply Forall_impl; [exact Hts |]. intros t [Hd _]. exact Hd.
  - intros n code Hn Hcode Hre.
    destruct (unsolicited_close c n code Hn Hcode Hre) as (Hs & Hms & _).
    split; assumption.
  - intros k [d wait fired] Hk Hf. simpl in Hf. subst fired.
    simpl. unfold timer_fire. rewrite Hk.
    assert (Hok : timer_ok config {| timer_delay := d; timer_wait := wait; timer_fired := false |}).
    { eapply Forall_lookup_1; eassumption. }
    destruct Hok as [_ Hw]. simpl in Hw. subst wait.
    unfold open_call. simpl.
    destruct (state_eqb (state c) OPEN || state_eqb (state c) CONNECTING); reflexivity.
  - intros n Hn. simpl. unfold ws_onopen. rewrite Hn. split; reflexivity.
Qed.

End Backoff.

(** The bound at the default configuration, after a first connection was
    lost and a reconnect timer is pending. *)
Lemma backoff_bound_witness :
  let c := run defaultConfig (init defaultConfig)
             [CallOpen; JwtResolved; WsOpen 0; WsClose 0 1006%Z] in
  Forall (fun d => (d <= maxReconnectTimeout defaultConfig)%Q) (scheduled c)
  /\ (forall n code, sockets c !! n = Some Established -> code <> 1000%Z ->
        shouldReconnect defaultConfig = true ->
        scheduled (step defaultConfig c (WsClose n code)) = scheduled c ++ [reconnectMs c] /\
        reconnectMs (step defaultConfig c (WsClose n code)) = reconnectMs c)
  /\ (forall k t, timers c !! k = Some t -> timer_fired t = false ->
        reconnectMs (step defaultConfig c (TimerFired k))
        = Qmin (timer_delay t * (3 # 2)) (maxReconnectTimeout defaultConfig))
  /\ (forall n, sockets c !! n = Some Opening ->
        state (step defaultConfig c (WsOpen n)) = OPEN /\
        reconnectMs (step defaultConfig c (WsOpen n)) = reconnectTimeout defaultConfig).
Proof.
  apply (backoff_bound defaultConfig).
  unfold Qle. simpl. lia.
Defined.

(** (C3, as stated) The bound fails when the initial delay is configured
    above the ceiling: with [reconnectTimeout: 20000] and the default
    ceiling of 10000, the first reconnect is scheduled after 20000 ms. *)
Lemma backoff_exceeds_ceiling :
  let config := mkConfig {| opt_url := None; opt_reconnectTimeout := Some 20000%Q;
                            opt_maxReconnectTimeout := None; opt_shouldReconnect := None;
                            opt_cacheEnabled := None; opt_cacheDbName := None;
                            opt_dedupWindow := None; opt_cacheMode := None |} in
  let c := run config (init config) [CallOpen; JwtResolved; WsOpen 0; WsClose 0 1006%Z] in
  scheduled c = [20000%Q] /\
  ~ Forall (fun d => (d <= maxReconnectTimeout config)%Q) (scheduled c).
Proof.
  split; [vm_compute; reflexivity |].
  intros H. vm_compute in H. inversion H as [| d ds Hd _]. apply Hd. reflexivity.
Qed.

(** (C7) A reconnect after [close].  At the default configuration:
    - [close(1000, "bye")] on an open connection, then the transport
      reporting an abnormal closure (code 1006) of the socket, sets a
      reconnect timer, and when that timer fires [open] starts a new
      attempt;
    - a reconnect timer already pending when [close(1000, "bye")] is
      called still fires and starts a new attempt. *)
Theorem close_does_not_stop_reconnect :
  let config := defaultConfig in
  let opened := run config (init config) [CallOpen; JwtResolved; WsOpen 0] in
  let closed := step config opened (CallClose 1000%Z "bye") in
  let dropped := step config closed (WsClose 0 1006%Z) in
  let lost := step config opened (WsClose 0 1006%Z) in
  let closed' := step config lost (CallClose 1000%Z "bye") in
  (state opened = OPEN /\ state closed = CLOSED /\ scheduled closed = [] /\
   scheduled dropped = [1000%Q] /\
   state (step config dropped (TimerFired 0)) = CONNECTING /\
   jwtWaiters (step config dropped (TimerFired 0)) = 1)
  /\
  (scheduled lost = [1000%Q] /\ closed' = lost /\
   state (step config closed' (TimerFired 0)) = CONNECTING /\
   jwtWaiters (step config closed' (TimerFired 0)) = 1).
Proof. vm_compute. repeat split. Qed.

Section Produce.

Variable config : Config.

Lemma microtask_keeps_not_open c e :
  microtask e -> state c <> OPEN ->
  state (step config c e) <> OPEN /\ sent (step config c e) = sent c.
Proof.
  intros He Hst. destruct He; simpl.
  - unfold open_call. destruct (state c) eqn:E; simpl; rewrite ?E; split; congruence.
  - unfold close. destruct (state c) eqn:E; simpl; rewrite ?E; try (split; congruence);
      (destruct (ws c); [destruct (ws_close_check code reason) |]); simpl; split; congruence.
  - unfold sendFrame. destruct (state c) eqn:E; simpl; rewrite ?E; split; congruence.
  - unfold open_jwt_resolved. destruct (jwtWaiters c); simpl; split; congruence.
  - unfold open_jwt_rejected. destruct (jwtWaiters c); simpl; split; congruence.
Qed.

Lemma microtasks_keep_not_open es : forall c,
  Forall microtask es -> state c <> OPEN ->
  state (run config c es) <> OPEN /\ sent (run config c es) = sent c.
Proof.
  induction es as [| e es IH]; intros c Hes Hst; simpl; [split; [exact Hst | reflexivity] |].
  inversion Hes as [| ? ? He Hes']; subst.
  destruct (microtask_keeps_not_open c e He Hst) as [Hst' Hsent'].
  destruct (IH (step config c e) Hes' Hst') as [Hst'' Hsent''].
  split; [exact Hst'' | congruence].
Qed.

(** (C10) [produce] while an attempt to open is in flight.  In state
    CONNECTING the nested [open] returns at once and changes nothing;
    whatever microtasks run before [produce] goes on, [sendFrame] then
    throws "WebSocket not open", and nothing has been handed to a socket. *)
Theorem produce_while_connecting (c : Conn) (destination data : string)
    (es : list ConnEvent) :
  state c = CONNECTING ->
  Forall microtask es ->
  produce_call c = (Some Returned, c) /\
  produce_resume destination data (run config c es)
    = (Throw (Error "WebSocket not open"), run config c es) /\
  sent (run config c es) = sent c.
Proof.
  intros Hst Hes. split; [| split].
  - unfold produce_call, open_call. rewrite Hst. reflexivity.
  - assert (Hno : state c <> OPEN) by (rewrite Hst; discriminate).
    destruct (microtasks_keep_not_open es c Hes Hno) as [Hst' _].
    unfold produce_resume, sendFrame.
    destruct (state (run config c es)); try reflexivity. congruence.
  - apply microtasks_keep_not_open; [exact Hes |]. rewrite Hst. discriminate.
Qed.

End Produce.

(** The first attempt is waiting for its credential when [produce] is
    called; the credential arrives before [produce] goes on. *)
Lemma produce_while_connecting_witness :
  let c := step defaultConfig (init defaultConfig) CallOpen in
  produce_call c = (Some Returned, c) /\
  produce_resume "orders" "x" (run defaultConfig c [JwtResolved])
    = (Throw (Error "WebSocket not open"), run defaultConfig c [JwtResolved]) /\
  sent (run defaultConfig c [JwtResolved]) = sent c.
Proof.
  apply (produce_while_connecting defaultConfig).
  - reflexivity.
  - repeat constructor.
Defined.

End ConnectionProps.

(* ===================================================================== *)
(** * Reasoning about computations of the engine *)
(* ===================================================================== *)

Module Frame.

Section Keeps.

Context {B : Type} (proj : World -> B).

Lemma keeps_ret {A} (a : A) : keeps proj (ret a).
Proof. intros w. reflexivity. Qed.

Lemma keeps_throw {A} (e : Exn) : keeps proj (@throw A e).
Proof. intros w. reflexivity. Qed.

Lemma keeps_gets {A} (f : World -> A) : keeps proj (gets f).
Proof. intros w. reflexivity. Qed.

Lemma keeps_request r : keeps proj (request r).
Proof. intros w. unfold request. destruct (failing w r); reflexivity. Qed.

Lemma keeps_modify (f : World -> World) :
  (forall w, proj (f w) = proj w) -> keeps proj (modify f).
Proof. intros H w. apply H. Qed.

Lemma keeps_bind {A C} (m : M A) (k : A -> M C) :
  keeps proj m -> (forall a, keeps proj (k a)) -> keeps proj (bind m k).
Proof.
  intros Hm Hk w. unfold bind. specialize (Hm w).
  destruct (m w) as [[a | e] w1]; simpl in *; [| exact Hm].
  rewrite (Hk a w1). exact Hm.
Qed.

Lemma keeps_try_catch {A} (m : M A) (h : Exn -> M A) :
  keeps proj m -> (forall e, keeps proj (h e)) -> keeps proj (try_catch m h).
Proof.
  intros Hm Hh w. unfold try_catch. specialize (Hm w).
  destruct (m w) as [[a | e] w1]; simpl in *; [exact Hm |].
  rewrite (Hh e w1). exact Hm.
Qed.

Lemma keeps_for_each {A} (xs : list A) (body : A -> M unit) :
  (forall x, keeps proj (body x)) -> keeps proj (for_each xs body).
Proof.
  intros Hb. induction xs as [| x xs IH]; simpl.
  - apply keeps_ret.
  - apply keeps_bind; [apply Hb | intros _; exact IH].
Qed.

End Keeps.

(** The structural steps of a proof that a component is kept. *)
Ltac keeps_step :=
  first
    [ apply keeps_ret | apply keeps_throw | apply keeps_gets | apply keeps_request
    | apply keeps_bind | apply keeps_try_catch | apply keeps_for_each
    | apply keeps_modify; intros; reflexivity
    | progress intros
    | match goal with
      | |- keeps _ (match ?x with _ => _ end) => destruct x
      end ].

Ltac keeps_tac := repeat keeps_step.

Lemma total_ret {A} (a : A) : total (ret a).
Proof. intros w. exists a. reflexivity. Qed.

Lemma total_modify f : total (modify f).
Proof. intros w. exists tt. reflexivity. Qed.

Lemma total_gets {A} (f : World -> A) : total (gets f).
Proof. intros w. exists (f w). reflexivity. Qed.

Lemma total_bind {A C} (m : M A) (k : A -> M C) :
  total m -> (forall a, total (k a)) -> total (bind m k).
Proof.
  intros Hm Hk w. unfold bind. destruct (Hm w) as [a Ha].
  destruct (m w) as [[a' | e] w1]; simpl in Ha; [| discriminate].
  apply Hk.
Qed.

Lemma total_try_catch {A} (m : M A) (h : Exn -> M A) :
  (forall e, total (h e)) -> total (try_catch m h).
Proof.
  intros Hh w. unfold try_catch.
  destruct (m w) as [[a | e] w1]; [exists a; reflexivity | apply Hh].
Qed.

Lemma total_for_each {A} (xs : list A) (body : A -> M unit) :
  (forall x, total (body x)) -> total (for_each xs body).
Proof.
  intros Hb. induction xs as [| x xs IH]; simpl.
  - apply total_ret.
  - apply total_bind; [apply Hb | intros _; exact IH].
Qed.

(** A total computation of [unit] comes back with [Ok tt]. *)
Lemma total_unit (m : M unit) w : total m -> m w = (Ok tt, snd (m w)).
Proof.
  intros H. destruct (H w) as [[] Ha].
  destruct (m w) as [r w1]; simpl in *. subst r. reflexivity.
Qed.

Ltac total_step :=
  first
    [ apply total_ret | apply total_modify | apply total_gets
    | apply total_bind | apply total_try_catch | apply total_for_each
    | progress intros
    | match goal with
      | |- total (match ?x with _ => _ end) => destruct x
      end ].

Ltac total_tac := repeat total_step.

End Frame.

(* ===================================================================== *)
(** * Properties of the session store and of acknowledgment handling *)
(* ===================================================================== *)

Module AckProps.

Import Frame.

Lemma beside_store_pending : beside_store pendingSubscriptions.
Proof. split; reflexivity. Qed.

Lemma beside_store_failing : beside_store failing.
Proof. split; reflexivity. Qed.

Lemma beside_store_delivered : beside_store delivered.
Proof. split; reflexivity. Qed.

Lemma beside_store_db_missing : beside_store db_missing.
Proof.
  split; [| reflexivity]. intros f w. unfold db_missing. simpl.
  destruct (db w); reflexivity.
Qed.

Section BesideStore.

Context {B : Type} (proj : World -> B) (Hproj : beside_store proj).

Lemma keeps_console_log msg : keeps proj (console_log msg).
Proof. apply keeps_modify. intros w. apply Hproj. Qed.

Lemma keeps_console_warn msg : keeps proj (console_warn msg).
Proof. apply keeps_modify. intros w. apply Hproj. Qed.

Lemma keeps_console_error msg : keeps proj (console_error msg).
Proof. apply keeps_modify. intros w. apply Hproj. Qed.

Lemma keeps_modify_db f : keeps proj (modify_db f).
Proof. apply keeps_modify. intros w. apply Hproj. Qed.

Ltac store_step :=
  first
    [ apply keeps_console_log | apply keeps_console_warn
    | apply keeps_console_error | apply keeps_modify_db
    | keeps_step ].

Lemma keeps_storeSessionId sid destination :
  keeps proj (SessionIdManager.storeSessionId sid destination).
Proof. unfold SessionIdManager.storeSessionId, sids_put. repeat store_step. Qed.

Lemma keeps_removeDestination destination :
  keeps proj (SessionIdManager.removeDestination destination).
Proof. unfold SessionIdManager.removeDestination, sids_delete. repeat store_step. Qed.

Lemma keeps_events_delete key : keeps proj (events_delete key).
Proof. unfold events_delete. repeat store_step. Qed.

Lemma keeps_clearEventsByDestination destination :
  keeps proj (SessionIdManager.clearEventsByDestination destination).
Proof.
  unfold SessionIdManager.clearEventsByDestination, events_by_destination.
  repeat first [apply keeps_events_delete | store_step].
Qed.

Lemma keeps_getSessionData destination :
  keeps proj (SessionIdManager.getSessionData destination).
Proof. unfold SessionIdManager.getSessionData, sids_get. repeat store_step. Qed.

Lemma keeps_updateGid destination gid :
  keeps proj (SessionIdManager.updateGid destination gid).
Proof. unfold SessionIdManager.updateGid, sids_get, sids_put. repeat store_step. Qed.

Lemma keeps_storeEvent config batch :
  keeps proj (CacheManager.storeEvent config batch).
Proof.
  unfold CacheManager.storeEvent, events_put.
  destruct (negb (cacheEnabled config)); repeat store_step.
Qed.

Lemma keeps_getEventsBySid config sid :
  keeps proj (CacheManager.getEventsBySid config sid).
Proof.
  unfold CacheManager.getEventsBySid, events_by_sid.
  destruct (negb (cacheEnabled config)); repeat store_step.
Qed.

End BesideStore.

Section Ack.

Variable config : Config.

(** The branch taken by [handleSubAck] when the first pending entry has a
    non-zero correlation id and a sid that differs from the acknowledged
    one. *)
Lemma handleSubAck_reset w cid f rest ack :
  pendingSubscriptions w = (cid, f) :: rest ->
  cid <> 0%Z ->
  truthy (sub_sid f) = true ->
  sub_sid f <> Some (ack_sid ack) ->
  SubscriptionManager.handleSubAck config ack w =
    (reset_branch (ack_sid ack) (sub_destination f) ;;
     modify (fun w => set_pendingSubscriptions
                        (SubscriptionManager.pending_delete cid (pendingSubscriptions w)) w)) w.
Proof.
  intros Hp Hcid Ht Hne.
  unfold SubscriptionManager.handleSubAck, bind at 1, gets at 1. rewrite Hp. simpl.
  destruct (Z.eqb_spec cid 0) as [-> | _]; [congruence |]. simpl.
  rewrite Ht. simpl. rewrite bool_decide_eq_false_2 by exact Hne. reflexivity.
Qed.

Lemma reset_branch_total newSid destination : total (reset_branch newSid destination).
Proof. unfold reset_branch, console_log, console_error. total_tac. Qed.

Lemma reset_branch_keeps_pending newSid destination :
  keeps pendingSubscriptions (reset_branch newSid destination).
Proof.
  pose proof beside_store_pending as Hp.
  unfold reset_branch, reset_block.
  repeat first
    [ apply keeps_console_log | apply keeps_console_error
    | apply keeps_clearEventsByDestination | apply keeps_removeDestination
    | apply keeps_storeSessionId | keeps_step ]; exact Hp.
Qed.

Lemma throws_bind_l {A C} (m : M A) (k : A -> M C) w :
  throws m w -> throws (bind m k) w.
Proof.
  intros [e He]. exists e. unfold bind.
  destruct (m w) as [[a | e'] w1]; simpl in *; [discriminate | congruence].
Qed.

Lemma throws_bind_r {A C} (m : M A) (k : A -> M C) w :
  (forall a, throws (k a) (snd (m w))) -> throws (bind m k) w.
Proof.
  intros Hk. unfold throws, bind.
  destruct (m w) as [[a | e] w1]; simpl in *; [apply Hk | exists e; reflexivity].
Qed.

Lemma removeDestination_throws destination w :
  db_missing w = false -> failing w SidsDelete = true ->
  throws (SessionIdManager.removeDestination destination) w.
Proof.
  unfold db_missing. intros Hdb Hf. exists StoreFailure.
  unfold SessionIdManager.removeDestination, bind at 1, gets.
  destruct (db w); [| discriminate].
  unfold try_catch, sids_delete, bind at 1, request. rewrite Hf. reflexivity.
Qed.

Lemma storeSessionId_throws sid destination w :
  db_missing w = false ->
  failing w SidsTransaction = true \/ failing w SidsPut = true ->
  throws (SessionIdManager.storeSessionId sid destination) w.
Proof.
  unfold db_missing. intros Hdb Hf. exists StoreFailure.
  unfold SessionIdManager.storeSessionId, bind at 1, gets.
  destruct (db w); [| discriminate].
  unfold try_catch, sids_put, bind, request.
  destruct (failing w SidsTransaction) eqn:Ht; [reflexivity |].
  destruct Hf as [Hf | Hf]; [discriminate |]. rewrite Hf. reflexivity.
Qed.

(** With a database at hand, a failing removal of the record or a failing
    write of the new record makes the reset block throw. *)
Lemma reset_block_throws newSid destination w :
  db_missing w = false ->
  failing w SidsDelete = true \/ failing w SidsTransaction = true \/ failing w SidsPut = true ->
  throws (reset_block newSid destination) w.
Proof.
  intros Hdb Hf. unfold reset_block.
  apply throws_bind_r. intros _.
  set (w1 := snd (SessionIdManager.clearEventsByDestination destination w)).
  assert (Hdb1 : db_missing w1 = false).
  { unfold w1. rewrite (keeps_clearEventsByDestination _ beside_store_db_missing). exact Hdb. }
  assert (Hf1 : failing w1 = failing w).
  { unfold w1. apply (keeps_clearEventsByDestination _ beside_store_failing). }
  destruct Hf as [Hf | Hf].
  - apply throws_bind_l, removeDestination_throws; [exact Hdb1 | rewrite Hf1; exact Hf].
  - apply throws_bind_r. intros _. apply throws_bind_l.
    apply storeSessionId_throws.
    + rewrite (keeps_removeDestination _ beside_store_db_missing). exact Hdb1.
    + rewrite (keeps_removeDestination _ beside_store_failing), Hf1. exact Hf.
Qed.

(** (C8, amended) A failing mutation of the session store in the
    session-reset branch does not reach the caller of [handleSubAck]: the
    exception re-raised by the session manager is caught there, written to
    the console as "Failed to clear stale data:", and dropped; the call
    comes back normally and the matched pending subscription is removed. *)
Theorem reset_failure_is_swallowed (w : World) (cid : Z) (f : SubscribeFrame)
    (rest : list (Z * SubscribeFrame)) (ack : SubAckFrame) :
  pendingSubscriptions w = (cid, f) :: rest ->
  cid <> 0%Z ->
  truthy (sub_sid f) = true ->
  sub_sid f <> Some (ack_sid ack) ->
  exists w',
    SubscriptionManager.handleSubAck config ack w = (Ok tt, w') /\
    pendingSubscriptions w' =
      SubscriptionManager.pending_delete cid (pendingSubscriptions w) /\
    (db_missing w = false ->
     failing w SidsDelete = true \/ failing w SidsTransaction = true
       \/ failing w SidsPut = true ->
     In (ERROR, "Failed to clear stale data:") (console w')).
Proof.
  intros Hp Hcid Ht Hne.
  rewrite (handleSubAck_reset w cid f rest ack Hp Hcid Ht Hne).
  set (branch := reset_branch (ack_sid ack) (sub_destination f)).
  pose proof (total_unit branch w (reset_branch_total _ _)) as Hb.
  pose proof (reset_branch_keeps_pending (ack_sid ack) (sub_destination f) w) as Hk.
  fold branch in Hk.
  eexists. split; [| split].
  - unfold bind at 1. rewrite Hb. reflexivity.
  - simpl. rewrite Hk. reflexivity.
  - intros Hdb Hf. simpl.
    unfold branch, reset_branch, bind at 1, console_log at 1, modify at 1.
    set (w0 := set_console _ w).
    destruct (reset_block_throws (ack_sid ack) (sub_destination f) w0 Hdb Hf) as [e He].
    unfold try_catch.
    destruct (reset_block (ack_sid ack) (sub_destination f) w0) as [[[] | e'] w1];
      simpl in He; [discriminate |].
    simpl. apply in_or_app. right. left. reflexivity.
Qed.

End Ack.

Lemma reset_failure_is_swallowed_witness :
  exists w',
    SubscriptionManager.handleSubAck defaultConfig {| ack_sid := "s2" |}
      (staleWorld (failsOn SidsDelete)) = (Ok tt, w') /\
    pendingSubscriptions w' =
      SubscriptionManager.pending_delete 7
        (pendingSubscriptions (staleWorld (failsOn SidsDelete))) /\
    (db_missing (staleWorld (failsOn SidsDelete)) = false ->
     failing (staleWorld (failsOn SidsDelete)) SidsDelete = true
       \/ failing (staleWorld (failsOn SidsDelete)) SidsTransaction = true
       \/ failing (staleWorld (failsOn SidsDelete)) SidsPut = true ->
     In (ERROR, "Failed to clear stale data:") (console w')).
Proof.
  eapply (reset_failure_is_swallowed defaultConfig _ 7%Z).
  - reflexivity.
  - lia.
  - reflexivity.
  - simpl. discriminate.
Defined.

(** (C8, as stated) The removal of the stale record fails, and the call
    of [handleSubAck] comes back normally instead of throwing; the stale
    record is still in the store. *)
Lemma reset_failure_not_rejected :
  let w := staleWorld (failsOn SidsDelete) in
  let r := SubscriptionManager.handleSubAck defaultConfig {| ack_sid := "s2" |} w in
  fst r = Ok tt /\
  (forall e, fst r <> Throw e) /\
  (d ← db (snd r); sids d !! "orders")
    = Some {| sd_destination := "orders"; sd_sid := "s1"; sd_gid := Some "g1" |} /\
  console (snd r) = [(LOG, "Session ID changed for destination");
                     (ERROR, "Failed to remove destination");
                     (ERROR, "Failed to clear stale data:")].
Proof. vm_compute. repeat split. intros e H. discriminate H. Qed.

End AckProps.

(* ===================================================================== *)
(** * Properties of delivery and replay *)
(* ===================================================================== *)

Module DeliveryProps.

Import Frame AckProps.

Lemma beside_delivery_pending : beside_delivery pendingSubscriptions.
Proof. split; [exact beside_store_pending | reflexivity]. Qed.

Lemma beside_delivery_handlers : beside_delivery destinationHandlers.
Proof. split; [split |]; reflexivity. Qed.

Lemma beside_delivery_failing : beside_delivery failing.
Proof. split; [exact beside_store_failing | reflexivity]. Qed.

Lemma beside_delivery_db_missing : beside_delivery db_missing.
Proof. split; [exact beside_store_db_missing | reflexivity]. Qed.

Lemma beside_delivery_buffered : beside_delivery bufferedEvents.
Proof. split; [split |]; reflexivity. Qed.

Lemma bind_total_unit {C} (m : M unit) (k : unit -> M C) w :
  total m -> bind m k w = k tt (snd (m w)).
Proof. intros H. unfold bind. rewrite (total_unit m w H). reflexivity. Qed.

Section Delivery.

Variable config : Config.

Lemma total_call_handler data dest h : total (EventProcessor.call_handler data dest h).
Proof. unfold EventProcessor.call_handler, console_error. total_tac. Qed.

Lemma total_dispatch data dest : total (EventProcessor.dispatch data dest).
Proof.
  unfold EventProcessor.dispatch.
  repeat first [apply total_call_handler | total_step].
Qed.

Lemma total_processEvent batch skipCache :
  total (EventProcessor.processEvent config batch skipCache).
Proof.
  unfold EventProcessor.processEvent, console_error, console_warn.
  repeat first [apply total_dispatch | total_step].
Qed.

Section Beside.

Context {B : Type} (proj : World -> B) (Hproj : beside_delivery proj).

Lemma keeps_dispatch data dest : keeps proj (EventProcessor.dispatch data dest).
Proof.
  destruct Hproj as [Hs Hd].
  unfold EventProcessor.dispatch, EventProcessor.call_handler.
  repeat first
    [ apply (keeps_console_error _ Hs)
    | apply keeps_modify; intros; apply Hd
    | keeps_step ].
Qed.

Lemma keeps_processEvent batch skipCache :
  keeps proj (EventProcessor.processEvent config batch skipCache).
Proof.
  pose proof Hproj as [Hs Hd].
  unfold EventProcessor.processEvent.
  repeat first
    [ apply (keeps_console_error _ Hs) | apply (keeps_console_warn _ Hs)
    | apply (keeps_storeEvent _ Hs) | apply keeps_dispatch
    | keeps_step ].
Qed.

End Beside.




Lemma for_each_call_handler data dest hs : forall w,
  delivered (snd (for_each hs (EventProcessor.call_handler data dest) w))
  = delivered w ++ map (fun h => (h, data, dest)) hs.
Proof.
  induction hs as [| h hs IH]; intros w; simpl.
  - rewrite app_nil_r. reflexivity.
  - rewrite (bind_total_unit _ _ w (total_call_handler data dest h)).
    rewrite IH.
    assert (Hh : delivered (snd (EventProcessor.call_handler data dest h w))
                 = delivered w ++ [(h, data, dest)]).
    { unfold EventProcessor.call_handler, bind, modify, gets, console_error. simpl.
      destruct (throwing w h); reflexivity. }
    rewrite Hh, <- app_assoc. reflexivity.
Qed.

Lemma dispatch_delivered data dest w :
  delivered (snd (EventProcessor.dispatch data dest w))
  = delivered w ++ map (fun h => (h, data, dest)) (listeners w dest).
Proof.
  unfold EventProcessor.dispatch, listeners, bind at 1, gets at 1.
  destruct (destinationHandlers w !! dest) as [[| h hs] |]; simpl;
    try (rewrite app_nil_r; reflexivity).
  apply (for_each_call_handler data dest (h :: hs) w).
Qed.

(** Delivering a batch, cached or not, calls the listeners of its
    destination with all its payloads. *)
Lemma processEvent_delivered batch skipCache w :
  delivered (snd (EventProcessor.processEvent config batch skipCache w))
  = delivered w ++ deliveries w batch.
Proof.
  unfold EventProcessor.processEvent, deliveries.
  set (store := if cacheEnabled config && negb skipCache then _ else _).
  assert (Hst : total store).
  { unfold store, console_error.
    destruct (cacheEnabled config && negb skipCache); total_tac. }
  assert (Hd : delivered (snd (store w)) = delivered w).
  { unfold store. destruct (cacheEnabled config && negb skipCache); [| reflexivity].
    apply (keeps_try_catch delivered).
    - apply (keeps_storeEvent _ beside_store_delivered).
    - intros e. apply (keeps_console_error _ beside_store_delivered). }
  assert (Hl : destinationHandlers (snd (store w)) = destinationHandlers w).
  { unfold store. destruct (cacheEnabled config && negb skipCache); [| reflexivity].
    apply (keeps_try_catch destinationHandlers).
    - apply (keeps_storeEvent _ (proj1 beside_delivery_handlers)).
    - intros e. apply (keeps_console_error _ (proj1 beside_delivery_handlers)). }
  rewrite (bind_total_unit _ _ w Hst).
  destruct (String.eqb (batch_destination batch) ""); simpl.
  - rewrite app_nil_r. exact Hd.
  - rewrite dispatch_delivered, Hd. unfold listeners. rewrite Hl. reflexivity.
Qed.





End Delivery.

(** With caching configured and the store answering, what the replay
    cache holds for a sid are the entries stored under it, oldest first. *)
Lemma cached_entries config w d sid :
  cacheEnabled config = true -> db w = Some d -> failing w EventsBySid = false ->
  cached config w sid = entriesBySid d sid.
Proof. intros He Hd Hf. unfold cached. rewrite He, Hd, Hf. reflexivity. Qed.



(** The replay in [confirmedWorld], spelled out: the two batches of "s1", in
    storage order, to both listeners, the first of which throws. *)
Example replay_example :
  delivered (exec (SubscriptionManager.handleSubAck defaultConfig {| ack_sid := "s1" |})
               confirmedWorld)
  = [(7, ["a"], "orders"); (8, ["a"], "orders");
     (7, ["b"; "c"], "orders"); (8, ["b"; "c"], "orders")].
Proof. vm_compute. reflexivity. Qed.

End DeliveryProps.

(* ===================================================================== *)
(** * The cases of acknowledgment handling *)
(* ===================================================================== *)

Module AckCases.

Import Frame AckProps DeliveryProps.

Section Cases.

Variable config : Config.

(** With no pending subscription the acknowledgment is reported on the
    console and dropped. *)
Lemma suback_without_pending ack w :
  pendingSubscriptions w = [] ->
  SubscriptionManager.handleSubAck config ack w
  = (Ok tt, set_console (console w ++ [unknown_subscription]) w).
Proof.
  intros Hp. unfold SubscriptionManager.handleSubAck, bind, gets. rewrite Hp. reflexivity.
Qed.

Lemma handleSubAck_matched w cid f rest ack :
  pendingSubscriptions w = (cid, f) :: rest ->
  cid <> 0%Z ->
  SubscriptionManager.handleSubAck config ack w =
    (ack_branch config ack f ;;
     modify (fun w => set_pendingSubscriptions
                        (SubscriptionManager.pending_delete cid (pendingSubscriptions w)) w)) w.
Proof.
  intros Hp Hcid.
  unfold SubscriptionManager.handleSubAck, bind at 1, gets at 1. rewrite Hp. simpl.
  destruct (Z.eqb_spec cid 0) as [-> | _]; [congruence |]. reflexivity.
Qed.

Lemma ack_branch_keeps_pending ack f : keeps pendingSubscriptions (ack_branch config ack f).
Proof.
  unfold ack_branch.
  destruct (negb (truthy (sub_sid f))).
  - apply (keeps_storeSessionId _ beside_store_pending).
  - destruct (truthy (sub_sid f) && negb (bool_decide (sub_sid f = Some (ack_sid ack)))).
    + apply reset_branch_keeps_pending.
    + apply keeps_bind.
      * apply (keeps_getEventsBySid _ beside_store_pending).
      * intros batches. apply keeps_for_each. intros b.
        apply (keeps_processEvent _ _ beside_delivery_pending).
Qed.

(** In each of the three cases with a pending entry whose correlation id
    is not 0, an acknowledgment that is handled without an exception
    removes that entry. *)
Lemma suback_removes_pending w cid f rest ack w' :
  pendingSubscriptions w = (cid, f) :: rest ->
  cid <> 0%Z ->
  SubscriptionManager.handleSubAck config ack w = (Ok tt, w') ->
  pendingSubscriptions w' = SubscriptionManager.pending_delete cid (pendingSubscriptions w).
Proof.
  intros Hp Hcid. rewrite (handleSubAck_matched w cid f rest ack Hp Hcid).
  unfold bind at 1. pose proof (ack_branch_keeps_pending ack f w) as Hk.
  destruct (ack_branch config ack f w) as [[[] | e] w1]; simpl in Hk; [| discriminate].
  unfold modify. intros [= <-]. simpl. rewrite Hk. reflexivity.
Qed.

(** The session reset goes through when the cache holds no entry for the
    destination and every request to the store succeeds: the record of
    the destination then holds the new sid and no cursor. *)
Lemma session_reset_without_cached_events w cid f rest ack d :
  pendingSubscriptions w = (cid, f) :: rest ->
  cid <> 0%Z ->
  truthy (sub_sid f) = true ->
  sub_sid f <> Some (ack_sid ack) ->
  db w = Some d ->
  (forall r, failing w r = false) ->
  List.filter (fun ke => String.eqb (ce_destination (snd ke)) (sub_destination f)) (events d) = [] ->
  exists w',
    SubscriptionManager.handleSubAck config ack w = (Ok tt, w') /\
    (d' ← db w'; sids d' !! sub_destination f)
      = Some {| sd_destination := sub_destination f; sd_sid := ack_sid ack; sd_gid := None |} /\
    (events <$> db w') = Some (events d).
Proof.
  intros Hp Hcid Ht Hne Hdb Hf Hev.
  rewrite (handleSubAck_reset config w cid f rest ack Hp Hcid Ht Hne).
  unfold reset_branch, reset_block, SessionIdManager.clearEventsByDestination,
    SessionIdManager.removeDestination, SessionIdManager.storeSessionId,
    events_by_destination, sids_delete, sids_put, modify_db, console_log,
    console_error, console_warn, try_catch, bind, gets, modify, request, ret.
  repeat progress (simpl; rewrite ?Hf, ?Hdb, ?Hev).
  eexists. split; [reflexivity |]. simpl. split; [| reflexivity].
  apply lookup_insert_eq.
Qed.

(** The session reset is given up as soon as the cache holds an entry for
    the destination: the first [delete] is called with [event.id], which
    is [undefined], and throws; the database is left exactly as it was. *)
Lemma session_reset_blocked_by_cached_events w cid f rest ack d ke kes :
  pendingSubscriptions w = (cid, f) :: rest ->
  cid <> 0%Z ->
  truthy (sub_sid f) = true ->
  sub_sid f <> Some (ack_sid ack) ->
  db w = Some d ->
  failing w EventsByDestination = false ->
  failing w EventsTransaction = false ->
  List.filter (fun ke => String.eqb (ce_destination (snd ke)) (sub_destination f)) (events d)
    = ke :: kes ->
  exists w',
    SubscriptionManager.handleSubAck config ack w = (Ok tt, w') /\
    db w' = db w /\
    In (ERROR, "Failed to clear events by destination") (console w').
Proof.
  intros Hp Hcid Ht Hne Hdb Hf1 Hf2 Hev.
  rewrite (handleSubAck_reset config w cid f rest ack Hp Hcid Ht Hne).
  unfold reset_branch, reset_block, SessionIdManager.clearEventsByDestination,
    events_by_destination, events_delete, entry_id, console_log,
    console_error, console_warn, try_catch, bind, gets, modify, request, ret, throw.
  repeat progress (simpl; rewrite ?Hf1, ?Hf2, ?Hdb, ?Hev).
  eexists. split; [reflexivity |]. simpl. split; [exact Hdb |].
  apply in_or_app. left. apply in_or_app. right. left. reflexivity.
Qed.

End Cases.

(** (C2) The session reset with a cached batch.  A first subscription to
    "orders" is acknowledged with sid "s1"; one batch is delivered and
    cached; a second subscription is sent with the stored sid "s1" and is
    acknowledged with "s2".  [clearEventsByDestination] then throws on the
    first cached entry, because [event.id] is [undefined]; the exception is
    caught by [handleSubAck]; the record of "orders" still holds "s1" and
    its cursor, and the cached batch is still stored. *)
Theorem stale_session_survives_reset :
  let config := defaultConfig in
  let batch := {| batch_destination := "orders"; batch_gid := "g1";
                  batch_data := [{| ev_gid := "g1"; ev_data := "a" |}];
                  batch_sid := "s1" |} in
  let w0 := initialize config (fun n => (Z.of_nat n + 1)%Z) in
  let w1 := exec (SubscriptionManager.subscribe config Connection.SocketOpens ["orders"]) w0 in
  let w2 := exec (SubscriptionManager.onFrame config (FSubAck {| ack_sid := "s1" |})) w1 in
  let w3 := exec (SubscriptionManager.onFrame config
                    (FEvent {| evf_src := 1; evf_batch := batch; evf_sid := "s1" |})) w2 in
  let w4 := exec (SubscriptionManager.subscribe config Connection.SocketOpens ["orders"]) w3 in
  let r := SubscriptionManager.handleSubAck config {| ack_sid := "s2" |} w4 in
  let stale := {| sd_destination := "orders"; sd_sid := "s1"; sd_gid := Some "g1" |} in
  let entry := {| ce_destination := "orders"; ce_sid := "s1"; ce_batch := batch |} in
  (d ← db w4; sids d !! "orders") = Some stale /\
  map (fun kf => sub_sid (snd kf)) (pendingSubscriptions w4) = [Some "s1"] /\
  fst r = Ok tt /\
  (d ← db (snd r); sids d !! "orders") = Some stale /\
  (events <$> db (snd r)) = Some [(0, entry)] /\
  console (snd r) = [(LOG, "Session ID changed for destination");
                     (ERROR, "Failed to clear events by destination");
                     (ERROR, "Failed to clear stale data:")].
Proof. vm_compute. repeat split. Qed.

(** (C6) A pending subscription whose correlation id is 0.  When
    [Math.random] yields a value below 1e-9 the correlation id is 0; the
    test [matchedCid && matchedFrame] then fails, the acknowledgment is
    reported as one for an unknown subscription, no session is stored and
    the entry stays in the pending map. *)
Theorem zero_cid_is_never_acknowledged :
  let config := defaultConfig in
  let w := exec (SubscriptionManager.subscribe config Connection.SocketOpens ["orders"])
             (initialize config (fun _ => 0%Z)) in
  let r := SubscriptionManager.handleSubAck config {| ack_sid := "s1" |} w in
  map fst (pendingSubscriptions w) = [0%Z] /\
  fst r = Ok tt /\
  pendingSubscriptions (snd r) = pendingSubscriptions w /\
  (d ← db (snd r); sids d !! "orders") = None /\
  console (snd r) = [unknown_subscription].
Proof. vm_compute. repeat split. Qed.

End AckCases.

(* ===================================================================== *)
(** * Properties of the delivery cursor *)
(* ===================================================================== *)

Module CursorProps.

Import Frame AckProps DeliveryProps.

Section Cursor.

Variable config : Config.

Lemma keeps_sids_processEvent batch skipCache :
  keeps db_sids (EventProcessor.processEvent config batch skipCache).
Proof.
  unfold EventProcessor.processEvent, CacheManager.storeEvent, events_put, modify_db,
    EventProcessor.dispatch, EventProcessor.call_handler,
    console_error, console_warn.
  repeat first
    [ apply keeps_modify; intros w0; unfold db_sids; simpl; destruct (db w0); reflexivity
    | keeps_step ].
Qed.

Lemma getGid_found w d sd destination :
  db w = Some d -> sids d !! destination = Some sd -> failing w SidsGet = false ->
  SessionIdManager.getGid destination w = (Ok (sd_gid sd), w).
Proof.
  intros Hdb Hsd Hf.
  unfold SessionIdManager.getGid, SessionIdManager.getSessionData, sids_get,
    try_catch, bind, gets, request, ret.
  repeat progress (simpl; rewrite ?Hdb, ?Hf, ?Hsd). reflexivity.
Qed.

Lemma getGid_absent w d destination :
  db w = Some d -> sids d !! destination = None -> failing w SidsGet = false ->
  SessionIdManager.getGid destination w = (Ok None, w).
Proof.
  intros Hdb Hsd Hf.
  unfold SessionIdManager.getGid, SessionIdManager.getSessionData, sids_get,
    try_catch, bind, gets, request, ret.
  repeat progress (simpl; rewrite ?Hdb, ?Hf, ?Hsd). reflexivity.
Qed.

Lemma updateGid_found w d sd destination gid :
  db w = Some d -> sids d !! destination = Some sd ->
  failing w SidsGet = false -> failing w SidsPut = false ->
  SessionIdManager.updateGid destination gid w
  = (Ok tt,
     set_db (Some {| sids := <[sd_destination sd :=
                                 {| sd_destination := sd_destination sd;
                                    sd_sid := sd_sid sd; sd_gid := Some gid |}]> (sids d);
                     events := events d; nextKey := nextKey d |}) w).
Proof.
  intros Hdb Hsd Hg Hp.
  unfold SessionIdManager.updateGid, sids_get, sids_put, modify_db,
    try_catch, bind, gets, modify, request, ret.
  repeat progress (simpl; rewrite ?Hdb, ?Hg, ?Hsd, ?Hp). reflexivity.
Qed.

(** Without a record for the destination [updateGid] writes nothing. *)
Lemma updateGid_absent w d destination gid :
  db w = Some d -> sids d !! destination = None -> failing w SidsGet = false ->
  SessionIdManager.updateGid destination gid w = (Ok tt, w).
Proof.
  intros Hdb Hsd Hg.
  unfold SessionIdManager.updateGid, sids_get, try_catch, bind, gets, request, ret.
  repeat progress (simpl; rewrite ?Hdb, ?Hg, ?Hsd). reflexivity.
Qed.

(** A frame for a destination without a record: nothing is read as its
    cursor, the batch is handed on, and [updateGid] finds nothing to write
    into. *)
Lemma processEventFrame_unrecorded w frame d :
  batch_destination (evf_batch frame) <> "" ->
  db w = Some d ->
  sids d !! batch_destination (evf_batch frame) = None ->
  failing w SidsGet = false ->
  EventProcessor.processEventFrame config frame w
  = (Ok tt, snd (EventProcessor.processEvent config (stamped frame) false w)).
Proof.
  intros Hne Hdb Hsd Hg.
  unfold EventProcessor.processEventFrame.
  apply String.eqb_neq in Hne. rewrite Hne.
  unfold bind at 1. rewrite (getGid_absent w d _ Hdb Hsd Hg). cbn [truthy negb].
  fold (stamped frame).
  rewrite (bind_total_unit _ _ w (total_processEvent config (stamped frame) false)).
  set (w1 := snd (EventProcessor.processEvent config (stamped frame) false w)).
  assert (Hf1 : failing w1 = failing w)
    by apply (keeps_processEvent config _ beside_delivery_failing).
  assert (Hs1 : db_sids w1 = db_sids w) by apply keeps_sids_processEvent.
  unfold db_sids in Hs1. rewrite Hdb in Hs1.
  destruct (db w1) as [d1 |] eqn:Hdb1; [| discriminate]. simpl in Hs1.
  injection Hs1 as Hs1.
  apply (updateGid_absent w1 d1 _ _ Hdb1); [rewrite Hs1; exact Hsd | rewrite Hf1; exact Hg].
Qed.

(** (C4, amended) First delivery for a destination.  For an event frame
    with a destination for which no cursor is stored, when the reads and
    writes of the session store succeed: every listener of the
    destination is called once with the payloads of all the events of the
    received batch, in order.  Afterwards, when the store holds a session
    record for the destination, the cursor of that record is the gid of
    the batch and its sid is unchanged; when it holds none, it still
    holds none, and no cursor is stored. *)
Theorem first_delivery_sets_cursor (w : World) (frame : EventFrame) (d : Db) :
  let batch := evf_batch frame in
  let destination := batch_destination batch in
  let record := sids d !! destination in
  destination <> "" ->
  db w = Some d ->
  truthy (sd ← record; sd_gid sd) = false ->
  (forall sd, record = Some sd -> sd_destination sd = destination) ->
  failing w SidsGet = false ->
  failing w SidsPut = false ->
  exists w',
    EventProcessor.processEventFrame config frame w = (Ok tt, w') /\
    delivered w' = delivered w ++
      map (fun h => (h, map ev_data (batch_data batch), destination))
          (listeners w destination) /\
    (d' ← db w'; sids d' !! destination)
      = match record with
        | Some sd => Some {| sd_destination := destination; sd_sid := sd_sid sd;
                             sd_gid := Some (batch_gid batch) |}
        | None => None
        end.
Proof.
  intros batch destination record Hne Hdb Hgid Hkey Hg Hp.
  set (b' := stamped frame).
  set (w1 := snd (EventProcessor.processEvent config b' false w)).
  assert (Hd1 : delivered w1 = delivered w ++ deliveries w b')
    by apply processEvent_delivered.
  assert (Hf1 : failing w1 = failing w)
    by apply (keeps_processEvent config _ beside_delivery_failing).
  assert (Hs1 : db_sids w1 = db_sids w) by apply keeps_sids_processEvent.
  unfold db_sids in Hs1. rewrite Hdb in Hs1.
  destruct (db w1) as [d1 |] eqn:Hdb1; [| discriminate]. simpl in Hs1.
  injection Hs1 as Hs1.
  assert (Hdel : delivered w1 = delivered w ++
            map (fun h => (h, map ev_data (batch_data batch), destination))
                (listeners w destination)).
  { rewrite Hd1. unfold deliveries, b', stamped. simpl. fold batch. fold destination.
    apply String.eqb_neq in Hne. rewrite Hne. reflexivity. }
  subst record. destruct (sids d !! destination) as [sd |] eqn:Hsd.
  - simpl in Hgid. specialize (Hkey sd eq_refl).
    unfold EventProcessor.processEventFrame. fold batch. fold destination.
    pose proof Hne as Hne'. apply String.eqb_neq in Hne'. rewrite Hne'.
    unfold bind at 1. rewrite (getGid_found w d sd destination Hdb Hsd Hg).
    rewrite Hgid. cbn [negb].
    fold (stamped frame). fold b'.
    rewrite (bind_total_unit _ _ w (total_processEvent config b' false)). fold w1.
    assert (Hsd1 : sids d1 !! destination = Some sd) by (rewrite Hs1; exact Hsd).
    rewrite (updateGid_found w1 d1 sd destination (batch_gid batch) Hdb1 Hsd1)
      by (rewrite Hf1; assumption).
    eexists. split; [reflexivity |]. simpl. split; [exact Hdel |].
    rewrite Hkey. apply lookup_insert_eq.
  - rewrite (processEventFrame_unrecorded w frame d Hne Hdb Hsd Hg). fold b'. fold w1.
    eexists. split; [reflexivity |]. split; [exact Hdel |].
    rewrite Hdb1. simpl. rewrite Hs1. exact Hsd.
Qed.

End Cursor.

Lemma first_delivery_sets_cursor_witness :
  (exists w',
     EventProcessor.processEventFrame defaultConfig firstFrame subscribedWorld = (Ok tt, w') /\
     delivered w' = delivered subscribedWorld ++
       map (fun h => (h, map ev_data (batch_data (evf_batch firstFrame)), "orders"))
           (listeners subscribedWorld "orders") /\
     (d' ← db w'; sids d' !! "orders")
       = Some {| sd_destination := "orders"; sd_sid := "s1"; sd_gid := Some "g2" |}) /\
  (exists w',
     EventProcessor.processEventFrame defaultConfig firstFrame listeningWorld = (Ok tt, w') /\
     delivered w' = delivered listeningWorld ++
       map (fun h => (h, map ev_data (batch_data (evf_batch firstFrame)), "orders"))
           (listeners listeningWorld "orders") /\
     (d' ← db w'; sids d' !! "orders") = None).
Proof.
  split.
  - apply (first_delivery_sets_cursor defaultConfig subscribedWorld firstFrame subscribedDb).
    + simpl. discriminate.
    + reflexivity.
    + reflexivity.
    + intros sd Hsd. vm_compute in Hsd. injection Hsd as <-. reflexivity.
    + reflexivity.
    + reflexivity.
  - apply (first_delivery_sets_cursor defaultConfig listeningWorld firstFrame emptyDb).
    + simpl. discriminate.
    + reflexivity.
    + reflexivity.
    + intros sd Hsd. vm_compute in Hsd. discriminate.
    + reflexivity.
    + reflexivity.
Defined.

(** (C4, as stated) A destination without a session record has no stored
    cursor; the batch of an event frame for it is delivered whole, and
    afterwards there still is no stored cursor, because [updateGid] only
    writes into an existing record. *)
Lemma first_delivery_without_record :
  let config := defaultConfig in
  let w := exec (EventProcessor.addListener ["orders"] 7)
             (initialize config (fun _ => 1%Z)) in
  let r := EventProcessor.processEventFrame config firstFrame w in
  fst (SessionIdManager.getGid "orders" w) = Ok None /\
  fst r = Ok tt /\
  delivered (snd r) = [(7, ["a"; "b"], "orders")] /\
  fst (SessionIdManager.getGid "orders" (snd r)) = Ok None /\
  fst (SessionIdManager.getGid "orders" (snd r)) <> Ok (Some (batch_gid (evf_batch firstFrame))).
Proof. vm_compute. repeat split. discriminate. Qed.

End CursorProps.

(* ===================================================================== *)
(** * Properties of subscribe *)
(* ===================================================================== *)

Module SubscribeProps.

Import Frame AckProps.

Lemma beside_store_conn : beside_store conn.
Proof. split; reflexivity. Qed.

Section Subscribe.

Variable config : Config.

Lemma open_await_sent attempt c :
  Connection.sent (snd (Connection.open_await config attempt c)) = Connection.sent c.
Proof.
  unfold Connection.open_await, Connection.open_call.
  destruct (Connection.state_eqb (Connection.state c) Connection.OPEN
            || Connection.state_eqb (Connection.state c) Connection.CONNECTING);
    [reflexivity |].
  destruct attempt; simpl;
    unfold Connection.open_jwt_rejected, Connection.open_jwt_resolved,
      Connection.ws_onopen, Connection.ws_onerror, Connection.connect_timeout; simpl;
    try reflexivity;
    match goal with
    | |- context [?l !! ?n] => destruct (l !! n) as [[] |]; reflexivity
    end.
Qed.

(** One turn of the loop: either the frame goes out, for this destination
    and with ['start'], or [sendFrame] throws and nothing goes out. *)
Lemma subscribe_one_sent dest w r w' :
  SubscriptionManager.subscribe_one dest w = (r, w') ->
  (r = Ok tt /\
   exists nf, Connection.sent (conn w') = Connection.sent (conn w) ++ [nf] /\
              subscribe_start dest nf)
  \/
  ((exists e, r = Throw e) /\ Connection.sent (conn w') = Connection.sent (conn w)).
Proof.
  unfold SubscriptionManager.subscribe_one.
  pose proof (keeps_getSessionData _ beside_store_conn dest w) as Hc.
  unfold bind at 1.
  destruct (SessionIdManager.getSessionData dest w) as [[sessionData | e] w1];
    simpl in Hc.
  - unfold bind, SubscriptionManager.next_random, modify, SubscriptionManager.on_conn,
      Connection.sendFrame. simpl. rewrite Hc.
    destruct (Connection.state_eqb (Connection.state (conn w)) Connection.OPEN);
      [destruct (Connection.ws (conn w)) as [n |] |]; simpl; intros [= <- <-]; simpl.
    + left. split; [reflexivity |]. eexists. split; [reflexivity |].
      eexists. repeat split.
    + right. split; [eexists; reflexivity | reflexivity].
    + right. split; [eexists; reflexivity | reflexivity].
  - intros [= <- <-]. right. split; [exists e; reflexivity | rewrite Hc; reflexivity].
Qed.

Lemma subscribe_loop_sent dests : forall w r w',
  for_each dests SubscriptionManager.subscribe_one w = (r, w') ->
  exists new,
    Connection.sent (conn w') = Connection.sent (conn w) ++ new /\
    (r = Ok tt -> Forall2 subscribe_start dests new) /\
    Forall (fun nf => exists dest, subscribe_start dest nf) new.
Proof.
  induction dests as [| dest dests IH]; intros w r w'; simpl.
  - intros [= <- <-]. exists []. rewrite app_nil_r. repeat split; constructor.
  - unfold bind.
    destruct (SubscriptionManager.subscribe_one dest w) as [r1 w1] eqn:H1.
    destruct (subscribe_one_sent dest w r1 w1 H1) as [[-> (nf & Hs & Hnf)] | [[e ->] Hs]].
    + intros H2. destruct (IH w1 r w' H2) as (new & Hs' & Hok' & Hall).
      exists (nf :: new). split; [| split].
      * rewrite Hs', Hs, <- app_assoc. reflexivity.
      * intros H. constructor; [exact Hnf | exact (Hok' H)].
      * constructor; [exists dest; exact Hnf | exact Hall].
    + intros [= <- <-]. exists []. rewrite app_nil_r. split; [exact Hs |].
      split; [discriminate | constructor].
Qed.

(** The cache field of subscribe frames.  Whatever [cacheMode] is
    configured, every frame that [subscribe(destinations)] hands to the
    socket is a subscribe frame whose [cache] field is ['start'], the
    literal in the source; and when [subscribe] comes back normally there
    is one such frame per destination, in order. *)
Theorem subscribe_sends_cache_start (attempt : Connection.Attempt)
    (destinations : list string) (w : World) :
  let r := SubscriptionManager.subscribe config attempt destinations w in
  exists new,
    Connection.sent (conn (snd r)) = Connection.sent (conn w) ++ new /\
    Forall (fun nf => exists sf, snd nf = FSubscribe sf /\
                                 sub_cache sf = Some CacheStart) new /\
    (fst r = Ok tt -> Forall2 subscribe_start destinations new).
Proof.
  intros r.
  destruct r as [res w'] eqn:Hr. unfold r in Hr. clear r. simpl.
  unfold SubscriptionManager.subscribe, bind at 1, gets at 1 in Hr.
  set (opening := if negb (Connection.isOpen (conn w)) then _ else _) in Hr.
  assert (Hsent : Connection.sent (conn (snd (opening w))) = Connection.sent (conn w)).
  { unfold opening. destruct (negb (Connection.isOpen (conn w))); [| reflexivity].
    unfold SubscriptionManager.on_conn.
    pose proof (open_await_sent attempt (conn w)) as H.
    destruct (Connection.open_await config attempt (conn w)) as [r c]. exact H. }
  unfold bind in Hr. destruct (opening w) as [[[] | e] w1]; simpl in Hsent.
  - destruct (subscribe_loop_sent destinations w1 res w' Hr) as (new & Hs & Hok & Hall).
    exists new. split; [rewrite Hs, Hsent; reflexivity |]. split; [| exact Hok].
    eapply Forall_impl; [exact Hall |].
    intros nf (dest & sf & Hf & _ & Hc). exists sf. split; assumption.
  - injection Hr as <- <-. exists []. rewrite app_nil_r. split; [exact Hsent |].
    split; [constructor | discriminate].
Qed.

End Subscribe.

(** (C9) The configured cache mode is not forwarded.  With
    [cacheMode: 'never'] configured, [Config] holds ['never'], and the
    subscribe frame that [subscribe(["orders"])] hands to the socket
    carries ['start'] in its [cache] field, not the configured value. *)
Lemma configured_cache_mode_not_forwarded :
  let config := mkConfig {| opt_url := None; opt_reconnectTimeout := None;
                            opt_maxReconnectTimeout := None; opt_shouldReconnect := None;
                            opt_cacheEnabled := None; opt_cacheDbName := None;
                            opt_dedupWindow := None; opt_cacheMode := Some CacheNever |} in
  let w := exec (SubscriptionManager.subscribe config Connection.SocketOpens ["orders"])
             (initialize config (fun _ => 1%Z)) in
  cacheMode config = CacheNever /\
  Connection.sent (conn w)
  = [(0, FSubscribe {| sub_destination := "orders"; sub_cid := 1; sub_sid := None;
                       sub_gid := None; sub_cache := Some CacheStart |})] /\
  ~ Forall (fun nf => exists sf, snd nf = FSubscribe sf /\
                                 sub_cache sf = Some (cacheMode config))
      (Connection.sent (conn w)).
Proof.
  split; [reflexivity |]. split; [vm_compute; reflexivity |].
  intros H. vm_compute in H. inversion H as [| nf nfs (sf & Hf & Hc) _].
  simpl in Hf. injection Hf as <-. discriminate Hc.
Qed.

End SubscribeProps.

(* ===================================================================== *)
(** * Properties of source failover *)
(* ===================================================================== *)

Module SourceProps.

Import Frame AckProps DeliveryProps AckCases.

(** ** The source manager on its own *)

(** A frame from the active source is let through and nothing is
    buffered. *)
Lemma source_passes frame w :
  activeSources w !! evf_sid frame = Some (evf_src frame) ->
  SourceManager.processEventFrame frame w = (Ok true, w).
Proof.
  intros H. unfold SourceManager.processEventFrame, bind, gets.
  rewrite bool_decide_eq_true_2 by (symmetry; exact H). reflexivity.
Qed.

(** A frame from any other source is held: its batch goes to the end of
    the buffer of its sid. *)
Lemma source_holds_back frame w :
  activeSources w !! evf_sid frame <> Some (evf_src frame) ->
  exists w',
    SourceManager.processEventFrame frame w = (Ok false, w') /\
    bufferedEvents w' !! evf_sid frame
      = Some (default [] (bufferedEvents w !! evf_sid frame) ++ [evf_batch frame]) /\
    activeSources w' = activeSources w /\
    delivered w' = delivered w.
Proof.
  intros H. unfold SourceManager.processEventFrame, bind, gets.
  rewrite bool_decide_eq_false_2 by (intros E; apply H; symmetry; exact E).
  unfold SourceManager.bufferEvent, modify, ret. simpl.
  eexists. split; [reflexivity |]. simpl. split; [| split; reflexivity].
  rewrite lookup_insert_eq. f_equal. f_equal.
  destruct (bufferedEvents w !! evf_sid frame) as [l |] eqn:E.
  - rewrite E. reflexivity.
  - rewrite lookup_insert_eq. reflexivity.
Qed.

(** The switch from source 1 to source 2 hands out the whole buffer of
    the sid, oldest batch first, and drops it. *)
Lemma source_flush sid w :
  activeSources w !! sid = Some 1%Z ->
  exists w',
    SourceManager.handleSourceChange {| src_src := 2; src_sid := sid |} w
      = (Ok (default [] (bufferedEvents w !! sid)), w') /\
    bufferedEvents w' !! sid = None /\
    activeSources w' !! sid = Some 2%Z.
Proof.
  intros H. unfold SourceManager.handleSourceChange, bind at 1, gets at 1. simpl.
  rewrite H. simpl.
  unfold bind at 1, modify at 1. simpl.
  unfold SourceManager.processBufferedEvents, bind, gets, modify, console_log, ret. simpl.
  destruct (bufferedEvents w !! sid) as [l |] eqn:E; simpl;
    eexists; (split; [reflexivity |]); simpl.
  - split; [apply lookup_delete_eq | apply lookup_insert_eq].
  - split; [exact E | apply lookup_insert_eq].
Qed.

(** Any other signal, the first one for the sid included, hands out
    nothing and leaves the buffers alone. *)
Lemma source_no_flush frame w :
  ~ (src_src frame = 2%Z /\ activeSources w !! src_sid frame = Some 1%Z) ->
  exists w',
    SourceManager.handleSourceChange frame w = (Ok [], w') /\
    bufferedEvents w' = bufferedEvents w /\
    delivered w' = delivered w.
Proof.
  intros H. unfold SourceManager.handleSourceChange, bind at 1, gets at 1.
  destruct (bool_decide (Some (src_src frame) = activeSources w !! src_sid frame)).
  { exists w. repeat split. }
  unfold bind at 1, modify at 1.
  destruct (bool_decide (src_src frame = 2%Z)) eqn:E2;
    destruct (bool_decide (activeSources w !! src_sid frame = Some 1%Z)) eqn:E1;
    simpl; try (eexists; repeat split).
  exfalso. apply H.
  split; [exact (bool_decide_eq_true_1 _ E2) | exact (bool_decide_eq_true_1 _ E1)].
Qed.

(** ** The pipeline *)

Section Pipeline.

Variable config : Config.

(** An event frame that comes in never reaches the buffers of the source
    manager: [processEventFrame] of the event processor delivers without
    asking it. *)
Lemma event_frame_keeps_buffers frame :
  keeps bufferedEvents (EventProcessor.processEventFrame config frame).
Proof.
  pose proof beside_delivery_buffered as Hb. pose proof Hb as [Hs _].
  unfold EventProcessor.processEventFrame, SessionIdManager.getGid.
  destruct (String.eqb (batch_destination (evf_batch frame)) "").
  - apply (keeps_console_warn _ Hs).
  - repeat first
      [ apply (keeps_getSessionData _ Hs) | apply (keeps_updateGid _ Hs)
      | apply (keeps_processEvent config _ Hb) | keeps_step ].
Qed.

Lemma suback_keeps_buffers ack :
  keeps bufferedEvents (SubscriptionManager.handleSubAck config ack).
Proof.
  pose proof beside_delivery_buffered as Hb. pose proof Hb as [Hs _].
  unfold SubscriptionManager.handleSubAck.
  repeat first
    [ apply (keeps_console_warn _ Hs) | apply (keeps_console_log _ Hs)
    | apply (keeps_console_error _ Hs)
    | apply (keeps_storeSessionId _ Hs) | apply (keeps_removeDestination _ Hs)
    | apply (keeps_clearEventsByDestination _ Hs)
    | apply (keeps_getEventsBySid _ Hs)
    | apply (keeps_processEvent config _ Hb)
    | keeps_step ].
Qed.

Lemma source_change_keeps_empty frame w :
  bufferedEvents w = ∅ ->
  bufferedEvents (snd (EventProcessor.processSourceChange config frame w)) = ∅ /\
  delivered (snd (EventProcessor.processSourceChange config frame w)) = delivered w.
Proof.
  intros He. unfold EventProcessor.processSourceChange.
  assert (Hh : exists w1, SourceManager.handleSourceChange frame w = (Ok [], w1) /\
                          bufferedEvents w1 = ∅ /\ delivered w1 = delivered w).
  { unfold SourceManager.handleSourceChange, bind at 1, gets at 1.
    destruct (bool_decide (Some (src_src frame) = activeSources w !! src_sid frame)).
    - exists w. repeat split. exact He.
    - unfold bind at 1, modify at 1.
      destruct (bool_decide (src_src frame = 2%Z)
                && bool_decide (activeSources w !! src_sid frame = Some 1%Z)).
      + unfold SourceManager.processBufferedEvents, bind, gets, console_log, modify, ret.
        simpl. rewrite He, lookup_empty. eexists. split; [reflexivity |].
        split; [exact He | reflexivity].
      + eexists. split; [reflexivity |]. split; [exact He | reflexivity]. }
  destruct Hh as (w1 & Hr & He1 & Hd1).
  unfold bind. rewrite Hr. simpl. split; assumption.
Qed.

Lemma onFrame_keeps_empty frame w :
  bufferedEvents w = ∅ ->
  bufferedEvents (snd (SubscriptionManager.onFrame config frame w)) = ∅.
Proof.
  intros He. destruct frame as [f | f | f | f | f | f]; simpl; try exact He.
  - rewrite suback_keeps_buffers. exact He.
  - rewrite event_frame_keeps_buffers. exact He.
  - apply source_change_keeps_empty, He.
Qed.

(** Whatever frames arrive, no batch is ever buffered, and a source
    signal that follows releases nothing to the listeners. *)
Lemma nothing_is_ever_buffered frames rnd signal :
  let w := handle_frames config frames (initialize config rnd) in
  bufferedEvents w = ∅ /\
  delivered (snd (SubscriptionManager.onFrame config (FOnSrc signal) w)) = delivered w.
Proof.
  assert (H : forall w0, bufferedEvents w0 = ∅ -> bufferedEvents (handle_frames config frames w0) = ∅).
  { induction frames as [| fr frs IH]; intros w0 H0; simpl; [exact H0 |].
    apply IH, onFrame_keeps_empty, H0. }
  simpl. split; [apply H; reflexivity |].
  apply source_change_keeps_empty, H. reflexivity.
Qed.

End Pipeline.

(** (C1) An event frame from a source that is not the active one.  The
    active source of "s1" is 1 when an event frame of source 2 comes in:
    its batch is delivered to the listener at once and nothing is
    buffered; the signal that switches "s1" from source 1 to source 2
    then finds no buffer and releases nothing. *)
Theorem inactive_source_batch_is_delivered_at_once :
  let config := defaultConfig in
  let batch := {| batch_destination := "orders"; batch_gid := "g1";
                  batch_data := [{| ev_gid := "g1"; ev_data := "a" |}];
                  batch_sid := "s1" |} in
  let w0 := exec (EventProcessor.addListener ["orders"] 7)
              (initialize config (fun _ => 1%Z)) in
  let w1 := exec (SubscriptionManager.onFrame config
                    (FOnSrc {| src_src := 1; src_sid := "s1" |})) w0 in
  let w2 := exec (SubscriptionManager.onFrame config
                    (FEvent {| evf_src := 2; evf_batch := batch; evf_sid := "s1" |})) w1 in
  let w3 := exec (SubscriptionManager.onFrame config
                    (FOnSrc {| src_src := 2; src_sid := "s1" |})) w2 in
  activeSources w1 !! "s1" = Some 1%Z /\
  delivered w1 = [] /\
  delivered w2 = [(7, ["a"], "orders")] /\
  bufferedEvents w2 !! "s1" = None /\
  activeSources w3 !! "s1" = Some 2%Z /\
  delivered w3 = delivered w2 /\
  console w3 = [(LOG, "No events found in the buffer")].
Proof. vm_compute. repeat split. Qed.

(** The same frame handed to the source manager is held back, and the
    switch hands it out: the source manager does what the event processor
    never asks it to do. *)
Example source_manager_alone :
  let batch := {| batch_destination := "orders"; batch_gid := "g1";
                  batch_data := [{| ev_gid := "g1"; ev_data := "a" |}];
                  batch_sid := "s1" |} in
  let w0 := initialize defaultConfig (fun _ => 1%Z) in
  let w1 := exec (SourceManager.handleSourceChange {| src_src := 1; src_sid := "s1" |}) w0 in
  let r2 := SourceManager.processEventFrame
              {| evf_src := 2; evf_batch := batch; evf_sid := "s1" |} w1 in
  let r3 := SourceManager.handleSourceChange {| src_src := 2; src_sid := "s1" |} (snd r2) in
  fst r2 = Ok false /\ fst r3 = Ok [batch].
Proof. vm_compute. split; reflexivity. Qed.

End SourceProps.

(* ===================================================================== *)
(** * Further properties of the connection *)
(* ===================================================================== *)

Module ConnectionMore.

Import Connection.

Section Reachable.

Variable config : Config.

Lemma open_call_again c :
  state c = OPEN \/ state c = CONNECTING -> open_call c = (Returned, c).
Proof. intros [H | H]; unfold open_call; rewrite H; reflexivity. Qed.

Lemma open_call_state c :
  state (snd (open_call c)) = OPEN \/ state (snd (open_call c)) = CONNECTING.
Proof.
  unfold open_call. destruct (state c) eqn:E; simpl; rewrite ?E; auto.
Qed.

(** (X1) However many times [open] is called in a row, the calls after
    the first change nothing: one attempt at most is started. *)
Theorem open_is_idempotent (c : Conn) (k : nat) :
  run config c (repeat CallOpen (S k)) = step config c CallOpen.
Proof.
  simpl. generalize (open_call_state c). generalize (snd (open_call c)). clear c.
  induction k as [| k IH]; intros c H; simpl; [reflexivity |].
  rewrite (open_call_again c H). simpl. apply IH, H.
Qed.

Lemma open_on_established_step c e :
  open_on_established c -> open_on_established (step config c e).
Proof.
  unfold open_on_established. intros Hc. destruct e; simpl.
  - unfold open_call. destruct (state c) eqn:E; simpl; rewrite ?E; try discriminate.
    intros _. apply Hc. reflexivity.
  - unfold close. destruct (state c) eqn:E; simpl; rewrite ?E; try discriminate;
      (destruct (ws c); [destruct (ws_close_check code reason) |]); simpl; discriminate.
  - unfold sendFrame. destruct (state_eqb (state c) OPEN); [| exact Hc].
    destruct (ws c) eqn:Ew; simpl; rewrite ?Ew; exact Hc.
  - unfold open_jwt_resolved. destruct (jwtWaiters c); [exact Hc |]. simpl.
    intros H. destruct (Hc H) as (m & Hw & Hm). exists m. split; [exact Hw |].
    apply lookup_app_l_Some. exact Hm.
  - unfold open_jwt_rejected. destruct (jwtWaiters c); [exact Hc |]. simpl. discriminate.
  - unfold ws_onopen. destruct (sockets c !! n) as [[] |] eqn:En; try exact Hc.
    simpl. intros _. exists n. split; [reflexivity |].
    apply list_lookup_insert_eq. eapply lookup_lt_Some. exact En.
  - unfold ws_onerror. destruct (sockets c !! n) as [[] |] eqn:En; simpl;
      try exact Hc; discriminate.
  - unfold ws_onclose. destruct (sockets c !! n) as [[] |] eqn:En; try exact Hc;
      try (unfold handleClose; simpl;
           destruct ((code =? 1000)%Z || negb (shouldReconnect config)); simpl; discriminate);
      simpl; intros H; destruct (Hc H) as (m & Hw & Hm); exists m;
      (split; [exact Hw |]);
      (rewrite list_lookup_insert_ne; [exact Hm | congruence]).
  - unfold connect_timeout. destruct (sockets c !! n) as [[] |] eqn:En; try exact Hc.
    simpl. intros H. destruct (Hc H) as (m & Hw & Hm). exists m. split; [exact Hw |].
    rewrite list_lookup_insert_ne; [exact Hm | congruence].
  - unfold timer_fire. destruct (timers c !! k) as [[d wait []] |]; try exact Hc.
    unfold open_call. simpl. destruct (state c) eqn:E; simpl; rewrite ?E; try discriminate.
    intros _. apply Hc. reflexivity.
Qed.

Lemma open_on_established_run es : forall c,
  open_on_established c -> open_on_established (run config c es).
Proof.
  induction es as [| e es IH]; intros c Hc; simpl; [exact Hc |].
  apply IH, open_on_established_step, Hc.
Qed.

Lemma open_on_established_init : open_on_established (init config).
Proof. unfold open_on_established. simpl. discriminate. Qed.

(** (X2) Whatever calls and transport events a connection has seen, when
    [isOpen] answers true the connection holds a socket whose handlers are
    installed, and [sendFrame] hands the frame to that socket without
    throwing. *)
Theorem open_connection_sends (es : list ConnEvent) (frame : Frame) :
  let c := run config (init config) es in
  isOpen c = true ->
  exists n,
    ws c = Some n /\
    sockets c !! n = Some Established /\
    sendFrame frame c = (Ok tt, set_sent (sent c ++ [(n, frame)]) c).
Proof.
  intros c.
  pose proof (open_on_established_run es (init config) open_on_established_init) as Hinv.
  fold c in Hinv. revert Hinv. generalize c. clear c. intros c Hinv Hopen.
  assert (Hst : state c = OPEN).
  { unfold isOpen in Hopen. destruct (state c); try discriminate. reflexivity. }
  destruct (Hinv Hst) as (n & Hw & Hn).
  exists n. split; [exact Hw |]. split; [exact Hn |].
  unfold sendFrame. rewrite Hst, Hw. reflexivity.
Qed.

Lemma map_insert_same {A B} (f : A -> B) (l : list A) k x y :
  l !! k = Some x -> f y = f x -> map f (<[k := y]> l) = map f l.
Proof.
  revert k. induction l as [| a l IH]; intros [| k] H Hf; simpl in *; try discriminate.
  - injection H as ->. rewrite Hf. reflexivity.
  - rewrite (IH k H Hf). reflexivity.
Qed.

Lemma timer_fire_scheduled k c : scheduled (timer_fire k c) = scheduled c.
Proof.
  unfold timer_fire. destruct (timers c !! k) as [[d wait []] |] eqn:Ek; try reflexivity.
  unfold open_call. simpl.
  destruct (state_eqb (state c) OPEN || state_eqb (state c) CONNECTING); unfold scheduled; simpl;
    apply (map_insert_same timer_delay _ _ _ _ Ek); reflexivity.
Qed.

Lemma step_scheduled c e :
  scheduled (step config c e) = scheduled c \/
  exists n code,
    e = WsClose n code /\
    sockets c !! n = Some Established /\
    code <> 1000%Z /\
    shouldReconnect config = true.
Proof.
  destruct e; simpl.
  - left. unfold open_call.
    destruct (state_eqb (state c) OPEN || state_eqb (state c) CONNECTING); reflexivity.
  - left. unfold close. destruct (state_eqb (state c) CLOSED); [reflexivity |].
    simpl. destruct (ws c); [destruct (ws_close_check code reason) |]; reflexivity.
  - left. unfold sendFrame. destruct (state_eqb (state c) OPEN), (ws c); reflexivity.
  - left. unfold open_jwt_resolved. destruct (jwtWaiters c); reflexivity.
  - left. unfold open_jwt_rejected. destruct (jwtWaiters c); reflexivity.
  - left. unfold ws_onopen. destruct (sockets c !! n) as [[] |]; reflexivity.
  - left. unfold ws_onerror. destruct (sockets c !! n) as [[] |]; reflexivity.
  - unfold ws_onclose. destruct (sockets c !! n) as [[] |] eqn:En;
      try (left; reflexivity).
    unfold handleClose.
    destruct (Z.eqb_spec code 1000) as [-> | Hcode]; simpl; [left; reflexivity |].
    destruct (shouldReconnect config) eqn:Hre; simpl; [| left; reflexivity].
    right. exists n, code. repeat split; assumption.
  - left. unfold connect_timeout. destruct (sockets c !! n) as [[] |]; reflexivity.
  - left. apply timer_fire_scheduled.
Qed.

(** (X4) A reconnect is scheduled by one thing only: the close, with a
    code other than 1000 and reconnection enabled, of a socket that had
    opened.  In particular an attempt that fails before the socket opens
    (the credential is refused, the socket errors or times out) is not
    followed by another attempt. *)
Theorem reconnect_only_after_established_close (c : Conn) (e : ConnEvent) :
  scheduled (step config c e) <> scheduled c ->
  exists n code,
    e = WsClose n code /\
    sockets c !! n = Some Established /\
    code <> 1000%Z /\
    shouldReconnect config = true.
Proof.
  intros H. destruct (step_scheduled c e) as [Heq | Hex]; [contradiction | exact Hex].
Qed.

(** (X3) With [shouldReconnect: false] no reconnect is ever scheduled,
    whatever happens to the connection. *)
Theorem no_reconnect_when_disabled (es : list ConnEvent) :
  shouldReconnect config = false ->
  scheduled (run config (init config) es) = [].
Proof.
  intros Hre.
  assert (H : forall c, scheduled c = [] -> scheduled (run config c es) = []).
  { induction es as [| e es IH]; intros c Hc; simpl; [exact Hc |].
    apply IH. destruct (step_scheduled c e) as [-> | (n & code & _ & _ & _ & Ht)];
      [exact Hc | congruence]. }
  apply H. reflexivity.
Qed.


End Reachable.

Lemma open_connection_sends_witness :
  let c := run defaultConfig (init defaultConfig) [CallOpen; JwtResolved; WsOpen 0] in
  exists n,
    ws c = Some n /\
    sockets c !! n = Some Established /\
    sendFrame (FSubAck {| ack_sid := "s1" |}) c
    = (Ok tt, set_sent (sent c ++ [(n, FSubAck {| ack_sid := "s1" |})]) c).
Proof.
  apply (open_connection_sends defaultConfig [CallOpen; JwtResolved; WsOpen 0]).
  reflexivity.
Defined.

Lemma reconnect_only_after_established_close_witness :
  exists n code,
    WsClose 0 1006%Z = WsClose n code /\
    sockets (run defaultConfig (init defaultConfig) [CallOpen; JwtResolved; WsOpen 0]) !! n
      = Some Established /\
    code <> 1000%Z /\
    shouldReconnect defaultConfig = true.
Proof.
  apply (reconnect_only_after_established_close defaultConfig).
  vm_compute. discriminate.
Defined.

Lemma no_reconnect_when_disabled_witness :
  scheduled (run noReconnectConfig (init noReconnectConfig)
               [CallOpen; JwtResolved; WsOpen 0; WsClose 0 1006%Z; TimerFired 0]) = [].
Proof.
  apply (no_reconnect_when_disabled noReconnectConfig).
  reflexivity.
Defined.


End ConnectionMore.

(* ===================================================================== *)
(** * Properties of incoming messages *)
(* ===================================================================== *)

Module TransportProps.

Import Frame AckProps DeliveryProps.

Lemma beside_frames_conn : beside_frames conn.
Proof. repeat split. Qed.

Lemma beside_frames_handlers : beside_frames destinationHandlers.
Proof. repeat split. Qed.

Section Handlers.

Variable config : Config.

Context {B : Type} (proj : World -> B) (Hproj : beside_frames proj).

Lemma keeps_handleSubAck ack : keeps proj (SubscriptionManager.handleSubAck config ack).
Proof.
  destruct Hproj as (Hd & _ & _ & Hp). pose proof Hd as [Hs _].
  unfold SubscriptionManager.handleSubAck.
  repeat first
    [ apply (keeps_console_warn _ Hs) | apply (keeps_console_log _ Hs)
    | apply (keeps_console_error _ Hs)
    | apply (keeps_storeSessionId _ Hs) | apply (keeps_removeDestination _ Hs)
    | apply (keeps_clearEventsByDestination _ Hs)
    | apply (keeps_getEventsBySid _ Hs)
    | apply (keeps_processEvent config _ Hd)
    | apply keeps_modify; intros; apply Hp
    | keeps_step ].
Qed.

Lemma keeps_processSourceChange frame :
  keeps proj (EventProcessor.processSourceChange config frame).
Proof.
  destruct Hproj as (Hd & Ha & Hb & _). pose proof Hd as [Hs _].
  unfold EventProcessor.processSourceChange, SourceManager.handleSourceChange,
    SourceManager.processBufferedEvents.
  repeat first
    [ apply (keeps_console_error _ Hs) | apply (keeps_console_log _ Hs)
    | apply (keeps_processEvent config _ Hd)
    | apply keeps_modify; intros; first [apply Ha | apply Hb]
    | keeps_step ].
Qed.

Lemma keeps_processEventFrame frame :
  keeps proj (EventProcessor.processEventFrame config frame).
Proof.
  destruct Hproj as (Hd & _). pose proof Hd as [Hs _].
  unfold EventProcessor.processEventFrame, SessionIdManager.getGid.
  destruct (String.eqb (batch_destination (evf_batch frame)) "").
  - apply (keeps_console_warn _ Hs).
  - repeat first
      [ apply (keeps_getSessionData _ Hs) | apply (keeps_updateGid _ Hs)
      | apply (keeps_processEvent config _ Hd) | keeps_step ].
Qed.

Lemma keeps_onFrame frame : keeps proj (SubscriptionManager.onFrame config frame).
Proof.
  destruct frame; simpl;
    first [ apply keeps_handleSubAck | apply keeps_processSourceChange
          | apply keeps_processEventFrame | apply keeps_ret ].
Qed.

Lemma keeps_handleFrame frame :
  keeps proj (Transport.handleFrame (Transport.frameHandler config) frame).
Proof.
  unfold Transport.handleFrame, Transport.frameHandler.
  apply keeps_bind; [apply keeps_gets |]. intros hs.
  apply keeps_for_each. intros h. apply keeps_try_catch; [| intros e; apply keeps_ret].
  destruct (Nat.eqb h Transport.subscriptionHandler); [apply keeps_onFrame | apply keeps_ret].
Qed.

End Handlers.

Section Messages.

Variable config : Config.

Lemma total_handleFrame handlers frame : total (Transport.handleFrame handlers frame).
Proof. unfold Transport.handleFrame. total_tac. Qed.

(** (X6) A message that comes in never makes the socket callback throw
    and never touches the connection or the listener registry when it
    parses: whatever its handler does, and also when the handler fails
    (a store request that fails, say), the state of the connection, its
    socket, the frames sent and the reports stay as they were.  A message
    that does not parse only adds an [invalid_frame] report; the
    connection stays as open as it was. *)
Theorem incoming_message_is_contained (n : nat) (data : option Frame) (w : World) :
  exists w',
    Transport.onmessage (Transport.frameHandler config) n data w = (Ok tt, w') /\
    Connection.state (conn w') = Connection.state (conn w) /\
    Connection.ws (conn w') = Connection.ws (conn w) /\
    Connection.sent (conn w') = Connection.sent (conn w) /\
    destinationHandlers w' = destinationHandlers w /\
    Connection.reported (conn w') =
      Connection.reported (conn w) ++
      match Connection.sockets (conn w) !! n, data with
      | Some Connection.Established, None => [(INVALID_FRAME, "Failed to parse frame")]
      | _, _ => []
      end.
Proof.
  unfold Transport.onmessage, bind at 1, gets at 1.
  destruct (Connection.sockets (conn w) !! n) as [[] |];
    try (exists w; rewrite app_nil_r; repeat split).
  destruct data as [frame |].
  - pose proof (total_unit _ w (total_handleFrame (Transport.frameHandler config) frame)) as Ht.
    pose proof (keeps_handleFrame config conn beside_frames_conn frame w) as Hc.
    pose proof (keeps_handleFrame config destinationHandlers beside_frames_handlers frame w)
      as Hl.
    eexists. split; [exact Ht |]. rewrite Hc, Hl, app_nil_r. repeat split.
  - eexists. split; [reflexivity |]. repeat split.
Qed.

End Messages.

End TransportProps.

(* ===================================================================== *)
(** * Properties of publish *)
(* ===================================================================== *)

Module PublisherProps.

Import Connection.

Section Publish.

Variable config : Config.
Variable foreign : Exn -> string.

Lemma open_await_effect attempt c r c' :
  open_await config attempt c = (r, c') ->
  sent c' = sent c /\
  (r = Ok tt ->
   reported c' = reported c /\
   ((c' = c /\ (state c = OPEN \/ state c = CONNECTING)) \/
    (state c' = OPEN /\ exists n, ws c' = Some n))).
Proof.
  unfold open_await, open_call.
  destruct (state_eqb (state c) OPEN || state_eqb (state c) CONNECTING) eqn:Est.
  - intros [= <- <-]. split; [reflexivity |]. intros _. split; [reflexivity |].
    left. split; [reflexivity |]. destruct (state c); simpl in Est; auto; discriminate.
  - destruct attempt; intros [= <- <-]; simpl;
      unfold open_jwt_rejected, open_jwt_resolved, ws_onopen, ws_onerror, connect_timeout;
      simpl.
    + split; [reflexivity | discriminate].
    + rewrite list_lookup_middle by reflexivity. simpl.
      split; [reflexivity |]. intros _. split; [reflexivity |].
      right. split; [reflexivity |]. eexists. reflexivity.
    + rewrite list_lookup_middle by reflexivity. simpl.
      split; [reflexivity | discriminate].
    + rewrite list_lookup_middle by reflexivity. simpl.
      split; [reflexivity | discriminate].
Qed.

Lemma produce_effect attempt destination data c r c' :
  Transport.produce config attempt destination data c = (r, c') ->
  match r with
  | Ok _ => exists n, sent c' = sent c ++ [(n, publishFrame destination data)] /\
                      reported c' = reported c
  | Throw _ => sent c' = sent c
  end.
Proof.
  assert (Hsend : forall c0 r0 c1,
             produce_resume destination data c0 = (r0, c1) ->
             match r0 with
             | Ok _ => exists n, sent c1 = sent c0 ++ [(n, publishFrame destination data)] /\
                                 reported c1 = reported c0
             | Throw _ => sent c1 = sent c0
             end).
  { intros c0 r0 c1. unfold produce_resume, sendFrame.
    destruct (state_eqb (state c0) OPEN); [destruct (ws c0) as [n |] |];
      intros [= <- <-]; simpl; try reflexivity.
    exists n. split; reflexivity. }
  unfold Transport.produce.
  destruct (negb (state_eqb (state c) OPEN)); [| apply Hsend].
  destruct (open_await config attempt c) as [[[] | e] c1] eqn:Ho.
  - destruct (open_await_effect attempt c _ _ Ho) as [Hs Hok].
    destruct (Hok eq_refl) as [Hr _].
    intros H. specialize (Hsend c1 r c' H). destruct r as [[] | e].
    + destruct Hsend as (n & Hsn & Hrn). exists n. rewrite Hsn, Hrn, Hs, Hr. split; reflexivity.
    + rewrite Hsend. exact Hs.
  - intros [= <- <-]. apply (open_await_effect attempt c _ _ Ho).
Qed.

(** (X7) [publish] either sends or reports, never both and never
    neither.  When it comes back normally exactly one frame has gone out,
    the publish frame for that destination and data, and nothing was
    reported; when it throws no frame has gone out and the last report is
    a [produce_error] naming the destination and the error. *)
Theorem publish_sends_or_reports (attempt : Attempt) (destination data : string) (c : Conn) :
  let r := Publisher.publish config foreign attempt destination data c in
  match fst r with
  | Ok _ =>
      exists n, sent (snd r) = sent c ++ [(n, publishFrame destination data)] /\
                reported (snd r) = reported c
  | Throw e =>
      sent (snd r) = sent c /\
      exists earlier,
        reported (snd r) =
          earlier ++ [(PRODUCTION_ERROR,
                       ("Failed to publish to " ++ destination ++ ": "
                        ++ Publisher.describe foreign e)%string)]
  end.
Proof.
  unfold Publisher.publish.
  set (opening := if negb (isOpen c) then open_await config attempt c else (Ok tt, c)).
  assert (Hop : sent (snd opening) = sent c /\
                (fst opening = Ok tt -> reported (snd opening) = reported c)).
  { unfold opening. destruct (negb (isOpen c)); [| split; reflexivity].
    destruct (open_await config attempt c) as [r1 c1] eqn:Ho.
    destruct (open_await_effect attempt c _ _ Ho) as [Hs Hok]. simpl.
    split; [exact Hs |]. intros H. apply Hok, H. }
  destruct opening as [[[] | e] c1]; simpl in Hop; destruct Hop as [Hs Hr].
  - destruct (Transport.produce config attempt destination data c1) as [[[] | e] c2] eqn:Hp;
      pose proof (produce_effect attempt destination data c1 _ _ Hp) as He; simpl.
    + destruct He as (n & Hsn & Hrn). exists n.
      rewrite Hsn, Hrn, Hs, (Hr eq_refl). split; reflexivity.
    + split; [rewrite He; exact Hs |]. eexists. reflexivity.
  - simpl. split; [exact Hs |]. eexists. reflexivity.
Qed.

(** (X8) On a connection that is open, however it got there, [publish]
    starts no attempt, hands the publish frame to the socket the
    connection holds and comes back normally. *)
Theorem publish_on_open_connection (es : list ConnEvent) (attempt : Attempt)
    (destination data : string) :
  let c := run config (init config) es in
  isOpen c = true ->
  exists n,
    ws c = Some n /\
    Publisher.publish config foreign attempt destination data c
    = (Ok tt, set_sent (sent c ++ [(n, publishFrame destination data)]) c).
Proof.
  intros c.
  pose proof (ConnectionMore.open_on_established_run config es (init config)
                (ConnectionMore.open_on_established_init config)) as Hinv.
  fold c in Hinv. revert Hinv. generalize c. clear c. intros c Hinv Hopen.
  assert (Hst : state c = OPEN).
  { unfold isOpen in Hopen. destruct (state c); try discriminate. reflexivity. }
  destruct (Hinv Hst) as (n & Hw & _). exists n. split; [exact Hw |].
  unfold Publisher.publish, Transport.produce, produce_resume, sendFrame, isOpen.
  rewrite Hst. simpl. rewrite Hst, Hw. reflexivity.
Qed.

End Publish.

Lemma publish_on_open_connection_witness :
  let c := run defaultConfig (init defaultConfig) [CallOpen; JwtResolved; WsOpen 0] in
  exists n,
    ws c = Some n /\
    Publisher.publish defaultConfig (fun _ => "") SocketErrors "orders" "x" c
    = (Ok tt, set_sent (sent c ++ [(n, publishFrame "orders" "x")]) c).
Proof.
  apply (publish_on_open_connection defaultConfig (fun _ => "")
           [CallOpen; JwtResolved; WsOpen 0] SocketErrors "orders" "x").
  reflexivity.
Defined.

End PublisherProps.

(* ===================================================================== *)
(** * Properties of the session store and of the replay cache *)
(* ===================================================================== *)

Module StoreProps.

Import Frame AckProps DeliveryProps CursorProps.

Lemma getSessionData_value w d destination :
  db w = Some d -> failing w SidsGet = false ->
  SessionIdManager.getSessionData destination w = (Ok (sids d !! destination), w).
Proof.
  intros Hdb Hf.
  unfold SessionIdManager.getSessionData, sids_get, try_catch, bind, gets, request, ret.
  repeat progress (simpl; rewrite ?Hdb, ?Hf). reflexivity.
Qed.


Lemma storeSessionId_ok w d sid destination :
  db w = Some d -> failing w SidsTransaction = false -> failing w SidsPut = false ->
  SessionIdManager.storeSessionId sid destination w
  = (Ok tt,
     set_db (Some {| sids := <[destination := {| sd_destination := destination;
                                                   sd_sid := sid; sd_gid := None |}]> (sids d);
                     events := events d; nextKey := nextKey d |}) w).
Proof.
  intros Hdb Ht Hp.
  unfold SessionIdManager.storeSessionId, sids_put, modify_db, try_catch, bind, gets,
    modify, request, ret.
  repeat progress (simpl; rewrite ?Hdb, ?Ht, ?Hp). reflexivity.
Qed.

Lemma removeDestination_ok w d destination :
  db w = Some d -> failing w SidsDelete = false ->
  SessionIdManager.removeDestination destination w
  = (Ok tt,
     set_db (Some {| sids := delete destination (sids d);
                     events := events d; nextKey := nextKey d |}) w).
Proof.
  intros Hdb Hf.
  unfold SessionIdManager.removeDestination, sids_delete, modify_db, try_catch, bind, gets,
    modify, request, ret.
  repeat progress (simpl; rewrite ?Hdb, ?Hf). reflexivity.
Qed.

(** (X9) Storing a session and reading it back.  With the database at
    hand and its requests succeeding, after [storeSessionId(sid,
    destination)] the record read for the destination holds that sid and
    no cursor, whatever was stored before, and the records of the other
    destinations read as before. *)
Theorem session_store_round_trip (w : World) (d : Db) (sid destination : string) :
  db w = Some d ->
  failing w SidsTransaction = false ->
  failing w SidsPut = false ->
  failing w SidsGet = false ->
  exists w',
    SessionIdManager.storeSessionId sid destination w = (Ok tt, w') /\
    fst (SessionIdManager.getSessionData destination w')
      = Ok (Some {| sd_destination := destination; sd_sid := sid; sd_gid := None |}) /\
    (forall other, other <> destination ->
       fst (SessionIdManager.getSessionData other w')
       = fst (SessionIdManager.getSessionData other w)).
Proof.
  intros Hdb Ht Hp Hg.
  rewrite (storeSessionId_ok w d sid destination Hdb Ht Hp).
  eexists. split; [reflexivity |]. split.
  - erewrite getSessionData_value; [| reflexivity | exact Hg]. simpl.
    rewrite lookup_insert_eq. reflexivity.
  - intros other Hne.
    erewrite getSessionData_value; [| reflexivity | exact Hg].
    rewrite (getSessionData_value w d other Hdb Hg). simpl.
    rewrite lookup_insert_ne by congruence. reflexivity.
Qed.


(** (X11) Removing a destination.  With the database at hand and its
    requests succeeding, after [removeDestination] nothing is read for the
    destination, whether it had a record or not; the records of the other
    destinations and the cached events are as before. *)
Theorem removed_destination_is_gone (w : World) (d : Db) (destination : string) :
  db w = Some d ->
  failing w SidsDelete = false ->
  failing w SidsGet = false ->
  exists w',
    SessionIdManager.removeDestination destination w = (Ok tt, w') /\
    fst (SessionIdManager.getSessionData destination w') = Ok None /\
    (forall other, other <> destination ->
       fst (SessionIdManager.getSessionData other w')
       = fst (SessionIdManager.getSessionData other w)) /\
    (events <$> db w') = Some (events d).
Proof.
  intros Hdb Hd Hg.
  rewrite (removeDestination_ok w d destination Hdb Hd).
  eexists. split; [reflexivity |]. split; [| split; [| reflexivity]].
  - erewrite getSessionData_value; [| reflexivity | exact Hg]. simpl.
    rewrite lookup_delete_eq. reflexivity.
  - intros other Hne.
    erewrite getSessionData_value; [| reflexivity | exact Hg].
    rewrite (getSessionData_value w d other Hdb Hg). simpl.
    rewrite lookup_delete_ne by congruence. reflexivity.
Qed.

(** (X12) A failing request of a mutation.  With the database at hand,
    when a request of a mutation of the session store fails (for
    [storeSessionId] the opening of the transaction or the put; for
    [removeDestination] the delete; for [updateGid] the read, or the put
    into an existing record), the mutation throws that failure, after
    reporting it on the console, and the database is as it was. *)
Theorem failed_mutation_changes_nothing (w : World) (d : Db) (sid destination : string)
    (gid : UUID) :
  db w = Some d ->
  (failing w SidsTransaction = true \/ failing w SidsPut = true ->
   exists w', SessionIdManager.storeSessionId sid destination w = (Throw StoreFailure, w') /\
              db w' = db w /\
              console w' = console w ++ [(ERROR, "Failed to store session ID")]) /\
  (failing w SidsDelete = true ->
   exists w', SessionIdManager.removeDestination destination w = (Throw StoreFailure, w') /\
              db w' = db w /\
              console w' = console w ++ [(ERROR, "Failed to remove destination")]) /\
  (failing w SidsGet = true \/
   (sids d !! destination <> None /\ failing w SidsPut = true) ->
   exists w', SessionIdManager.updateGid destination gid w = (Throw StoreFailure, w') /\
              db w' = db w /\
              console w' = console w ++ [(ERROR, "Failed to update GID")]).
Proof.
  intros Hdb. split; [| split].
  - intros Hfail.
    unfold SessionIdManager.storeSessionId, sids_put, modify_db, console_error, try_catch,
      bind, gets, modify, request, ret, throw.
    repeat progress (simpl; rewrite ?Hdb).
    destruct (failing w SidsTransaction) eqn:Ht; simpl.
    + eexists. split; [reflexivity |]. split; [exact Hdb | reflexivity].
    + destruct Hfail as [Hfail | Hp]; [discriminate |].
      repeat progress (simpl; rewrite ?Hdb, ?Hp).
      eexists. split; [reflexivity |]. split; [exact Hdb | reflexivity].
  - intros Hf.
    unfold SessionIdManager.removeDestination, sids_delete, modify_db, console_error,
      try_catch, bind, gets, modify, request, ret, throw.
    repeat progress (simpl; rewrite ?Hdb, ?Hf).
    eexists. split; [reflexivity |]. split; [exact Hdb | reflexivity].
  - intros Hfail.
    unfold SessionIdManager.updateGid, sids_get, sids_put, modify_db, console_error,
      try_catch, bind, gets, modify, request, ret, throw.
    repeat progress (simpl; rewrite ?Hdb).
    destruct (failing w SidsGet) eqn:Hg; simpl.
    + eexists. split; [reflexivity |]. split; [exact Hdb | reflexivity].
    + destruct Hfail as [Hfail | [Hsd Hp]]; [discriminate |].
      repeat progress (simpl; rewrite ?Hdb).
      destruct (sids d !! destination) as [sd |]; [| congruence].
      repeat progress (simpl; rewrite ?Hdb, ?Hp).
      eexists. split; [reflexivity |]. split; [exact Hdb | reflexivity].
Qed.

Section Cache.

Variable config : Config.

Lemma storeEvent_ok w d batch :
  cacheEnabled config = true -> db w = Some d -> failing w EventsPut = false ->
  CacheManager.storeEvent config batch w
  = (Ok tt,
     set_db (Some {| sids := sids d;
                     events := events d ++ [(nextKey d,
                                 {| ce_destination := batch_destination batch;
                                    ce_sid := batch_sid batch; ce_batch := batch |})];
                     nextKey := S (nextKey d) |}) w).
Proof.
  intros He Hdb Hf.
  unfold CacheManager.storeEvent, events_put, modify_db, try_catch, bind, gets,
    modify, request, ret.
  repeat progress (simpl; rewrite ?He, ?Hdb, ?Hf). reflexivity.
Qed.

Lemma getEventsBySid_ok w d sid :
  cacheEnabled config = true -> db w = Some d -> failing w EventsBySid = false ->
  CacheManager.getEventsBySid config sid w = (Ok (entriesBySid d sid), w).
Proof.
  intros He Hdb Hf.
  unfold CacheManager.getEventsBySid, events_by_sid, entriesBySid, try_catch, bind, gets,
    request, ret.
  repeat progress (simpl; rewrite ?He, ?Hdb, ?Hf). reflexivity.
Qed.

(** (X13) Caching a batch and reading the cache.  With caching enabled,
    the database at hand and its requests succeeding, after
    [storeEvent(batch)] the batches read for the sid of the batch are
    those read before followed by the batch, and what is read for any
    other sid is as before. *)
Theorem cached_batch_is_read_back_last (w : World) (d : Db) (batch : Batch) :
  cacheEnabled config = true ->
  db w = Some d ->
  failing w EventsPut = false ->
  failing w EventsBySid = false ->
  exists w',
    CacheManager.storeEvent config batch w = (Ok tt, w') /\
    forall sid,
      fst (CacheManager.getEventsBySid config sid w')
      = Ok (entriesBySid d sid ++ (if String.eqb (batch_sid batch) sid then [batch] else [])).
Proof.
  intros He Hdb Hp Hg.
  rewrite (storeEvent_ok w d batch He Hdb Hp).
  eexists. split; [reflexivity |]. intros sid.
  erewrite getEventsBySid_ok; [| exact He | reflexivity | exact Hg]. simpl.
  unfold entriesBySid. simpl. rewrite List.filter_app, !map_app. simpl.
  destruct (String.eqb (batch_sid batch) sid); reflexivity.
Qed.

(** (X14) Clearing the cache.  With caching enabled, the database at
    hand and its requests succeeding, after [clearAllEvents] nothing is
    read from the cache for any sid, and the session records are
    untouched. *)
Theorem cleared_cache_is_empty (w : World) (d : Db) :
  cacheEnabled config = true ->
  db w = Some d ->
  failing w EventsClear = false ->
  failing w EventsBySid = false ->
  exists w',
    CacheManager.clearAllEvents config w = (Ok tt, w') /\
    (forall sid, fst (CacheManager.getEventsBySid config sid w') = Ok []) /\
    db_sids w' = db_sids w.
Proof.
  intros He Hdb Hc Hg.
  unfold CacheManager.clearAllEvents, events_clear, modify_db, try_catch, bind at 1,
    gets at 1, request, ret.
  rewrite He. simpl. rewrite Hdb. unfold bind, modify. rewrite Hc. simpl.
  eexists. split; [reflexivity |]. split.
  - intros sid.
    rewrite (getEventsBySid_ok _ {| sids := sids d; events := []; nextKey := nextKey d |}
               sid He);
      [reflexivity | simpl; rewrite Hdb; reflexivity | exact Hg].
  - unfold db_sids. simpl. rewrite Hdb. reflexivity.
Qed.

(** (X15) Caching switched off.  With [cacheEnabled: false] the cache
    manager does nothing at all, even when the database holds entries
    from an earlier run, and the delivery of a batch never writes to the
    database. *)
Theorem disabled_cache_is_inert (w : World) (batch : Batch) (sid : string)
    (skipCache : bool) :
  cacheEnabled config = false ->
  CacheManager.storeEvent config batch w = (Ok tt, w) /\
  CacheManager.getEventsBySid config sid w = (Ok [], w) /\
  CacheManager.clearAllEvents config w = (Ok tt, w) /\
  db (exec (EventProcessor.processEvent config batch skipCache) w) = db w.
Proof.
  intros He. unfold CacheManager.storeEvent, CacheManager.getEventsBySid,
    CacheManager.clearAllEvents. rewrite He. simpl.
  repeat split.
  assert (Hk : keeps db (EventProcessor.processEvent config batch skipCache)).
  { unfold EventProcessor.processEvent. rewrite He.
    unfold EventProcessor.dispatch, EventProcessor.call_handler, console_error, console_warn.
    simpl. keeps_tac. }
  apply Hk.
Qed.

End Cache.

Lemma session_store_round_trip_witness :
  exists w',
    SessionIdManager.storeSessionId "s2" "orders" subscribedWorld = (Ok tt, w') /\
    fst (SessionIdManager.getSessionData "orders" w')
      = Ok (Some {| sd_destination := "orders"; sd_sid := "s2"; sd_gid := None |}) /\
    (forall other, other <> "orders" ->
       fst (SessionIdManager.getSessionData other w')
       = fst (SessionIdManager.getSessionData other subscribedWorld)).
Proof.
  apply (session_store_round_trip subscribedWorld subscribedDb "s2" "orders");
    reflexivity.
Defined.


Lemma removed_destination_is_gone_witness :
  exists w',
    SessionIdManager.removeDestination "orders" subscribedWorld = (Ok tt, w') /\
    fst (SessionIdManager.getSessionData "orders" w') = Ok None /\
    (forall other, other <> "orders" ->
       fst (SessionIdManager.getSessionData other w')
       = fst (SessionIdManager.getSessionData other subscribedWorld)) /\
    (events <$> db w') = Some (events subscribedDb).
Proof.
  apply (removed_destination_is_gone subscribedWorld subscribedDb "orders"); reflexivity.
Defined.

Lemma failed_mutation_changes_nothing_witness :
  (exists w', SessionIdManager.storeSessionId "s2" "orders" (staleWorld (failsOn SidsPut))
              = (Throw StoreFailure, w') /\
              db w' = db (staleWorld (failsOn SidsPut)) /\
              console w' = console (staleWorld (failsOn SidsPut))
                           ++ [(ERROR, "Failed to store session ID")]) /\
  (exists w', SessionIdManager.removeDestination "orders" (staleWorld (failsOn SidsDelete))
              = (Throw StoreFailure, w') /\
              db w' = db (staleWorld (failsOn SidsDelete)) /\
              console w' = console (staleWorld (failsOn SidsDelete))
                           ++ [(ERROR, "Failed to remove destination")]) /\
  (exists w', SessionIdManager.updateGid "orders" "g9" (staleWorld (failsOn SidsPut))
              = (Throw StoreFailure, w') /\
              db w' = db (staleWorld (failsOn SidsPut)) /\
              console w' = console (staleWorld (failsOn SidsPut))
                           ++ [(ERROR, "Failed to update GID")]).
Proof.
  split; [| split].
  - eapply (proj1 (failed_mutation_changes_nothing (staleWorld (failsOn SidsPut)) _
                     "s2" "orders" "g9" eq_refl)).
    right. reflexivity.
  - eapply (proj1 (proj2 (failed_mutation_changes_nothing (staleWorld (failsOn SidsDelete)) _
                            "s2" "orders" "g9" eq_refl))).
    reflexivity.
  - eapply (proj2 (proj2 (failed_mutation_changes_nothing (staleWorld (failsOn SidsPut)) _
                            "s2" "orders" "g9" eq_refl))).
    right. split; [vm_compute; discriminate | reflexivity].
Defined.

Lemma cached_batch_is_read_back_last_witness :
  exists w',
    CacheManager.storeEvent defaultConfig (evf_batch firstFrame) subscribedWorld = (Ok tt, w') /\
    forall sid,
      fst (CacheManager.getEventsBySid defaultConfig sid w')
      = Ok (entriesBySid subscribedDb sid
            ++ (if String.eqb (batch_sid (evf_batch firstFrame)) sid
                then [evf_batch firstFrame] else [])).
Proof.
  apply (cached_batch_is_read_back_last defaultConfig subscribedWorld subscribedDb
           (evf_batch firstFrame)); reflexivity.
Defined.

Lemma cleared_cache_is_empty_witness :
  exists w',
    CacheManager.clearAllEvents defaultConfig confirmedWorld = (Ok tt, w') /\
    (forall sid, fst (CacheManager.getEventsBySid defaultConfig sid w') = Ok []) /\
    db_sids w' = db_sids confirmedWorld.
Proof.
  eapply (cleared_cache_is_empty defaultConfig confirmedWorld); reflexivity.
Defined.

Lemma disabled_cache_is_inert_witness :
  CacheManager.storeEvent noCacheConfig (evf_batch firstFrame) confirmedWorld
    = (Ok tt, confirmedWorld) /\
  CacheManager.getEventsBySid noCacheConfig "s1" confirmedWorld = (Ok [], confirmedWorld) /\
  CacheManager.clearAllEvents noCacheConfig confirmedWorld = (Ok tt, confirmedWorld) /\
  db (exec (EventProcessor.processEvent noCacheConfig (evf_batch firstFrame) false)
        confirmedWorld) = db confirmedWorld.
Proof.
  apply (disabled_cache_is_inert noCacheConfig confirmedWorld (evf_batch firstFrame) "s1" false).
  reflexivity.
Defined.

End StoreProps.

(* ===================================================================== *)
(** * Further properties of the event processor *)
(* ===================================================================== *)

Module EventProps.

Import Frame AckProps DeliveryProps CursorProps.

Lemma add_listener_again handler registered :
  add_listener handler (add_listener handler registered) = add_listener handler registered.
Proof.
  unfold add_listener at 2.
  destruct (existsb (Nat.eqb handler) registered) eqn:E.
  - unfold add_listener. rewrite E. reflexivity.
  - unfold add_listener. rewrite existsb_app. simpl.
    rewrite Nat.eqb_refl, orb_true_r, E. reflexivity.
Qed.

Lemma addListener_listeners destinations : forall handler w dest,
  listeners (exec (EventProcessor.addListener destinations handler) w) dest
  = if existsb (String.eqb dest) destinations
    then add_listener handler (listeners w dest)
    else listeners w dest.
Proof.
  induction destinations as [| x xs IH]; intros handler w dest; [reflexivity |].
  unfold EventProcessor.addListener, exec in *. simpl.
  unfold bind at 1, modify at 1. rewrite IH.
  set (w1 := set_destinationHandlers _ w).
  assert (H1 : listeners w1 dest
               = if String.eqb dest x then add_listener handler (listeners w dest)
                 else listeners w dest).
  { unfold w1, listeners. simpl. destruct (String.eqb_spec dest x) as [-> | Hne].
    - rewrite lookup_insert_eq. reflexivity.
    - rewrite lookup_insert_ne by congruence. reflexivity. }
  rewrite H1. destruct (String.eqb dest x); simpl.
  - destruct (existsb (String.eqb dest) xs); [apply add_listener_again | reflexivity].
  - reflexivity.
Qed.

(** (X16) Registering a listener.  After [addListener(destinations,
    handler)] the handler is among the listeners of each of these
    destinations exactly as a [Set] has it: added at the end if it was not
    there, left where it was if it was; the listeners of other
    destinations are unchanged; and registering the same handler a second
    time changes nothing. *)
Theorem listener_is_registered_once (destinations : list string) (handler : nat)
    (w : World) (dest : string) :
  let w1 := exec (EventProcessor.addListener destinations handler) w in
  let w2 := exec (EventProcessor.addListener destinations handler) w1 in
  listeners w1 dest
    = (if existsb (String.eqb dest) destinations
       then add_listener handler (listeners w dest)
       else listeners w dest) /\
  listeners w2 dest = listeners w1 dest.
Proof.
  intros w1 w2. unfold w2, w1. rewrite !addListener_listeners.
  split; [reflexivity |].
  destruct (existsb (String.eqb dest) destinations); [apply add_listener_again | reflexivity].
Qed.

Section Events.

Variable config : Config.

(** (X17) Delivering a batch cannot fail.  [processEvent] comes back
    normally whatever the cache and the listeners do: a cache write that
    fails and a listener that throws are written to the console, and
    every listener of the destination is still called once, in
    registration order, with the payloads of all the events of the batch.
    The session records and the pending subscriptions are not touched. *)
Theorem delivery_is_isolated (batch : Batch) (skipCache : bool) (w : World) :
  exists w',
    EventProcessor.processEvent config batch skipCache w = (Ok tt, w') /\
    delivered w' = delivered w ++ deliveries w batch /\
    db_sids w' = db_sids w /\
    pendingSubscriptions w' = pendingSubscriptions w.
Proof.
  exists (snd (EventProcessor.processEvent config batch skipCache w)).
  split; [apply total_unit, total_processEvent |].
  split; [apply processEvent_delivered |].
  split; [apply keeps_sids_processEvent |].
  apply (keeps_processEvent config _ beside_delivery_pending).
Qed.

(** A frame for a destination with a record, which is delivered: the
    record has no cursor, or the batch is not empty. *)
Lemma processEventFrame_delivering w frame d sd :
  batch_destination (evf_batch frame) <> "" ->
  db w = Some d ->
  sids d !! batch_destination (evf_batch frame) = Some sd ->
  failing w SidsGet = false ->
  failing w SidsPut = false ->
  truthy (sd_gid sd) = false \/ batch_data (evf_batch frame) <> [] ->
  exists d1,
    db (snd (EventProcessor.processEvent config (stamped frame) false w)) = Some d1 /\
    sids d1 = sids d /\
    EventProcessor.processEventFrame config frame w
    = (Ok tt,
       set_db (Some {| sids := <[sd_destination sd :=
                                   {| sd_destination := sd_destination sd;
                                      sd_sid := sd_sid sd;
                                      sd_gid := Some (batch_gid (evf_batch frame)) |}]> (sids d1);
                       events := events d1; nextKey := nextKey d1 |})
         (snd (EventProcessor.processEvent config (stamped frame) false w))).
Proof.
  intros Hne Hdb Hsd Hg Hp Hcase.
  set (w1 := snd (EventProcessor.processEvent config (stamped frame) false w)).
  assert (Hf1 : failing w1 = failing w)
    by apply (keeps_processEvent config _ beside_delivery_failing).
  assert (Hs1 : db_sids w1 = db_sids w) by apply keeps_sids_processEvent.
  unfold db_sids in Hs1. rewrite Hdb in Hs1.
  destruct (db w1) as [d1 |] eqn:Hdb1; [| discriminate]. simpl in Hs1.
  injection Hs1 as Hs1.
  exists d1. split; [reflexivity |]. split; [exact Hs1 |].
  assert (Hsd1 : sids d1 !! batch_destination (evf_batch frame) = Some sd)
    by (rewrite Hs1; exact Hsd).
  assert (Hrun : (EventProcessor.processEvent config (stamped frame) false ;;
                  SessionIdManager.updateGid (batch_destination (evf_batch frame))
                    (batch_gid (evf_batch frame))) w
                 = (Ok tt,
                    set_db (Some {| sids := <[sd_destination sd :=
                                   {| sd_destination := sd_destination sd;
                                      sd_sid := sd_sid sd;
                                      sd_gid := Some (batch_gid (evf_batch frame)) |}]> (sids d1);
                                    events := events d1; nextKey := nextKey d1 |}) w1)).
  { rewrite (bind_total_unit _ _ w (total_processEvent config (stamped frame) false)).
    fold w1.
    apply (updateGid_found w1 d1 sd _ _ Hdb1 Hsd1); rewrite Hf1; assumption. }
  unfold EventProcessor.processEventFrame.
  apply String.eqb_neq in Hne. rewrite Hne.
  unfold bind at 1. rewrite (getGid_found w d sd _ Hdb Hsd Hg).
  destruct (truthy (sd_gid sd)) eqn:Ht; cbn [negb].
  - destruct Hcase as [Hc | Hc]; [discriminate |].
    destruct (batch_data (evf_batch frame)) as [| ev evs] eqn:Hdata; [congruence |].
    simpl. rewrite <- Hdata. exact Hrun.
  - exact Hrun.
Qed.

(** (X18) The stored cursor filters nothing.  For a destination with a
    record, a frame with a batch that is not empty is delivered whole
    whatever cursor is stored, and the cursor becomes the gid of the
    batch; so the same frame handled twice is delivered twice. *)
Theorem same_frame_is_delivered_twice (w : World) (frame : EventFrame) (d : Db)
    (sd : SessionData) :
  let destination := batch_destination (evf_batch frame) in
  let payloads := map ev_data (batch_data (evf_batch frame)) in
  let calls := map (fun h => (h, payloads, destination)) (listeners w destination) in
  destination <> "" ->
  batch_data (evf_batch frame) <> [] ->
  db w = Some d ->
  sids d !! destination = Some sd ->
  sd_destination sd = destination ->
  failing w SidsGet = false ->
  failing w SidsPut = false ->
  let w1 := exec (EventProcessor.processEventFrame config frame) w in
  let r2 := EventProcessor.processEventFrame config frame w1 in
  delivered w1 = delivered w ++ calls /\
  fst (SessionIdManager.getGid destination w1) = Ok (Some (batch_gid (evf_batch frame))) /\
  fst r2 = Ok tt /\
  delivered (snd r2) = delivered w ++ calls ++ calls.
Proof.
  intros destination payloads calls Hne Hdata Hdb Hsd Hkey Hg Hp w1 r2.
  assert (Hdel : forall w0, destinationHandlers w0 = destinationHandlers w ->
            delivered (snd (EventProcessor.processEvent config (stamped frame) false w0))
            = delivered w0 ++ calls).
  { intros w0 Hl. rewrite processEvent_delivered. unfold deliveries, stamped. simpl.
    fold destination. apply String.eqb_neq in Hne. rewrite Hne.
    unfold calls, listeners. rewrite Hl. reflexivity. }
  destruct (processEventFrame_delivering w frame d sd Hne Hdb Hsd Hg Hp (or_intror Hdata))
    as (d1 & Hdb1 & Hs1 & Hrun).
  assert (Hw1 : w1 = snd (EventProcessor.processEventFrame config frame w)) by reflexivity.
  rewrite Hrun in Hw1. simpl in Hw1.
  set (wa := snd (EventProcessor.processEvent config (stamped frame) false w)) in *.
  assert (Hfa : failing wa = failing w)
    by apply (keeps_processEvent config _ beside_delivery_failing).
  assert (Hla : destinationHandlers wa = destinationHandlers w)
    by apply (keeps_processEvent config _ beside_delivery_handlers).
  set (rec1 := {| sd_destination := sd_destination sd; sd_sid := sd_sid sd;
                  sd_gid := Some (batch_gid (evf_batch frame)) |}) in *.
  set (db1 := {| sids := <[sd_destination sd := rec1]> (sids d1);
                 events := events d1; nextKey := nextKey d1 |}) in *.
  assert (Hdbw1 : db w1 = Some db1) by (rewrite Hw1; reflexivity).
  assert (Hrec1 : sids db1 !! destination = Some rec1).
  { unfold db1. simpl. rewrite Hkey. apply lookup_insert_eq. }
  assert (Hfw1 : failing w1 = failing w) by (rewrite Hw1; exact Hfa).
  assert (Hlw1 : destinationHandlers w1 = destinationHandlers w)
    by (rewrite Hw1; exact Hla).
  assert (Hd1 : delivered w1 = delivered w ++ calls).
  { rewrite Hw1. simpl. apply Hdel. reflexivity. }
  split; [exact Hd1 |]. split.
  { rewrite (getGid_found w1 db1 rec1 destination Hdbw1 Hrec1) by (rewrite Hfw1; exact Hg).
    reflexivity. }
  destruct (processEventFrame_delivering w1 frame db1 rec1 Hne Hdbw1 Hrec1)
    as (d2 & Hdb2 & Hs2 & Hrun2);
    [rewrite Hfw1; exact Hg | rewrite Hfw1; exact Hp | right; exact Hdata |].
  unfold r2. rewrite Hrun2. simpl. split; [reflexivity |].
  rewrite (Hdel w1 Hlw1), Hd1, <- app_assoc. reflexivity.
Qed.




(** (X21) Without a database.  When IndexedDB is not available an event
    frame with a destination is delivered all the same, every time, since
    no cursor can be read or kept; nothing throws. *)
Theorem delivery_without_database (w : World) (frame : EventFrame) :
  batch_destination (evf_batch frame) <> "" ->
  db w = None ->
  exists w',
    EventProcessor.processEventFrame config frame w = (Ok tt, w') /\
    delivered w' = delivered w ++ deliveries w (stamped frame) /\
    db w' = None.
Proof.
  intros Hne Hdb.
  unfold EventProcessor.processEventFrame.
  apply String.eqb_neq in Hne. rewrite Hne.
  unfold bind at 1, SessionIdManager.getGid, SessionIdManager.getSessionData,
    bind at 1, bind at 1, gets at 1.
  rewrite Hdb. unfold bind at 1, console_warn at 1, modify at 1, ret at 1, ret at 1.
  cbn [truthy option_bind mbind negb].
  set (w0 := set_console _ w).
  rewrite (bind_total_unit _ _ w0 (total_processEvent config _ false)).
  set (w1 := snd (EventProcessor.processEvent config _ false w0)).
  assert (Hm : db_missing w1 = true).
  { unfold w1. rewrite (keeps_processEvent config _ beside_delivery_db_missing).
    unfold db_missing, w0. simpl. rewrite Hdb. reflexivity. }
  assert (Hdb1 : db w1 = None).
  { unfold db_missing in Hm. destruct (db w1); [discriminate | reflexivity]. }
  unfold SessionIdManager.updateGid, bind, gets, console_warn, modify. rewrite Hdb1.
  eexists. split; [reflexivity |]. simpl. split; [| exact Hdb1].
  unfold w1. rewrite processEvent_delivered. reflexivity.
Qed.

End Events.

Lemma same_frame_is_delivered_twice_witness :
  let destination := batch_destination (evf_batch firstFrame) in
  let payloads := map ev_data (batch_data (evf_batch firstFrame)) in
  let calls := map (fun h => (h, payloads, destination)) (listeners subscribedWorld destination) in
  let w1 := exec (EventProcessor.processEventFrame defaultConfig firstFrame) subscribedWorld in
  let r2 := EventProcessor.processEventFrame defaultConfig firstFrame w1 in
  delivered w1 = delivered subscribedWorld ++ calls /\
  fst (SessionIdManager.getGid destination w1)
    = Ok (Some (batch_gid (evf_batch firstFrame))) /\
  fst r2 = Ok tt /\
  delivered (snd r2) = delivered subscribedWorld ++ calls ++ calls.
Proof.
  apply (same_frame_is_delivered_twice defaultConfig subscribedWorld firstFrame
           subscribedDb ordersRecord).
  - simpl. discriminate.
  - simpl. discriminate.
  - reflexivity.
  - vm_compute. reflexivity.
  - reflexivity.
  - reflexivity.
  - reflexivity.
Defined.


Lemma delivery_without_database_witness :
  exists w',
    EventProcessor.processEventFrame defaultConfig firstFrame offlineWorld = (Ok tt, w') /\
    delivered w' = delivered offlineWorld ++ deliveries offlineWorld (stamped firstFrame) /\
    db w' = None.
Proof.
  apply (delivery_without_database defaultConfig offlineWorld firstFrame).
  - simpl. discriminate.
  - reflexivity.
Defined.

End EventProps.

(* ===================================================================== *)
(** * Further properties of the source manager *)
(* ===================================================================== *)

Module SourceMore.

Import Frame.

Lemma hold_all_effect frames : forall w sid,
  activeSources w !! sid = Some 1%Z ->
  Forall (fun frame => evf_sid frame = sid /\ evf_src frame <> 1%Z) frames ->
  activeSources (exec (hold_all frames) w) = activeSources w /\
  default [] (bufferedEvents (exec (hold_all frames) w) !! sid)
    = default [] (bufferedEvents w !! sid) ++ map evf_batch frames /\
  delivered (exec (hold_all frames) w) = delivered w.
Proof.
  induction frames as [| frame frames IH]; intros w sid Ha Hall.
  - unfold hold_all, exec. simpl. rewrite app_nil_r. repeat split.
  - inversion Hall as [| ? ? [Hsid Hsrc] Hall']; subst.
    destruct (SourceProps.source_holds_back frame w) as (w1 & Hrun & Hbuf & Hact & Hdel).
    { rewrite Ha. congruence. }
    assert (Hstep : exec (hold_all (frame :: frames)) w = exec (hold_all frames) w1).
    { unfold hold_all, exec. simpl. unfold bind at 1, bind at 1. rewrite Hrun. reflexivity. }
    rewrite Hstep.
    destruct (IH w1 (evf_sid frame)) as (Ha' & Hb' & Hd'); [rewrite Hact; exact Ha | exact Hall' |].
    split; [rewrite Ha'; exact Hact |]. split; [| rewrite Hd'; exact Hdel].
    rewrite Hb', Hbuf. simpl. rewrite <- app_assoc. reflexivity.
Qed.

(** (X22) The buffer is first in, first out.  While source 1 is active
    for a sid, frames of that sid from other sources are held back and
    none is delivered; the switch to source 2 then hands out what was
    buffered before followed by their batches in arrival order, and
    empties the buffer; a second signal for source 2 hands out nothing. *)
Theorem held_batches_are_released_in_order (frames : list EventFrame) (w : World)
    (sid : string) :
  activeSources w !! sid = Some 1%Z ->
  Forall (fun frame => evf_sid frame = sid /\ evf_src frame <> 1%Z) frames ->
  let w1 := exec (hold_all frames) w in
  let r := SourceManager.handleSourceChange {| src_src := 2; src_sid := sid |} w1 in
  delivered w1 = delivered w /\
  fst r = Ok (default [] (bufferedEvents w !! sid) ++ map evf_batch frames) /\
  bufferedEvents (snd r) !! sid = None /\
  fst (SourceManager.handleSourceChange {| src_src := 2; src_sid := sid |} (snd r)) = Ok [].
Proof.
  intros Ha Hall w1 r.
  destruct (hold_all_effect frames w sid Ha Hall) as (Ha1 & Hb1 & Hd1).
  fold w1 in Ha1, Hb1, Hd1.
  destruct (SourceProps.source_flush sid w1) as (w2 & Hrun & Hbuf & Hact).
  { rewrite Ha1. exact Ha. }
  unfold r. rewrite Hrun. simpl. split; [exact Hd1 |]. split; [rewrite Hb1; reflexivity |].
  split; [exact Hbuf |].
  unfold SourceManager.handleSourceChange, bind, gets. simpl. rewrite Hact.
  rewrite bool_decide_eq_true_2 by reflexivity. reflexivity.
Qed.

(** (X23) Sources and buffers are kept per sid.  A source signal leaves
    its source recorded as the active one of its sid; neither a source
    signal nor a frame that is held back touches the active source or the
    buffer of any other sid. *)
Theorem sources_are_kept_per_sid (signal : OnSrcFrame) (frame : EventFrame) (w : World)
    (other : string) :
  let w1 := exec (SourceManager.handleSourceChange signal) w in
  let w2 := exec (SourceManager.processEventFrame frame) w in
  activeSources w1 !! src_sid signal = Some (src_src signal) /\
  (other <> src_sid signal ->
   activeSources w1 !! other = activeSources w !! other /\
   bufferedEvents w1 !! other = bufferedEvents w !! other) /\
  activeSources w2 = activeSources w /\
  (other <> evf_sid frame -> bufferedEvents w2 !! other = bufferedEvents w !! other).
Proof.
  intros w1 w2. unfold w1, w2, exec. clear w1 w2.
  unfold SourceManager.handleSourceChange, SourceManager.processEventFrame,
    SourceManager.processBufferedEvents, SourceManager.bufferEvent,
    bind, gets, modify, console_log, ret.
  split; [| split; [| split]].
  - destruct (bool_decide (Some (src_src signal) = activeSources w !! src_sid signal)) eqn:E.
    + apply bool_decide_eq_true_1 in E. simpl. symmetry. exact E.
    + simpl.
      destruct (bool_decide (src_src signal = 2%Z)
                && bool_decide (activeSources w !! src_sid signal = Some 1%Z)); simpl.
      * destruct (bufferedEvents w !! src_sid signal); simpl; apply lookup_insert_eq.
      * apply lookup_insert_eq.
  - intros Hne.
    destruct (bool_decide (Some (src_src signal) = activeSources w !! src_sid signal));
      [split; reflexivity |].
    simpl.
    destruct (bool_decide (src_src signal = 2%Z)
              && bool_decide (activeSources w !! src_sid signal = Some 1%Z)); simpl.
    + destruct (bufferedEvents w !! src_sid signal); simpl;
        (split; [apply lookup_insert_ne; congruence |]);
        [apply lookup_delete_ne; congruence | reflexivity].
    + split; [apply lookup_insert_ne; congruence | reflexivity].
  - destruct (bool_decide (Some (evf_src frame) = activeSources w !! evf_sid frame));
      reflexivity.
  - intros Hne.
    destruct (bool_decide (Some (evf_src frame) = activeSources w !! evf_sid frame));
      [reflexivity |].
    simpl.
    destruct (bufferedEvents w !! evf_sid frame); simpl;
      rewrite ?lookup_insert_ne by congruence; reflexivity.
Qed.

Lemma held_batches_are_released_in_order_witness :
  let frames := [ {| evf_src := 2; evf_batch := evf_batch firstFrame; evf_sid := "s1" |};
                  {| evf_src := 3; evf_batch := stamped firstFrame; evf_sid := "s1" |} ] in
  let w1 := exec (hold_all frames) primaryWorld in
  let r := SourceManager.handleSourceChange {| src_src := 2; src_sid := "s1" |} w1 in
  delivered w1 = delivered primaryWorld /\
  fst r = Ok (default [] (bufferedEvents primaryWorld !! "s1") ++ map evf_batch frames) /\
  bufferedEvents (snd r) !! "s1" = None /\
  fst (SourceManager.handleSourceChange {| src_src := 2; src_sid := "s1" |} (snd r)) = Ok [].
Proof.
  apply (held_batches_are_released_in_order _ primaryWorld "s1").
  - vm_compute. reflexivity.
  - repeat constructor; simpl; discriminate.
Defined.

End SourceMore.

(* ===================================================================== *)
(** * Further properties of subscriptions *)
(* ===================================================================== *)

Module SubscriptionMore.

Import Frame AckProps.

Lemma pending_set_keys cid f m k :
  In k (map fst (SubscriptionManager.pending_set cid f m))
  <-> k = cid \/ In k (map fst m).
Proof.
  induction m as [| [k' g] m IH]; simpl.
  - split; [intros [H | []]; left; congruence | intros [H | []]; left; congruence].
  - destruct (Z.eqb_spec k' cid) as [-> | Hne]; simpl.
    + intuition congruence.
    + rewrite IH. intuition congruence.
Qed.

Lemma pending_delete_keys cid m :
  ~ In cid (map fst (SubscriptionManager.pending_delete cid m)).
Proof.
  unfold SubscriptionManager.pending_delete. intros H.
  apply in_map_iff in H as ([k f] & Hk & Hin). simpl in Hk. subst k.
  apply List.filter_In in Hin as [_ Hb]. simpl in Hb.
  rewrite Z.eqb_refl in Hb. discriminate.
Qed.

(** One turn of the loop of [subscribe] on an open connection with a
    working store. *)
Lemma subscribe_one_open w d n destination :
  db w = Some d -> failing w SidsGet = false ->
  Connection.state (conn w) = Connection.OPEN -> Connection.ws (conn w) = Some n ->
  let cid := random w (randomCalls w) in
  let sf := {| sub_destination := destination; sub_cid := cid;
               sub_sid := sd_sid <$> sids d !! destination;
               sub_gid := sd ← sids d !! destination; sd_gid sd;
               sub_cache := Some CacheStart |} in
  SubscriptionManager.subscribe_one destination w
  = (Ok tt,
     set_conn (Connection.set_sent (Connection.sent (conn w) ++ [(n, FSubscribe sf)]) (conn w))
       (set_pendingSubscriptions
          (SubscriptionManager.pending_set cid sf (pendingSubscriptions w))
          (set_randomCalls (S (randomCalls w)) w))).
Proof.
  intros Hdb Hf Hst Hws cid sf.
  unfold SubscriptionManager.subscribe_one, bind at 1.
  rewrite (StoreProps.getSessionData_value w d destination Hdb Hf).
  unfold bind, SubscriptionManager.next_random, modify, SubscriptionManager.on_conn,
    Connection.sendFrame. simpl. rewrite Hst, Hws. reflexivity.
Qed.

Lemma subscribe_loop_resumes d n destinations : forall w,
  db w = Some d -> failing w SidsGet = false ->
  Connection.state (conn w) = Connection.OPEN -> Connection.ws (conn w) = Some n ->
  exists w' new,
    for_each destinations SubscriptionManager.subscribe_one w = (Ok tt, w') /\
    Connection.sent (conn w') = Connection.sent (conn w) ++ new /\
    Forall2 (resumes d n) destinations new /\
    Forall (is_pending w') new /\
    (forall k, In k (map fst (pendingSubscriptions w)) ->
               In k (map fst (pendingSubscriptions w'))) /\
    db w' = db w.
Proof.
  induction destinations as [| destination destinations IH]; intros w Hdb Hf Hst Hws.
  - exists w, []. simpl. rewrite app_nil_r. repeat split; auto; constructor.
  - pose proof (subscribe_one_open w d n destination Hdb Hf Hst Hws) as H1.
    cbv zeta in H1.
    set (sf := {| sub_destination := destination |}) in H1.
    set (w1 := set_conn _ _) in H1.
    destruct (IH w1) as (w' & new & Hrun & Hsent & Hres & Hpen & Hkeys & Hdb');
      [exact Hdb | exact Hf | exact Hst | exact Hws |].
    exists w', ((n, FSubscribe sf) :: new).
    split; [| split; [| split; [| split; [| split]]]].
    + simpl. unfold bind. rewrite H1. exact Hrun.
    + rewrite Hsent. unfold w1. simpl. rewrite <- app_assoc. reflexivity.
    + constructor; [| exact Hres]. eexists. reflexivity.
    + constructor; [| exact Hpen]. unfold is_pending. simpl. apply Hkeys.
      unfold w1. simpl. apply pending_set_keys. left. reflexivity.
    + intros k Hk. apply Hkeys. unfold w1. simpl. apply pending_set_keys. right. exact Hk.
    + rewrite Hdb'. reflexivity.
Qed.

Section Subscriptions.

Variable config : Config.

(** (X24) The first acknowledgment of a subscription creates the record
    of the session.  When the oldest pending subscribe frame carried no
    sid, its correlation id is not 0 and the store works, [handleSubAck]
    writes the record [{destination, sid of the acknowledgment}] without
    a cursor, removes the pending entry, and delivers nothing. *)
Theorem first_ack_creates_session (ack : SubAckFrame) (w : World) (d : Db) (cid : Z)
    (f : SubscribeFrame) (rest : list (Z * SubscribeFrame)) :
  pendingSubscriptions w = (cid, f) :: rest ->
  cid <> 0%Z ->
  truthy (sub_sid f) = false ->
  db w = Some d ->
  failing w SidsTransaction = false -> failing w SidsPut = false ->
  exists w',
    SubscriptionManager.handleSubAck config ack w = (Ok tt, w') /\
    (sids <$> db w')
      = Some (<[sub_destination f := {| sd_destination := sub_destination f;
                                        sd_sid := ack_sid ack; sd_gid := None |}]> (sids d)) /\
    (events <$> db w') = Some (events d) /\
    ~ In cid (map fst (pendingSubscriptions w')) /\
    delivered w' = delivered w.
Proof.
  intros Hp Hcid Hsid Hdb Ht Hput.
  rewrite (AckCases.handleSubAck_matched config w cid f rest ack Hp Hcid).
  unfold ack_branch. rewrite Hsid. simpl.
  unfold bind at 1.
  rewrite (StoreProps.storeSessionId_ok w d (ack_sid ack) (sub_destination f) Hdb Ht Hput).
  unfold modify. simpl. eexists. split; [reflexivity |]. simpl.
  repeat split. apply pending_delete_keys.
Qed.

(** (X25) When that first write fails, nothing is recorded and the
    subscription stays pending: [handleSubAck] throws the failure of the
    store, and the database and the pending map are as before. *)
Theorem first_ack_store_failure (ack : SubAckFrame) (w : World) (d : Db) (cid : Z)
    (f : SubscribeFrame) (rest : list (Z * SubscribeFrame)) :
  pendingSubscriptions w = (cid, f) :: rest ->
  cid <> 0%Z ->
  truthy (sub_sid f) = false ->
  db w = Some d ->
  failing w SidsTransaction || failing w SidsPut = true ->
  exists w',
    SubscriptionManager.handleSubAck config ack w = (Throw StoreFailure, w') /\
    db w' = db w /\
    pendingSubscriptions w' = pendingSubscriptions w.
Proof.
  intros Hp Hcid Hsid Hdb Hfail.
  rewrite (AckCases.handleSubAck_matched config w cid f rest ack Hp Hcid).
  unfold ack_branch. rewrite Hsid. simpl.
  unfold bind at 1.
  unfold SessionIdManager.storeSessionId, sids_put, modify_db, try_catch, bind, gets,
    modify, request, throw, console_error, ret.
  repeat progress (simpl; rewrite ?Hdb).
  destruct (failing w SidsTransaction) eqn:Ht; simpl.
  - eexists. split; [reflexivity |]. split; [exact (eq_sym Hdb) || (simpl; congruence) |].
    reflexivity.
  - simpl in Hfail. repeat progress (simpl; rewrite ?Hdb, ?Hfail).
    eexists. split; [reflexivity |]. split; [simpl; congruence | reflexivity].
Qed.

(** (X26) [subscribe] on a connection that is neither open nor being
    opened starts an attempt and waits for it; when the attempt fails,
    [subscribe] throws before the loop: no frame is sent, nothing is
    added to the pending map, no random number is drawn, and the store is
    not touched. *)
Theorem subscribe_gives_up_when_open_fails (attempt : Connection.Attempt)
    (destinations : list string) (w : World) :
  Connection.state (conn w) <> Connection.OPEN ->
  Connection.state (conn w) <> Connection.CONNECTING ->
  attempt <> Connection.SocketOpens ->
  exists e w',
    SubscriptionManager.subscribe config attempt destinations w = (Throw e, w') /\
    Connection.sent (conn w') = Connection.sent (conn w) /\
    pendingSubscriptions w' = pendingSubscriptions w /\
    randomCalls w' = randomCalls w /\
    db w' = db w /\
    Connection.state (conn w') <> Connection.OPEN.
Proof.
  intros Ho Hc Ha.
  unfold SubscriptionManager.subscribe, bind, gets, SubscriptionManager.on_conn,
    Connection.isOpen, Connection.open_await, Connection.open_call.
  destruct (Connection.state (conn w)) eqn:Est; try congruence;
    repeat progress (simpl; rewrite ?Est);
    destruct attempt; try congruence; simpl;
    unfold Connection.open_jwt_rejected, Connection.open_jwt_resolved,
      Connection.ws_onerror, Connection.connect_timeout; simpl;
    rewrite ?list_lookup_middle by reflexivity; simpl;
    do 2 eexists; (split; [reflexivity |]); simpl; repeat split; discriminate.
Qed.

(** With nothing happening during its reads, the loop is the loop of
    [subscribe]. *)
Lemma subscribe_one_meanwhile_nil destination w :
  SubscriptionManager.subscribe_one_meanwhile config [] destination w
  = SubscriptionManager.subscribe_one destination w.
Proof.
  unfold SubscriptionManager.subscribe_one_meanwhile, SubscriptionManager.subscribe_one,
    bind, modify, SubscriptionManager.next_random, SubscriptionManager.on_conn.
  destruct (SessionIdManager.getSessionData destination w) as [[a | e] w1];
    [| reflexivity].
  destruct w1. reflexivity.
Qed.

Lemma subscribe_meanwhile_nil attempt destinations w :
  SubscriptionManager.subscribe_meanwhile config attempt [] destinations w
  = SubscriptionManager.subscribe config attempt destinations w.
Proof.
  assert (Hloop : forall w1,
            SubscriptionManager.subscribe_loop_meanwhile config [] destinations w1
            = for_each destinations SubscriptionManager.subscribe_one w1).
  { induction destinations as [| destination destinations IH]; intros w1; [reflexivity |].
    simpl. unfold bind. rewrite subscribe_one_meanwhile_nil.
    destruct (SubscriptionManager.subscribe_one destination w1) as [[[] | e] w2];
      [apply IH | reflexivity]. }
  unfold SubscriptionManager.subscribe_meanwhile, SubscriptionManager.subscribe, bind, gets.
  destruct (negb (Connection.isOpen (conn w)));
    [destruct (SubscriptionManager.on_conn _ w) as [[[] | e] w1] | simpl];
    first [apply Hloop | reflexivity].
Qed.

(** One turn of the loop, whatever the store does: the read never fails
    the turn, the connection is then what the events of the meantime made
    of it, and the frame is entered in the pending map before it is handed
    to [sendFrame]. *)
Lemma subscribe_one_meanwhile_effect meanwhile destination w :
  exists a w1,
    conn w1 = conn w /\
    pendingSubscriptions w1 = pendingSubscriptions w /\
    let c1 := Connection.run config (conn w) meanwhile in
    let cid := random w (randomCalls w) in
    let f := {| sub_destination := destination; sub_sid := sd_sid <$> a;
                sub_gid := sd ← a; sd_gid sd; sub_cid := cid;
                sub_cache := Some CacheStart |} in
    SubscriptionManager.subscribe_one_meanwhile config meanwhile destination w
    = (fst (Connection.sendFrame (FSubscribe f) c1),
       set_conn (snd (Connection.sendFrame (FSubscribe f) c1))
         (set_pendingSubscriptions
            (SubscriptionManager.pending_set cid f (pendingSubscriptions w))
            (set_randomCalls (S (randomCalls w)) w1))).
Proof.
  pose proof (keeps_getSessionData _ SubscribeProps.beside_store_conn destination w) as Hc.
  pose proof (keeps_getSessionData _ beside_store_pending destination w) as Hp.
  assert (Hrandom : beside_store random) by (split; reflexivity).
  assert (HrandomCalls : beside_store randomCalls) by (split; reflexivity).
  pose proof (keeps_getSessionData _ Hrandom destination w) as Hr.
  pose proof (keeps_getSessionData _ HrandomCalls destination w) as Hn.
  assert (Htot : exists a w1, SessionIdManager.getSessionData destination w = (Ok a, w1)).
  { unfold SessionIdManager.getSessionData, sids_get, try_catch, bind, gets, request,
      console_warn, console_error, ret, throw.
    destruct (db w); simpl; [destruct (failing w SidsGet); simpl |]; eauto. }
  destruct Htot as (a & w1 & Hg). rewrite Hg in Hc, Hp, Hr, Hn. simpl in Hc, Hp, Hr, Hn.
  exists a, w1. split; [exact Hc |]. split; [exact Hp |]. cbv zeta.
  unfold SubscriptionManager.subscribe_one_meanwhile, bind at 1. rewrite Hg.
  unfold bind, SubscriptionManager.next_random, modify, SubscriptionManager.on_conn.
  simpl. rewrite Hc, Hp, Hr, Hn.
  destruct (Connection.sendFrame _ _) as [r c2]. reflexivity.
Qed.

(** (X27) [subscribe] while the connection is still being opened does
    not wait for it: [open] comes back at once and the loop starts.  Its
    first turn reads the session record, draws a correlation id and
    enters the frame in the pending map before it calls [sendFrame].
    Whatever reaches the connection during that read: when the connection
    is not open at the end of it, [sendFrame] throws "WebSocket not open",
    [subscribe] has handed no frame to a socket, and the pending entry of
    the first destination stays behind; when the socket has opened during
    the read, the frame goes out on it. *)
Theorem subscribe_while_connecting_leaves_pending (attempt : Connection.Attempt)
    (meanwhile : list Connection.ConnEvent) (later : list (list Connection.ConnEvent))
    (destination : string) (destinations : list string) (w : World) :
  Connection.state (conn w) = Connection.CONNECTING ->
  let c1 := Connection.run config (conn w) meanwhile in
  let cid := random w (randomCalls w) in
  (Connection.isOpen c1 = false ->
   exists w' f,
     SubscriptionManager.subscribe_meanwhile config attempt (meanwhile :: later)
       (destination :: destinations) w = (Throw Connection.not_open, w') /\
     Connection.sent (conn w') = Connection.sent c1 /\
     sub_destination f = destination /\
     pendingSubscriptions w'
       = SubscriptionManager.pending_set cid f (pendingSubscriptions w) /\
     randomCalls w' = S (randomCalls w)) /\
  (Connection.isOpen c1 = true ->
   exists w' f n,
     SubscriptionManager.subscribe_meanwhile config attempt [meanwhile] [destination] w
       = (Ok tt, w') /\
     Connection.ws c1 = Some n /\
     Connection.sent (conn w') = Connection.sent c1 ++ [(n, FSubscribe f)] /\
     sub_destination f = destination /\
     sub_cid f = cid /\
     pendingSubscriptions w'
       = SubscriptionManager.pending_set cid f (pendingSubscriptions w)).
Proof.
  intros Hst c1 cid.
  assert (Hopen : forall ms ds,
            SubscriptionManager.subscribe_meanwhile config attempt ms ds w
            = SubscriptionManager.subscribe_loop_meanwhile config ms ds w).
  { intros ms ds.
    unfold SubscriptionManager.subscribe_meanwhile, bind at 1, gets at 1, Connection.isOpen.
    rewrite Hst. simpl.
    unfold bind at 1, SubscriptionManager.on_conn at 1, Connection.open_await,
      Connection.open_call. rewrite Hst. simpl.
    assert (Hw : set_conn (conn w) w = w) by (destruct w; reflexivity).
    rewrite Hw. reflexivity. }
  destruct (subscribe_one_meanwhile_effect meanwhile destination w)
    as (a & w1 & Hc & Hp & Hrun).
  cbv zeta in Hrun. fold c1 in Hrun. fold cid in Hrun.
  set (f := {| sub_destination := destination |}) in Hrun.
  assert (Hinv : open_on_established c1).
  { apply ConnectionMore.open_on_established_run.
    unfold open_on_established. rewrite Hst. discriminate. }
  split; intros Hio; unfold Connection.isOpen in Hio.
  - exists (set_conn c1
              (set_pendingSubscriptions
                 (SubscriptionManager.pending_set cid f (pendingSubscriptions w))
                 (set_randomCalls (S (randomCalls w)) w1))), f.
    rewrite Hopen. simpl. unfold bind at 1. rewrite Hrun.
    unfold Connection.sendFrame. rewrite Hio. simpl.
    repeat split.
  - assert (Hs : Connection.state c1 = Connection.OPEN)
      by (destruct (Connection.state c1); try discriminate; reflexivity).
    destruct (Hinv Hs) as (n & Hws & _).
    exists (set_conn (Connection.set_sent (Connection.sent c1 ++ [(n, FSubscribe f)]) c1)
              (set_pendingSubscriptions
                 (SubscriptionManager.pending_set cid f (pendingSubscriptions w))
                 (set_randomCalls (S (randomCalls w)) w1))), f, n.
    rewrite Hopen. simpl. unfold bind at 1. rewrite Hrun.
    unfold Connection.sendFrame. rewrite Hio, Hws. simpl.
    repeat split.
Qed.

(** (X28) [subscribe] on an open connection resumes from the store.
    With a working store, [subscribe] returns normally and hands one
    subscribe frame per destination to the socket, in order; each carries
    the sid and the cursor of the destination's record, or neither when
    there is no record; its correlation id is a key of the pending map
    afterwards; and the store is not changed. *)
Theorem subscribe_resumes_from_store (attempt : Connection.Attempt)
    (destinations : list string) (w : World) (d : Db) (n : nat) :
  db w = Some d -> failing w SidsGet = false ->
  Connection.state (conn w) = Connection.OPEN -> Connection.ws (conn w) = Some n ->
  exists w' new,
    SubscriptionManager.subscribe config attempt destinations w = (Ok tt, w') /\
    Connection.sent (conn w') = Connection.sent (conn w) ++ new /\
    Forall2 (resumes d n) destinations new /\
    Forall (is_pending w') new /\
    db w' = db w.
Proof.
  intros Hdb Hf Hst Hws.
  destruct (subscribe_loop_resumes d n destinations w Hdb Hf Hst Hws)
    as (w' & new & Hrun & Hsent & Hres & Hpen & _ & Hdb').
  exists w', new. split; [| auto].
  unfold SubscriptionManager.subscribe, bind, gets, Connection.isOpen.
  rewrite Hst. simpl. exact Hrun.
Qed.

End Subscriptions.

Lemma first_ack_creates_session_witness :
  exists w',
    SubscriptionManager.handleSubAck defaultConfig {| ack_sid := "s1" |}
      (firstAckWorld (fun _ => false)) = (Ok tt, w') /\
    (sids <$> db w')
      = Some (<["orders" := {| sd_destination := "orders";
                               sd_sid := "s1"; sd_gid := None |}]> (sids emptyDb)) /\
    (events <$> db w') = Some (events emptyDb) /\
    ~ In 7%Z (map fst (pendingSubscriptions w')) /\
    delivered w' = delivered (firstAckWorld (fun _ => false)).
Proof.
  apply (first_ack_creates_session defaultConfig {| ack_sid := "s1" |}
           (firstAckWorld (fun _ => false)) emptyDb 7%Z
           {| sub_destination := "orders"; sub_cid := 7; sub_sid := None;
              sub_gid := None; sub_cache := Some CacheStart |} []);
    first [reflexivity | discriminate].
Defined.

Lemma first_ack_store_failure_witness :
  exists w',
    SubscriptionManager.handleSubAck defaultConfig {| ack_sid := "s1" |}
      (firstAckWorld (failsOn SidsPut)) = (Throw StoreFailure, w') /\
    db w' = db (firstAckWorld (failsOn SidsPut)) /\
    pendingSubscriptions w' = pendingSubscriptions (firstAckWorld (failsOn SidsPut)).
Proof.
  apply (first_ack_store_failure defaultConfig {| ack_sid := "s1" |}
           (firstAckWorld (failsOn SidsPut)) emptyDb 7%Z
           {| sub_destination := "orders"; sub_cid := 7; sub_sid := None;
              sub_gid := None; sub_cache := Some CacheStart |} []);
    first [reflexivity | discriminate].
Defined.

Lemma subscribe_gives_up_when_open_fails_witness :
  exists e w',
    SubscriptionManager.subscribe defaultConfig Connection.TimesOut ["orders"] subscribedWorld
      = (Throw e, w') /\
    Connection.sent (conn w') = Connection.sent (conn subscribedWorld) /\
    pendingSubscriptions w' = pendingSubscriptions subscribedWorld /\
    randomCalls w' = randomCalls subscribedWorld /\
    db w' = db subscribedWorld /\
    Connection.state (conn w') <> Connection.OPEN.
Proof.
  apply (subscribe_gives_up_when_open_fails defaultConfig Connection.TimesOut
           ["orders"] subscribedWorld); simpl; discriminate.
Defined.

Lemma subscribe_while_connecting_leaves_pending_witness :
  let w := Transport.connection_events defaultConfig [Connection.CallOpen] subscribedWorld in
  let cid := random w (randomCalls w) in
  (exists w' f,
     SubscriptionManager.subscribe_meanwhile defaultConfig Connection.SocketOpens
       [[Connection.JwtResolved]] ["orders"; "trades"] w = (Throw Connection.not_open, w') /\
     Connection.sent (conn w')
       = Connection.sent (Connection.run defaultConfig (conn w) [Connection.JwtResolved]) /\
     sub_destination f = "orders" /\
     pendingSubscriptions w'
       = SubscriptionManager.pending_set cid f (pendingSubscriptions w) /\
     randomCalls w' = S (randomCalls w)) /\
  (exists w' f n,
     SubscriptionManager.subscribe_meanwhile defaultConfig Connection.SocketOpens
       [[Connection.JwtResolved; Connection.WsOpen 0]] ["orders"] w = (Ok tt, w') /\
     Connection.ws (Connection.run defaultConfig (conn w)
                      [Connection.JwtResolved; Connection.WsOpen 0]) = Some n /\
     Connection.sent (conn w')
       = Connection.sent (Connection.run defaultConfig (conn w)
                            [Connection.JwtResolved; Connection.WsOpen 0])
         ++ [(n, FSubscribe f)] /\
     sub_destination f = "orders" /\
     sub_cid f = cid /\
     pendingSubscriptions w'
       = SubscriptionManager.pending_set cid f (pendingSubscriptions w)).
Proof.
  split.
  - apply (proj1 (subscribe_while_connecting_leaves_pending defaultConfig
                    Connection.SocketOpens [Connection.JwtResolved] [] "orders" ["trades"]
                    (Transport.connection_events defaultConfig [Connection.CallOpen]
                       subscribedWorld) eq_refl)).
    reflexivity.
  - apply (proj2 (subscribe_while_connecting_leaves_pending defaultConfig
                    Connection.SocketOpens [Connection.JwtResolved; Connection.WsOpen 0] []
                    "orders" []
                    (Transport.connection_events defaultConfig [Connection.CallOpen]
                       subscribedWorld) eq_refl)).
    reflexivity.
Defined.

Lemma subscribe_resumes_from_store_witness :
  exists w' new,
    SubscriptionManager.subscribe defaultConfig Connection.SocketOpens
      ["orders"; "trades"] resumingWorld = (Ok tt, w') /\
    Connection.sent (conn w') = Connection.sent (conn resumingWorld) ++ new /\
    Forall2 (resumes {| sids := {[ "orders" := {| sd_destination := "orders";
                                                   sd_sid := "s1"; sd_gid := Some "g1" |} ]};
                        events := []; nextKey := 0 |} 0) ["orders"; "trades"] new /\
    Forall (is_pending w') new /\
    db w' = db resumingWorld.
Proof.
  apply (subscribe_resumes_from_store defaultConfig Connection.SocketOpens
           ["orders"; "trades"] resumingWorld); reflexivity.
Defined.

End SubscriptionMore.

(* ===================================================================== *)
(** * Properties of the configuration *)
(* ===================================================================== *)

Module ConfigProps.

Lemma num_or_nonzero (x : option Q) (d : Q) :
  ~ (d == 0)%Q -> ~ (num_or x d == 0)%Q.
Proof.
  intros Hd. unfold num_or. destruct x as [q |]; [| exact Hd].
  destruct (Qeq_bool q 0) eqn:E; [exact Hd |].
  intros H. apply Qeq_bool_iff in H. congruence.
Qed.

Lemma str_or_nonempty (x : option string) (d : string) :
  d <> "" -> str_or x d <> "".
Proof.
  intros Hd. unfold str_or. destruct x as [[| a s] |]; [exact Hd | discriminate | exact Hd].
Qed.

Lemma not_false_spec (x : option bool) : not_false x = false <-> x = Some false.
Proof.
  destruct x as [[] |]; simpl; split; congruence.
Qed.

(** (X29) The constructor of [Config] never leaves a falsy value in a
    field with a default: whatever the options, the url and the database
    name are not empty, the two reconnect delays and the deduplication
    window are not zero, and reconnecting and caching are off only when
    the option is given as [false]. *)
Theorem config_fields_are_never_falsy (options : SessionOptions) :
  let config := mkConfig options in
  url config <> "" /\
  cacheDbName config <> "" /\
  ~ (reconnectTimeout config == 0)%Q /\
  ~ (maxReconnectTimeout config == 0)%Q /\
  ~ (dedupWindow config == 0)%Q /\
  (shouldReconnect config = false <-> opt_shouldReconnect options = Some false) /\
  (cacheEnabled config = false <-> opt_cacheEnabled options = Some false).
Proof.
  simpl. repeat split;
    try (apply str_or_nonempty; discriminate);
    try (apply num_or_nonzero; intros H; vm_compute in H; discriminate);
    apply not_false_spec.
Qed.

End ConfigProps.
